(** * TakeoffAI detection pipeline: a shallow embedding and its properties

    The development follows the Python sources of the four-phase pipeline:

    - [pipeline/grid.py]        grid decomposition             ([Grid], [GridFacts])
    - [pipeline/vlm.py]         label filtering, Phase 2       ([Vlm], [VlmFacts])
    - [pipeline/rasterize.py]   percentage crops               ([Rasterize], [CropFacts])
    - [pipeline/agent.py]       the tool-use loop, Phase 3     ([Agent], [AgentFacts])
    - [pipeline/synthesize.py]  spatial deduplication, Phase 4 ([Synthesize],
                                [SynthFacts], [CoverageFacts])
    - [pipeline/context.py]     context extraction, Phase 1    ([Context], [ContextFacts])
    - [pipeline/agent.py]       the read-only tools            ([AgentTools])
    - [pipeline/rasterize.py]   the size of encoded images     ([Encode])
    - [pipeline/reconcile_compat.py], [pipeline/output.py]
                                the CSV report                 ([Output])

    Further properties of the same code are in the modules whose names end
    in [Extra].

    The first part holds the embedding, the second part the properties.

    Python [int] is [Z]; [len] and counters are [nat]; JSON numbers that feed
    float arithmetic are exact rationals [Q]; [str] is [string] restricted to
    ASCII text; an exception is a value of [exn] and a function that can raise
    returns an [outcome]. Remote calls (the vision model, the PDF renderer) are
    inputs of the embedded functions. *)

From Stdlib Require Import ZArith QArith List String Ascii Lia Bool Permutation Sorted.
From Stdlib Require OrdersEx.
From Stdlib Require Import Lqa.
From stdpp Require Import base gmap strings list sorting pretty.
Import ListNotations.
Open Scope string_scope.
Open Scope Z_scope.

(** ** Exceptions *)

Record exn := Exn { exn_class : string; exn_msg : string }.

Inductive outcome (A : Type) : Type :=
| Returned (a : A)
| Raised (e : exn).
Arguments Returned {A} a.
Arguments Raised {A} e.

#[global] Instance outcome_ret : MRet outcome := fun _ a => Returned a.
#[global] Instance outcome_bind : MBind outcome := fun _ _ k m =>
  match m with
  | Returned a => k a
  | Raised e => Raised e
  end.

(** [range(n)] for a Python int [n]: empty when [n <= 0]. *)
Definition range (n : Z) : list Z := map Z.of_nat (seq 0 (Z.to_nat n)).

(** ** Python text operations on ASCII strings *)

Module Str.

Definition code (c : ascii) : N := N_of_ascii c.

Definition between (lo hi : N) (c : ascii) : bool :=
  ((lo <=? code c) && (code c <=? hi))%N.

Definition upper_char (c : ascii) : ascii :=
  if between 97 122 c then ascii_of_N (code c - 32) else c.

Definition lower_char (c : ascii) : ascii :=
  if between 65 90 c then ascii_of_N (code c + 32) else c.

Fixpoint map_chars (f : ascii -> ascii) (s : string) : string :=
  match s with
  | EmptyString => EmptyString
  | String c s' => String (f c) (map_chars f s')
  end.

(** [s.upper()] and [s.lower()] *)
Definition upper : string -> string := map_chars upper_char.
Definition lower : string -> string := map_chars lower_char.

(** [c.isspace()] on ASCII: tab, LF, VT, FF, CR, FS, GS, RS, US, space. *)
Definition isspace (c : ascii) : bool :=
  between 9 13 c || between 28 32 c.

Definition isdigit (c : ascii) : bool := between 48 57 c.

(** [s.lstrip(chars)] with the character set given as a predicate. *)
Fixpoint lstrip_by (p : ascii -> bool) (s : string) : string :=
  match s with
  | EmptyString => EmptyString
  | String c s' => if p c then lstrip_by p s' else s
  end.

Definition rstrip_by (p : ascii -> bool) (s : string) : string :=
  String.rev (lstrip_by p (String.rev s)).

(** [s.strip()] *)
Definition strip (s : string) : string := rstrip_by isspace (lstrip_by isspace s).

(** [s[n:]] for [n >= 0] *)
Fixpoint drop (n : nat) (s : string) : string :=
  match n, s with
  | O, _ => s
  | S n', String _ s' => drop n' s'
  | S _, EmptyString => EmptyString
  end.

(** [needle in hay] *)
Fixpoint contains (needle hay : string) : bool :=
  String.prefix needle hay ||
  match hay with
  | EmptyString => false
  | String _ hay' => contains needle hay'
  end.

(** [sep.join(parts)] *)
Fixpoint join (sep : string) (parts : list string) : string :=
  match parts with
  | [] => EmptyString
  | [p] => p
  | p :: rest => p +:+ sep +:+ join sep rest
  end.

(** [x or default] for an optional string: [None] and the empty string are
    falsy. *)
Definition or_else (o : option string) (d : string) : string :=
  match o with
  | Some s => if String.eqb s EmptyString then d else s
  | None => d
  end.

End Str.

(** ** Regular expressions: [re.match(pattern, s)] *)

(** The compiled form of a [re] pattern; [label_pattern] holds the pattern in
    this form. *)
Inductive regex :=
| REmpty                        (* matches nothing *)
| REps                          (* the empty string *)
| RRange (lo hi : ascii)        (* one character in [lo-hi] *)
| RSeq (r1 r2 : regex)
| RAlt (r1 r2 : regex)
| RStar (r : regex).

Module Re.

Definition RChar (c : ascii) : regex := RRange c c.
Definition ROpt (r : regex) : regex := RAlt r REps.
Definition RDigit : regex := RRange "0" "9".          (* \d on ASCII text *)
Definition RUpper : regex := RRange "A" "Z".          (* [A-Z] *)

(** [r{0,k}] *)
Fixpoint RUpTo (k : nat) (r : regex) : regex :=
  match k with
  | O => REps
  | S k' => ROpt (RSeq r (RUpTo k' r))
  end.

(** [r{m,m+extra}] *)
Fixpoint RRepeat (m extra : nat) (r : regex) : regex :=
  match m with
  | O => RUpTo extra r
  | S m' => RSeq r (RRepeat m' extra r)
  end.

Fixpoint nullable (r : regex) : bool :=
  match r with
  | REmpty => false
  | REps => true
  | RRange _ _ => false
  | RSeq r1 r2 => nullable r1 && nullable r2
  | RAlt r1 r2 => nullable r1 || nullable r2
  | RStar _ => true
  end.

Definition in_range (lo hi c : ascii) : bool :=
  ((Str.code lo <=? Str.code c) && (Str.code c <=? Str.code hi))%N.

(** Brzozowski derivative of [r] by the character [c]. *)
Fixpoint deriv (c : ascii) (r : regex) : regex :=
  match r with
  | REmpty => REmpty
  | REps => REmpty
  | RRange lo hi => if in_range lo hi c then REps else REmpty
  | RSeq r1 r2 =>
      if nullable r1 then RAlt (RSeq (deriv c r1) r2) (deriv c r2)
      else RSeq (deriv c r1) r2
  | RAlt r1 r2 => RAlt (deriv c r1) (deriv c r2)
  | RStar r1 => RSeq (deriv c r1) (RStar r1)
  end.

(** [re.match(r, s) is not None]: some prefix of [s] is matched by [r]. *)
Fixpoint re_match (r : regex) (s : string) : bool :=
  nullable r ||
  match s with
  | EmptyString => false
  | String c s' => re_match (deriv c r) s'
  end.


(** The default pattern [LT\d{2,3}[A-Z]?] of [PipelineConfig]. *)
Definition default_label_pattern : regex :=
  RSeq (RChar "L") (RSeq (RChar "T") (RSeq (RRepeat 2 1 RDigit) (ROpt RUpper))).

End Re.

(** ** Configuration ([pipeline/config.py]) *)

Record PipelineConfig := {
  coarse_dpi : Z;
  coarse_grid_cols : Z;
  coarse_grid_rows : Z;
  refine_dpi : Z;
  max_agent_iterations : Z;
  max_vlm_calls_phase3 : Z;
  dedup_radius_px : Z;
  label_pattern : regex;
  label_prefix : string;
  work_dir : string
}.

(** ** Python built-ins used by the pipeline *)

Module Py.

(** [min(a, b)] on numbers: [b] when [b < a], else [a]. *)
Definition min_num (a b : Q) : Q := if Qlt_le_dec b a then b else a.

(** [int(q)]: truncation toward zero. *)
Definition int (q : Q) : Z := Z.quot (Qnum q) (Zpos (Qden q)).

Section Sorted.
Context {A : Type} (lt : A -> A -> bool).

(** Insertion of [x] in front of a list already sorted; [x] stood before
    every element of [l] in the input, so it stays before its equals. *)
Fixpoint insert (x : A) (l : list A) : list A :=
  match l with
  | [] => [x]
  | y :: l' => if lt y x then y :: insert x l' else x :: l
  end.

(** [sorted(l)]: the stable ascending sort for the comparison [lt]. *)
Definition sorted (l : list A) : list A := foldr insert [] l.

(** [sorted(l, reverse=True)]: the stable descending sort (CPython
    reverses, sorts, and reverses again). *)
Definition sorted_reverse (l : list A) : list A := rev (sorted (rev l)).
End Sorted.

(** Tuple comparison [(a1, a2) < (b1, b2)] on pairs of ints. *)
Definition pair_ltb (a b : Z * Z) : bool :=
  (a.1 <? b.1) || ((a.1 =? b.1) && (a.2 <? b.2)).

(** Tuple comparison on [(str, int)] items of a counter. *)
Definition item_ltb (a b : string * nat) : bool :=
  match String.compare a.1 b.1 with
  | Lt => true
  | Gt => false
  | Eq => (a.2 <? b.2)%nat
  end.

(** [Counter(keys)]: counts in first-occurrence order. *)
Fixpoint counter_add (k : string) (c : list (string * nat)) : list (string * nat) :=
  match c with
  | [] => [(k, 1%nat)]
  | (k', n) :: c' =>
      if String.eqb k k' then (k', S n) :: c' else (k', n) :: counter_add k c'
  end.

Definition Counter (keys : list string) : list (string * nat) :=
  foldl (fun c k => counter_add k c) [] keys.

(** [d.get(k, 0)] on a dict kept as an association list. *)
Fixpoint get_count (k : string) (d : list (string * nat)) : nat :=
  match d with
  | [] => 0%nat
  | (k', n) :: d' => if String.eqb k k' then n else get_count k d'
  end.

(** [sum(d.values())] *)
Definition sum_values (d : list (string * nat)) : nat :=
  foldr (fun kv acc => (kv.2 + acc)%nat) 0%nat d.

End Py.

(** ** Data model ([pipeline/models.py]) *)

Record Detection := {
  label : string;
  variant : option string;
  circuit : option string;
  room : option string;
  x : Z;
  y : Z;
  confidence : string;
  on_boundary : bool;
  source_cell : option (Z * Z);
  source_phase : Z;
  notes : string
}.

(** One entry of [DrawingContext.suites]; a field is [None] when the key is
    absent or null. *)
Record Suite := {
  number : option string;
  location : option string;
  suite_type : option string
}.

Record DrawingContext := {
  sheet_number : option string;
  sheet_title : option string;
  building_type : option string;
  floor_level : option Z;
  suites : list Suite;
  corridor_layout : option string;
  stairs : list (list (string * string));
  elevators : list (list (string * string));
  title_block : list (string * string);
  fixture_types_visible : list string
}.

Record SynthesisReport := {
  final_counts : list (string * nat);   (* dict, in insertion order *)
  total : nat;
  detections : list Detection;
  duplicates_removed : nat;
  pattern_warnings : list string
}.

(** [SynthesisReport()] *)
Definition empty_report : SynthesisReport :=
  {| final_counts := []; total := 0; detections := [];
     duplicates_removed := 0; pattern_warnings := [] |}.

(** JSON values as [json.loads] returns them. *)
#[warnings="-register-all"]
Inductive json :=
| JNull
| JBool (b : bool)
| JInt (n : Z)
| JFloat (q : Q)
| JStr (s : string)
| JArr (items : list json)
| JObj (fields : list (string * json)).

(** One detection dict of a vision-model reply, as the prompts ask for it.
    A field is [None] when the key is absent. *)
Inductive raw_position :=
| PosAbsent                           (* no "position" key: [{}] *)
| PosDict (px py : option Q)          (* a dict, with optional "x" and "y" *)
| PosOther.                           (* any value that is not a dict *)

Record raw_det := {
  r_label : option string;
  r_circuit : option string;
  r_room : option string;
  r_position : raw_position;
  r_confidence : option string;
  r_on_boundary : option bool;
  r_notes : option string
}.

(** What one [client.messages.create] of a detection call amounts to: a rate
    limit, any other exception, or a reply whose text parses to the given
    list of detection dicts. *)
Inductive api_reply :=
| RateLimitError
| ApiFailure (e : exn)
| Reply (dets : list raw_det).

(** Arguments of a tool call ([tu.input]); [None] when the key is absent. *)
Record tool_input := {
  x_pct : option Q;
  y_pct : option Q;
  width_pct : option Q;
  height_pct : option Q;
  reason : option string;
  pattern_type : option string;
  summary : option string
}.

(** Content blocks of an orchestrator response. *)
Inductive block :=
| TextBlock (text : string)
| ToolUseBlock (id name : string) (input : tool_input).

Record response := {
  content : list block;
  stop_reason : string
}.

(** Entries of [agent_log]. *)
Inductive log_entry :=
| LogTool (iteration : Z) (tool : string) (input : tool_input)
| LogFinalize (summary : string).

(** [PhaseResult.metadata] *)
Inductive metadata :=
| MetaEmpty
| MetaContext (context : json)
| MetaAgent (agent_log : list log_entry) (summary : option string).

Record PhaseResult := {
  phase : Z;
  phase_detections : list Detection;
  phase_vlm_calls : Z;
  duration_s : Q;
  phase_metadata : metadata;
  error : option string
}.

(** [PhaseResult(phase=n)] *)
Definition new_phase (n : Z) : PhaseResult :=
  {| phase := n; phase_detections := []; phase_vlm_calls := 0;
     duration_s := 0%Q; phase_metadata := MetaEmpty; error := None |}.

(** ** Grid decomposition ([pipeline/grid.py]) *)

Module Grid.

Record CellInfo := {
  row : Z; col : Z; path : string;
  x0 : Z; y0 : Z; x1 : Z; y1 : Z
}.

Record GridResult := {
  cells : list CellInfo;
  plan_width : Z; plan_height : Z;
  cell_width : Z; cell_height : Z;
  cols : Z; rows : Z
}.

(** [W // cols]; Python raises on a zero divisor. *)
Definition floordiv (a b : Z) : outcome Z :=
  if b =? 0 then Raised (Exn "ZeroDivisionError" "integer division or modulo by zero")
  else Returned (a / b).

(** The body of the two nested loops for one [(r, c)]. *)
Definition cell_at (cells_dir : string) (W H cw ch r c : Z) : CellInfo :=
  let x0 := c * cw in
  let y0 := r * ch in
  let x1 := Z.min (x0 + cw) W in
  let y1 := Z.min (y0 + ch) H in
  {| row := r; col := c;
     path := cells_dir +:+ "/r" +:+ pretty r +:+ "_c" +:+ pretty c +:+ ".png";
     x0 := x0; y0 := y0; x1 := x1; y1 := y1 |}.

(** [decompose(plan_img, cfg)] for an image of size [W x H]. Writing the
    cell images to disk is not part of the embedding. *)
Definition decompose (W H : Z) (cfg : PipelineConfig) : outcome GridResult :=
  let cols := coarse_grid_cols cfg in
  let rows := coarse_grid_rows cfg in
  cw ← floordiv W cols;
  ch ← floordiv H rows;
  let cells_dir := work_dir cfg +:+ "/cells" in
  let cells :=
    flat_map (fun r => map (fun c => cell_at cells_dir W H cw ch r c) (range cols))
             (range rows) in
  Returned {| cells := cells;
              plan_width := W; plan_height := H;
              cell_width := cw; cell_height := ch;
              cols := cols; rows := rows |}.

(** Pixel [(x, y)] lies in the half-open rectangle of cell [c]. *)
Definition in_cell (c : CellInfo) (x y : Z) : Prop :=
  x0 c <= x < x1 c /\ y0 c <= y < y1 c.

Definition in_cellb (c : CellInfo) (x y : Z) : bool :=
  (x0 c <=? x) && (x <? x1 c) && (y0 c <=? y) && (y <? y1 c).

End Grid.

(** ** Vision-model detection calls ([pipeline/vlm.py]) *)

Module Vlm.

(** [label[len(prefix):].lstrip("0123456789") or None] *)
Definition variant_of (prefix label : string) : option string :=
  let v := Str.lstrip_by Str.isdigit (Str.drop (String.length prefix) label) in
  if String.eqb v EmptyString then None else Some v.

(** [d.get("label", EMPTY).upper().strip()], [EMPTY] the empty string *)
Definition normalize_label (d : raw_det) : string :=
  Str.strip (Str.upper (default EmptyString (r_label d))).

(** Page-global pixel position of a Phase 2 detection. *)
Definition cell_position (cell : Grid.CellInfo) (pos : raw_position) : Q * Q :=
  let x0 := Grid.x0 cell in let x1 := Grid.x1 cell in
  let y0 := Grid.y0 cell in let y1 := Grid.y1 cell in
  match pos with
  | PosOther =>
      ((inject_Z (x0 + x1) / 2)%Q, (inject_Z (y0 + y1) / 2)%Q)
  | PosAbsent =>
      ((inject_Z x0 + (50 / 100) * inject_Z (x1 - x0))%Q,
       (inject_Z y0 + (50 / 100) * inject_Z (y1 - y0))%Q)
  | PosDict px py =>
      ((inject_Z x0 + (default 50%Q px / 100) * inject_Z (x1 - x0))%Q,
       (inject_Z y0 + (default 50%Q py / 100) * inject_Z (y1 - y0))%Q)
  end.

(** One pass of the conversion loop of [inspect_cell]: [None] is the
    [continue] taken when the label does not match. *)
Definition cell_detection (cfg : PipelineConfig) (cell : Grid.CellInfo)
    (d : raw_det) : option Detection :=
  let label := normalize_label d in
  if negb (Re.re_match (label_pattern cfg) label) then None
  else
    let '(px, py) := cell_position cell (r_position d) in
    Some {| label := label;
            variant := variant_of (label_prefix cfg) label;
            circuit := r_circuit d;
            room := r_room d;
            x := Py.int px; y := Py.int py;
            confidence := default "MEDIUM" (r_confidence d);
            on_boundary := default false (r_on_boundary d);
            source_cell := Some (Grid.col cell, Grid.row cell);
            source_phase := 2;
            notes := default EmptyString (r_notes d) |}.

Definition convert_cell (cfg : PipelineConfig) (cell : Grid.CellInfo)
    (raws : list raw_det) : list Detection :=
  omap (cell_detection cfg cell) raws.

(** The retry loop [for attempt in range(n): try ... break / except
    RateLimitError: sleep]; [None] is the [else] branch (all attempts rate
    limited). [api k] is the reply to attempt [k]. *)
Fixpoint call_with_retry (n : nat) (attempt : nat) (api : nat -> api_reply)
    : outcome (option (list raw_det)) :=
  match n with
  | O => Returned None
  | S n' =>
      match api attempt with
      | RateLimitError => call_with_retry n' (S attempt) api
      | ApiFailure e => Raised e
      | Reply dets => Returned (Some dets)
      end
  end.

(** [inspect_cell]: Phase 2 inspection of one grid cell. *)
Definition inspect_cell (cfg : PipelineConfig) (cell : Grid.CellInfo)
    (api : nat -> api_reply) : outcome (list Detection) :=
  r ← call_with_retry 4 0 api;
  match r with
  | None => Returned []
  | Some raws => Returned (convert_cell cfg cell raws)
  end.

(** [inspect_crop]: Phase 3 inspection of a crop; returns the raw dicts. *)
Definition inspect_crop (api : nat -> api_reply) : outcome (list raw_det) :=
  r ← call_with_retry 3 0 api;
  Returned (default [] r).

End Vlm.

(** ** Percentage crops ([pipeline/rasterize.py]) *)

Module Rasterize.

(** The box [(x1, y1, x2, y2)] that [render_crop] passes to [img.crop] for a
    page rendered at size [W x H]. *)
Definition render_crop (W H : Z) (x_pct y_pct w_pct h_pct : Q) : Z * Z * Z * Z :=
  let cx := (x_pct / 100 * inject_Z W)%Q in
  let cy := (y_pct / 100 * inject_Z H)%Q in
  let cw := (w_pct / 100 * inject_Z W)%Q in
  let ch := (h_pct / 100 * inject_Z H)%Q in
  let x1 := Z.max 0 (Py.int (cx - cw / 2)%Q) in
  let y1 := Z.max 0 (Py.int (cy - ch / 2)%Q) in
  let x2 := Z.min W (Py.int (cx + cw / 2)%Q) in
  let y2 := Z.min H (Py.int (cy + ch / 2)%Q) in
  (x1, y1, x2, y2).


End Rasterize.

(** ** Phase 3: the tool-use loop ([pipeline/agent.py]) *)

Module Agent.

(** The mutable attributes of an [AgentOrchestrator]. *)
Record state := {
  detections : list Detection;
  vlm_calls : Z;
  agent_log : list log_entry
}.

(** [AgentOrchestrator(renderer, cfg, context, coarse_detections)] *)
Definition init (coarse_detections : list Detection) : state :=
  {| detections := coarse_detections; vlm_calls := 0; agent_log := [] |}.

Definition log (e : log_entry) (self : state) : state :=
  {| detections := detections self; vlm_calls := vlm_calls self;
     agent_log := agent_log self ++ [e] |}.

Definition extend (dets : list Detection) (self : state) : state :=
  {| detections := detections self ++ dets; vlm_calls := vlm_calls self;
     agent_log := agent_log self |}.

Definition count_call (self : state) : state :=
  {| detections := detections self; vlm_calls := vlm_calls self + 1;
     agent_log := agent_log self |}.

Section Run.
Variable cfg : PipelineConfig.

(** The renderer: the size of the page rendered at a given DPI. *)
Variable render_size : Z -> Z * Z.

(** The orchestrating model: its response (or the exception raised by the
    call) at each iteration of the loop. The transcript and the prompts
    sent to it are not part of the embedding. *)
Variable model : Z -> outcome response.

(** The vision model: [vision k box a] is the reply to attempt [a] of the
    call for crop [box], when [k] calls were counted before. *)
Variable vision : Z -> Z * Z * Z * Z -> nat -> api_reply.

Variable elapsed : Q.

(** One pass of the conversion loop of [_tool_crop_and_inspect]. *)
Definition crop_detection (x_pct y_pct : Q) (reason : string) (d : raw_det)
    : option Detection :=
  let label := Vlm.normalize_label d in
  if negb (Re.re_match (label_pattern cfg) label) then None
  else
    let size := render_size (coarse_dpi cfg) in
    Some {| label := label;
            variant := Vlm.variant_of (label_prefix cfg) label;
            circuit := r_circuit d;
            room := r_room d;
            x := Py.int (x_pct / 100 * inject_Z size.1)%Q;
            y := Py.int (y_pct / 100 * inject_Z size.2)%Q;
            confidence := default "MEDIUM" (r_confidence d);
            on_boundary := false;
            source_cell := None;
            source_phase := 3;
            notes := "Refinement: " +:+ reason |}.

Definition convert_crop (x_pct y_pct : Q) (reason : string)
    (raws : list raw_det) : list Detection :=
  omap (crop_detection x_pct y_pct reason) raws.

(** The clamped crop size [min(params.get(key, 25), 50)]. *)
Definition effective_pct (requested : option Q) : Q :=
  Py.min_num (default 25%Q requested) 50%Q.

(** The box rendered for a [crop_and_inspect] call. *)
Definition crop_box (params : tool_input) : Z * Z * Z * Z :=
  let size := render_size (refine_dpi cfg) in
  Rasterize.render_crop size.1 size.2
    (default 50%Q (x_pct params)) (default 50%Q (y_pct params))
    (effective_pct (width_pct params)) (effective_pct (height_pct params)).

(** [_tool_crop_and_inspect]; the result dict for the transcript is left
    out, the new state and the detections are returned. *)
Definition _tool_crop_and_inspect (self : state) (params : tool_input)
    : outcome (state * list Detection) :=
  let x_pct := default 50%Q (x_pct params) in
  let y_pct := default 50%Q (y_pct params) in
  let reason := default "targeted re-inspection" (reason params) in
  let crop_img := crop_box params in
  raw_dets ← Vlm.inspect_crop (vision (vlm_calls self) crop_img);
  let self := count_call self in
  Returned (self, convert_crop x_pct y_pct reason raw_dets).

(** [_execute_tool]: [validate_pattern] and [get_current_state] only read
    the state, an unknown tool yields an error dict; none of them adds
    detections. *)
Definition _execute_tool (self : state) (tool_name : string)
    (tool_input : tool_input) : outcome (state * list Detection) :=
  if String.eqb tool_name "crop_and_inspect" then
    _tool_crop_and_inspect self tool_input
  else if String.eqb tool_name "validate_pattern" then Returned (self, [])
  else if String.eqb tool_name "get_current_state" then Returned (self, [])
  else Returned (self, []).

(** How the execution of the tool calls of one turn ends. *)
Inductive turn_end :=
| TurnDone (self : state) (new_detections : list Detection)
| TurnFinalized (self : state) (new_detections : list Detection) (summary : string)
| TurnRaised (self : state) (e : exn).

(** [for tu in tool_uses: ...] *)
Fixpoint exec_tools (iteration : Z) (tool_uses : list (string * tool_input))
    (self : state) (new_detections : list Detection) : turn_end :=
  match tool_uses with
  | [] => TurnDone self new_detections
  | (name, input) :: rest =>
      let self := log (LogTool iteration name input) self in
      if String.eqb name "finalize" then
        let summary := default "No summary" (summary input) in
        TurnFinalized (log (LogFinalize summary) self) new_detections summary
      else
        match _execute_tool self name input with
        | Raised e => TurnRaised self e
        | Returned (self, dets) =>
            exec_tools iteration rest (extend dets self) (new_detections ++ dets)
        end
  end.

(** [[b for b in response.content if b.type == "tool_use"]] *)
Definition tool_uses_of (content : list block) : list (string * tool_input) :=
  omap (fun b => match b with
                 | ToolUseBlock _ name input => Some (name, input)
                 | TextBlock _ => None
                 end) content.

(** How the [for iteration in range(max_agent_iterations)] loop ends. *)
Inductive loop_end :=
| LoopDone (self : state) (new_detections : list Detection) (error : option string)
| LoopFinalized (self : state) (new_detections : list Detection) (summary : string)
| LoopRaised (self : state) (e : exn).

Fixpoint loop (iterations : list Z) (self : state)
    (new_detections : list Detection) : loop_end :=
  match iterations with
  | [] => LoopDone self new_detections None
  | iteration :: rest =>
      let remaining := max_vlm_calls_phase3 cfg - vlm_calls self in
      if remaining <=? 0 then LoopDone self new_detections None
      else
        match model iteration with
        | Raised e => LoopDone self new_detections (Some (exn_msg e))
        | Returned response =>
            match tool_uses_of (content response) with
            | [] =>
                if String.eqb (stop_reason response) "end_turn"
                then LoopDone self new_detections None
                else loop rest self new_detections
            | tool_uses =>
                match exec_tools iteration tool_uses self new_detections with
                | TurnDone self new_detections => loop rest self new_detections
                | TurnFinalized self new_detections summary =>
                    LoopFinalized self new_detections summary
                | TurnRaised self e => LoopRaised self e
                end
            end
        end
  end.

(** [AgentOrchestrator.run]: the final state of the orchestrator and the
    [PhaseResult] returned, or the exception that escapes. *)
Definition run (self : state) : state * outcome PhaseResult :=
  if max_vlm_calls_phase3 cfg <=? 0 then
    (self, Returned {| phase := 3; phase_detections := []; phase_vlm_calls := 0;
                       duration_s := elapsed; phase_metadata := MetaEmpty;
                       error := None |})
  else
    match loop (range (max_agent_iterations cfg)) self [] with
    | LoopFinalized self new_detections summary =>
        (self, Returned {| phase := 3; phase_detections := new_detections;
                           phase_vlm_calls := vlm_calls self;
                           duration_s := elapsed;
                           phase_metadata := MetaAgent (agent_log self) (Some summary);
                           error := None |})
    | LoopDone self new_detections err =>
        (self, Returned {| phase := 3; phase_detections := new_detections;
                           phase_vlm_calls := vlm_calls self;
                           duration_s := elapsed;
                           phase_metadata := MetaAgent (agent_log self) None;
                           error := err |})
    | LoopRaised self e => (self, Raised e)
    end.

(** The number of [crop_and_inspect] executions recorded in the log. *)
Definition crop_executions (self : state) : nat :=
  length (List.filter (fun e => match e with
                                | LogTool _ tool _ => String.eqb tool "crop_and_inspect"
                                | LogFinalize _ => false
                                end) (agent_log self)).

End Run.
End Agent.

(** ** Phase 4: synthesis ([pipeline/synthesize.py]) *)

Module Synthesize.

(** [CONF_RANK.get(confidence, 0)] *)
Definition CONF_RANK (confidence : string) : Z :=
  if String.eqb confidence "HIGH" then 3
  else if String.eqb confidence "MEDIUM" then 2
  else if String.eqb confidence "LOW" then 1
  else 0.

(** The sort key [(CONF_RANK.get(d.confidence, 0), d.source_phase)]. *)
Definition sort_key (d : Detection) : Z * Z :=
  (CONF_RANK (confidence d), source_phase d).

Definition key_ltb (a b : Detection) : bool :=
  Py.pair_ltb (sort_key a) (sort_key b).

(** The condition of the inner loop: [existing] makes [det] a duplicate. *)
Definition near (radius : Z) (existing det : Detection) : bool :=
  String.eqb (label existing) (label det)
  && (Z.abs (x existing - x det) <? radius)
  && (Z.abs (y existing - y det) <? radius).

(** [is_dup] after the inner loop over [kept]. *)
Definition is_dup (radius : Z) (kept : list Detection) (det : Detection) : bool :=
  existsb (fun existing => near radius existing det) kept.

(** The loop [for det in sorted_dets], from the state [(kept, duplicates)]. *)
Fixpoint dedup (radius : Z) (sorted_dets kept : list Detection) (duplicates : nat)
    : list Detection * nat :=
  match sorted_dets with
  | [] => (kept, duplicates)
  | det :: rest =>
      if is_dup radius kept det
      then dedup radius rest kept (S duplicates)
      else dedup radius rest (kept ++ [det]) duplicates
  end.

(** [{s.get("number") for s in context.suites if s.get("number")}] *)
Definition suite_numbers (context : DrawingContext) : gset string :=
  list_to_set (omap (fun s => match number s with
                              | Some n => if String.eqb n EmptyString then None else Some n
                              | None => None
                              end) (suites context)).

(** The body of [for d in detections: ... for sn in suite_numbers: ...],
    with the set visited in the order [order]. *)
Definition mark_detected (order : list string) (acc : gset string) (d : Detection)
    : gset string :=
  let room := Str.lower (Str.or_else (room d) EmptyString) in
  foldl (fun acc sn => if Str.contains (Str.lower sn) room then {[ sn ]} ∪ acc else acc)
        acc order.

Section SetOrder.
(** The order in which the interpreter iterates over a set of strings
    (it varies with the hash seed of the process). *)
Variable set_order : gset string -> list string.

(** [_check_suite_coverage] *)
Definition _check_suite_coverage (detections : list Detection)
    (context : DrawingContext) (cfg : PipelineConfig) : list string :=
  let suite_numbers := suite_numbers context in
  let prefix := label_prefix cfg in
  let detected_suites :=
    foldl (mark_detected (set_order suite_numbers)) ∅ detections in
  let missing := suite_numbers ∖ detected_suites in
  if bool_decide (missing = ∅) then []
  else
    ["No " +:+ prefix +:+ " fixtures detected in suites: "
     +:+ Str.join ", " (Py.sorted String.ltb (set_order missing))
     +:+ ". This may indicate missed detections."].

(** [synthesize] *)
Definition synthesize (detections : list Detection) (cfg : PipelineConfig)
    (context : option DrawingContext) : SynthesisReport :=
  match detections with
  | [] => empty_report
  | _ =>
      let radius := dedup_radius_px cfg in
      let sorted_dets := Py.sorted_reverse key_ltb detections in
      let '(kept, duplicates) := dedup radius sorted_dets [] 0 in
      let label_counts := Py.Counter (map label kept) in
      let warnings :=
        match context with
        | Some context =>
            match suites context with
            | [] => []
            | _ => _check_suite_coverage kept context cfg
            end
        | None => []
        end in
      {| final_counts := Py.sorted Py.item_ltb label_counts;
         total := length kept;
         detections := kept;
         duplicates_removed := duplicates;
         pattern_warnings := warnings |}
  end.
End SetOrder.

(** A legal iteration order lists every element of the set once. *)
Definition set_order_ok (set_order : gset string -> list string) : Prop :=
  forall s : gset string, set_order s ≡ₚ elements s.

End Synthesize.

(** ** Phase 1: context extraction ([pipeline/context.py]) *)

Module Context.

(** The attributes of the [DrawingContext] object that Phase 1 builds.
    [from_dict] hands the values of the parsed reply to the constructor as
    they are, so here an attribute holds whatever JSON value the model
    wrote, whatever the annotation of the field says. *)
Record context_object := {
  o_sheet_number : json;
  o_sheet_title : json;
  o_building_type : json;
  o_floor_level : json;
  o_suites : json;
  o_corridor_layout : json;
  o_stairs : json;
  o_elevators : json;
  o_title_block : json;
  o_fixture_types_visible : json
}.

(** [DrawingContext()] *)
Definition default_context : context_object :=
  {| o_sheet_number := JNull; o_sheet_title := JNull;
     o_building_type := JNull; o_floor_level := JNull;
     o_suites := JArr []; o_corridor_layout := JNull;
     o_stairs := JArr []; o_elevators := JArr [];
     o_title_block := JObj []; o_fixture_types_visible := JArr [] |}.

(** [context.to_dict()] *)
Definition to_dict (c : context_object) : json :=
  JObj [("sheet_number", o_sheet_number c);
        ("sheet_title", o_sheet_title c);
        ("building_type", o_building_type c);
        ("floor_level", o_floor_level c);
        ("suites", o_suites c);
        ("corridor_layout", o_corridor_layout c);
        ("stairs", o_stairs c);
        ("elevators", o_elevators c);
        ("title_block", o_title_block c);
        ("fixture_types_visible", o_fixture_types_visible c)].

(** Truth value of a JSON value ([if data:]). *)
Definition truthy (v : json) : bool :=
  match v with
  | JNull => false
  | JBool b => b
  | JInt n => negb (n =? 0)
  | JFloat q => negb (Qeq_bool q 0)
  | JStr s => negb (String.eqb s EmptyString)
  | JArr items => match items with [] => false | _ => true end
  | JObj fields => match fields with [] => false | _ => true end
  end.

Definition type_name (v : json) : string :=
  match v with
  | JNull => "NoneType"
  | JBool _ => "bool"
  | JInt _ => "int"
  | JFloat _ => "float"
  | JStr _ => "str"
  | JArr _ => "list"
  | JObj _ => "dict"
  end.

(** [len(v)] *)
Definition len (v : json) : outcome nat :=
  match v with
  | JStr s => Returned (String.length s)
  | JArr items => Returned (length items)
  | JObj fields => Returned (length fields)
  | _ => Raised (Exn "TypeError"
                   ("object of type '" +:+ type_name v +:+ "' has no len()"))
  end.

Fixpoint assoc (k : string) (fields : list (string * json)) : option json :=
  match fields with
  | [] => None
  | (k', v) :: rest => if String.eqb k k' then Some v else assoc k rest
  end.

Definition is_str (k : string) (v : json) : bool :=
  match v with
  | JStr s => String.eqb s k
  | _ => false
  end.

Definition no_get (v : json) : exn :=
  Exn "AttributeError" ("'" +:+ type_name v +:+ "' object has no attribute 'get'").

(** One step of the comprehension of [from_dict]:
    [data.get(k)] when [k in data], nothing otherwise. *)
Definition field_of (data : json) (k : string) : outcome (option json) :=
  match data with
  | JObj fields => Returned (assoc k fields)
  | JArr items => if existsb (is_str k) items then Raised (no_get data) else Returned None
  | JStr s => if Str.contains k s then Raised (no_get data) else Returned None
  | _ => Raised (Exn "TypeError"
                   ("argument of type '" +:+ type_name data +:+ "' is not iterable"))
  end.

(** [DrawingContext.from_dict(data)] *)
Definition from_dict (data : json) : outcome context_object :=
  v1 ← field_of data "sheet_number";
  v2 ← field_of data "sheet_title";
  v3 ← field_of data "building_type";
  v4 ← field_of data "floor_level";
  v5 ← field_of data "suites";
  v6 ← field_of data "corridor_layout";
  v7 ← field_of data "stairs";
  v8 ← field_of data "elevators";
  v9 ← field_of data "title_block";
  v10 ← field_of data "fixture_types_visible";
  Returned {| o_sheet_number := default JNull v1;
              o_sheet_title := default JNull v2;
              o_building_type := default JNull v3;
              o_floor_level := default JNull v4;
              o_suites := default (JArr []) v5;
              o_corridor_layout := default JNull v6;
              o_stairs := default (JArr []) v7;
              o_elevators := default (JArr []) v8;
              o_title_block := default (JObj []) v9;
              o_fixture_types_visible := default (JArr []) v10 |}.

(** [s.split(sep, 1)]: the text before and after the first [sep]. *)
Fixpoint split_once (sep s : string) : option (string * string) :=
  if String.prefix sep s then Some (EmptyString, Str.drop (String.length sep) s)
  else match s with
       | EmptyString => None
       | String c s' =>
           match split_once sep s' with
           | Some (before, after) => Some (String c before, after)
           | None => None
           end
       end.

(** [s.split(sep)[0]] *)
Definition split_0 (sep s : string) : string :=
  match split_once sep s with
  | Some (before, _) => before
  | None => s
  end.

(** [s.split(sep)[1]], when [sep in s] *)
Definition split_1 (sep s : string) : string :=
  match split_once sep s with
  | Some (_, after) => split_0 sep after
  | None => EmptyString
  end.

(** The suffix of [s] that starts at the first [c]. *)
Fixpoint from_first (c : ascii) (s : string) : option string :=
  match s with
  | EmptyString => None
  | String c' s' => if Ascii.eqb c c' then Some s else from_first c s'
  end.

(** The prefix of [s] that ends at the last [c]. *)
Fixpoint upto_last (c : ascii) (s : string) : option string :=
  match s with
  | EmptyString => None
  | String c' s' =>
      match upto_last c s' with
      | Some p => Some (String c' p)
      | None => if Ascii.eqb c c' then Some (String c' EmptyString) else None
      end
  end.

(** [re.search(r"\{.*\}", text, re.DOTALL)]: from the first opening brace
    to the last closing brace after it. *)
Definition search_braces (text : string) : option string :=
  match from_first "{" text with
  | Some s => upto_last "}" s
  | None => None
  end.

Definition fence_json : string := "```json".
Definition fence : string := "```".

Section Extract.
(** [json.loads]; [None] stands for [JSONDecodeError]. *)
Variable json_loads : string -> option json.

(** [_parse_json] *)
Definition _parse_json (text : string) : option json :=
  let text :=
    if Str.contains fence_json text then split_0 fence (split_1 fence_json text)
    else if Str.contains fence text then split_0 fence (split_1 fence text)
    else text in
  let text := Str.strip text in
  match json_loads text with
  | Some v => Some v
  | None =>
      match search_braces text with
      | Some m => json_loads m
      | None => None
      end
  end.

(** [response.content[0].text] *)
Definition first_text (r : response) : outcome string :=
  match content r with
  | [] => Raised (Exn "IndexError" "list index out of range")
  | TextBlock text :: _ => Returned text
  | ToolUseBlock _ _ _ :: _ =>
      Raised (Exn "AttributeError" "'ToolUseBlock' object has no attribute 'text'")
  end.

(** The statements of the [try] block after the API call returned. *)
Definition parse_context (r : response) : outcome context_object :=
  text ← first_text r;
  match _parse_json text with
  | Some data => if truthy data then from_dict data else Returned default_context
  | None => Returned default_context
  end.

(** The [try] block: the value of [phase.vlm_calls] when it ends, and the
    context it built or the exception that ended it. [img_b64] is the
    outcome of rendering and encoding the page, [api] the model call. *)
Definition try_block (img_b64 : outcome string) (api : string -> outcome response)
    : Z * outcome context_object :=
  match img_b64 with
  | Raised e => (0, Raised e)
  | Returned img =>
      match api img with
      | Raised e => (0, Raised e)
      | Returned r => (1, parse_context r)
      end
  end.

(** The arguments of the final [logger.info]: the f-string evaluates
    [len(context.suites)] and [len(context.fixture_types_visible)]. *)
Definition log_summary (context : context_object) : outcome (nat * nat) :=
  n_suites ← len (o_suites context);
  n_types ← len (o_fixture_types_visible context);
  Returned (n_suites, n_types).

(** [extract_context] *)
Definition extract_context (img_b64 : outcome string)
    (api : string -> outcome response) (elapsed : Q)
    : outcome (context_object * PhaseResult) :=
  let '(calls, body) := try_block img_b64 api in
  let '(context, meta, err) :=
    match body with
    | Returned context => (context, MetaContext (JObj [("context", to_dict context)]), None)
    | Raised e => (default_context, MetaEmpty, Some (exn_msg e))
    end in
  let phase := {| phase := 1; phase_detections := []; phase_vlm_calls := calls;
                  duration_s := elapsed; phase_metadata := meta; error := err |} in
  _ ← log_summary context;
  Returned (context, phase).
End Extract.

End Context.

(** ** Phase 3: the read-only tools ([pipeline/agent.py]) *)

Module AgentTools.
Import Agent.

(** The dict returned by [_tool_get_state], one field per key. *)
Record StateSummary := {
  total_detections : nat;
  by_label : list (string * nat);
  by_room : list (string * nat);
  by_confidence : list (string * nat);
  boundary_flags : nat;
  vlm_calls_used : Z;
  vlm_calls_remaining : Z
}.

(** [_tool_get_state] *)
Definition _tool_get_state (cfg : PipelineConfig) (self : state) : StateSummary :=
  let by_label := Py.Counter (map label (detections self)) in
  let by_room :=
    Py.Counter (map (fun d => Str.or_else (room d) "unknown") (detections self)) in
  let by_conf := Py.Counter (map confidence (detections self)) in
  let boundary := length (List.filter on_boundary (detections self)) in
  {| total_detections := length (detections self);
     by_label := Py.sorted Py.item_ltb by_label;
     by_room := Py.sorted Py.item_ltb by_room;
     by_confidence := by_conf;
     boundary_flags := boundary;
     vlm_calls_used := vlm_calls self;
     vlm_calls_remaining := max_vlm_calls_phase3 cfg - vlm_calls self |}.

(** The dict returned by [_validate_corridor]; its keys [by_label] and
    [by_confidence] are the fields [corridor_by_label] and
    [corridor_by_confidence]. *)
Record CorridorReport := {
  total_corridor_fixtures : nat;
  by_circuit : list (string * nat);
  corridor_by_label : list (string * nat);
  corridor_by_confidence : list (string * nat)
}.

(** The test of [corridor_dets]: the lowered room, empty when the room is
    [None], holds the text [corridor]. *)
Definition in_corridor (d : Detection) : bool :=
  Str.contains "corridor" (Str.lower (Str.or_else (room d) EmptyString)).

(** [d.circuit for d in corridor_dets if d.circuit] *)
Definition circuits_of (corridor_dets : list Detection) : list string :=
  omap (fun d => match circuit d with
                 | Some c => if String.eqb c EmptyString then None else Some c
                 | None => None
                 end) corridor_dets.

(** [_validate_corridor] *)
Definition _validate_corridor (self : state) : CorridorReport :=
  let corridor_dets := List.filter in_corridor (detections self) in
  let circuits := Py.Counter (circuits_of corridor_dets) in
  {| total_corridor_fixtures := length corridor_dets;
     by_circuit := circuits;
     corridor_by_label := Py.Counter (map label corridor_dets);
     corridor_by_confidence := Py.Counter (map confidence corridor_dets) |}.

(** The dict returned by [_validate_suite_kitchen] when the context names
    suites; the key [suites] is the field [kitchen_suites]. *)
Record KitchenReport := {
  total_suites : nat;
  kitchen_suites : list string;
  variants_found : list (string * list string);
  missing : list (string * list string);
  suites_with_no_detections : list string;
  recommendation : string
}.

Inductive kitchen_result :=
| NoSuiteData                      (* [{"status": "no_suite_data", ...}] *)
| KitchenChecked (r : KitchenReport).

(** [d.label[len(prefix):].lstrip("0123456789") or "base"] *)
Definition kitchen_variant (prefix : string) (d : Detection) : string :=
  let v := Str.lstrip_by Str.isdigit (Str.drop (String.length prefix) (label d)) in
  if String.eqb v EmptyString then "base" else v.

(** [suites_with[variant].add(sn)], with a new set for a new variant; the
    dict keeps its keys in insertion order. *)
Fixpoint add_suite (variant sn : string) (suites_with : list (string * gset string))
    : list (string * gset string) :=
  match suites_with with
  | [] => [(variant, {[ sn ]})]
  | (v, found_in) :: rest =>
      if String.eqb variant v then (v, {[ sn ]} ∪ found_in) :: rest
      else (v, found_in) :: add_suite variant sn rest
  end.

(** The test of the inner loop. *)
Definition room_names_suite (room sn : string) : bool :=
  Str.contains (Str.lower sn) room || Str.contains (Str.lower ("suite " +:+ sn)) room.

(** The body of [for d in self.detections: ... for sn in suite_numbers: ...],
    with the set visited in the order [order]. *)
Definition mark_suites (prefix : string) (order : list string)
    (suites_with : list (string * gset string)) (d : Detection)
    : list (string * gset string) :=
  let room := Str.lower (Str.or_else (room d) EmptyString) in
  foldl (fun acc sn =>
           if room_names_suite room sn
           then add_suite (kitchen_variant prefix d) sn acc else acc)
        suites_with order.

(** [{s.get("number") for s in suites if s.get("number")}] *)
Definition numbers_of (suites : list Suite) : gset string :=
  list_to_set (omap (fun s => match number s with
                              | Some n => if String.eqb n EmptyString then None else Some n
                              | None => None
                              end) suites).

Section SetOrder.
(** The order in which the interpreter iterates over a set of strings. *)
Variable set_order : gset string -> list string.

(** [sorted(s)] for a set of strings *)
Definition sorted_set (s : gset string) : list string :=
  Py.sorted String.ltb (set_order s).

(** The loop that fills [missing]. *)
Definition missing_of (suite_numbers : gset string)
    (suites_with : list (string * gset string)) : list (string * list string) :=
  omap (fun '(variant, found_in) =>
          let not_found := suite_numbers ∖ found_in in
          if bool_decide (not_found = ∅) then None
          else Some (variant, sorted_set not_found)) suites_with.

(** The union of the lists in [missing.values()]. *)
Definition union_of (lists : list (list string)) : gset string :=
  foldl (fun acc l => acc ∪ list_to_set l) ∅ lists.

(** [_validate_suite_kitchen] *)
Definition _validate_suite_kitchen (cfg : PipelineConfig)
    (context : option DrawingContext) (self : state) : kitchen_result :=
  let suites := match context with Some c => suites c | None => [] end in
  match suites with
  | [] => NoSuiteData
  | _ =>
      let suite_numbers := numbers_of suites in
      let prefix := label_prefix cfg in
      let suites_with :=
        foldl (mark_suites prefix (set_order suite_numbers)) [] (detections self) in
      let missing := missing_of suite_numbers suites_with in
      let all_detected_suites :=
        foldl (fun acc s => acc ∪ s) ∅ (map snd suites_with) in
      let no_detections := suite_numbers ∖ all_detected_suites in
      KitchenChecked
        {| total_suites := size suite_numbers;
           kitchen_suites := sorted_set suite_numbers;
           variants_found :=
             map (fun '(k, v) => (k, sorted_set v)) suites_with;
           missing := missing;
           suites_with_no_detections := sorted_set no_detections;
           recommendation :=
             if negb (bool_decide (no_detections = ∅))
                || negb (bool_decide (missing = []))
             then "Re-inspect kitchens in suites: "
                  +:+ Str.join ", "
                        (sorted_set
                           (if bool_decide (missing = []) then no_detections
                            else no_detections ∪ union_of (map snd missing)))
             else "All suites accounted for" |}
  end.

(** The dict returned by [_tool_validate_pattern]: a key is [None] when the
    check was not asked for. *)
Record PatternResults := {
  suite_kitchen : option kitchen_result;
  corridor : option CorridorReport
}.

(** [_tool_validate_pattern] *)
Definition _tool_validate_pattern (cfg : PipelineConfig)
    (context : option DrawingContext) (self : state) (params : tool_input)
    : PatternResults :=
  let pattern := default "all" (pattern_type params) in
  {| suite_kitchen :=
       if String.eqb pattern "suite_kitchen" || String.eqb pattern "all"
       then Some (_validate_suite_kitchen cfg context self) else None;
     corridor :=
       if String.eqb pattern "corridor" || String.eqb pattern "all"
       then Some (_validate_corridor self) else None |}.
End SetOrder.

End AgentTools.

(** ** Image size sent to the vision model ([pipeline/rasterize.py]) *)

Module Encode.


End Encode.

(** ** Reports for the writers ([pipeline/reconcile_compat.py],
       [pipeline/output.py]) *)

Module Output.

(** The columns of a [SheetResult] row that the report reads; a column is
    [None] when it is null. *)
Record SheetResult := {
  sheet_final_counts : option (gmap string nat);
  sheet_total : option Z;
  sheet_pattern_warnings : option (list string)
}.

Record ReconciliationReport := {
  final_counts : gmap string nat;
  total : Z;
  pass1_counts : gmap string nat;
  pass1_total : Z;
  boundary_additions : list string;
  boundary_removals : list string;
  warnings : list string
}.

(** [to_compat_report] *)
Definition to_compat_report (sheet : SheetResult) : ReconciliationReport :=
  {| final_counts := default ∅ (sheet_final_counts sheet);
     total := default 0 (sheet_total sheet);
     pass1_counts := default ∅ (sheet_final_counts sheet);
     pass1_total := default 0 (sheet_total sheet);
     boundary_additions := [];
     boundary_removals := [];
     warnings := default [] (sheet_pattern_warnings sheet) |}.

(** A value written to a CSV cell. *)
Inductive cell :=
| CStr (s : string)
| CInt (n : Z).

(** [write_csv]: the rows handed to the CSV writer, in order. *)
Definition write_csv (report : ReconciliationReport) : list (list cell) :=
  [CStr "LT Type"; CStr "Final Count"; CStr "Pass 1 Raw"; CStr "Delta"]
  :: map (fun '(lt, count) =>
            let raw := default 0%nat (pass1_counts report !! lt) in
            [CStr lt; CInt (Z.of_nat count); CInt (Z.of_nat raw);
             CInt (Z.of_nat count - Z.of_nat raw)])
         (Py.sorted Py.item_ltb (map_to_list (final_counts report)))
  ++ [[CStr "TOTAL"; CInt (total report); CInt (pass1_total report);
       CInt (total report - pass1_total report)]].

End Output.

(** * Properties *)

(** ** Ranges *)

Lemma In_range n i : In i (range n) <-> 0 <= i < n.
Proof.
  unfold range. rewrite in_map_iff. split.
  - intros (k & <- & Hk). apply in_seq in Hk. lia.
  - intros Hi. exists (Z.to_nat i). split; [lia|]. apply in_seq. lia.
Qed.

Lemma length_range n : length (range n) = Z.to_nat n.
Proof. unfold range. now rewrite length_map, length_seq. Qed.

Lemma NoDup_range n : List.NoDup (range n).
Proof.
  unfold range. apply Finite.Injective_map_NoDup.
  - intros a b Hab. lia.
  - apply seq_NoDup.
Qed.

(** ** Grid decomposition *)

Module GridFacts.
Import Grid.

Lemma in_cellb_spec c x y : in_cellb c x y = true <-> in_cell c x y.
Proof.
  unfold in_cellb, in_cell.
  rewrite !andb_true_iff, !Z.leb_le, !Z.ltb_lt. tauto.
Qed.

(** With non-zero grid dimensions [decompose] returns, and the grid it
    returns is the row-major list of [cell_at]. *)
Lemma decompose_returns W H cfg :
  coarse_grid_cols cfg <> 0 -> coarse_grid_rows cfg <> 0 ->
  exists g, decompose W H cfg = Returned g
    /\ cell_width g = W / coarse_grid_cols cfg
    /\ cell_height g = H / coarse_grid_rows cfg
    /\ cells g =
         flat_map (fun r => map (cell_at (work_dir cfg +:+ "/cells") W H
                                   (W / coarse_grid_cols cfg) (H / coarse_grid_rows cfg) r)
                                (range (coarse_grid_cols cfg)))
                  (range (coarse_grid_rows cfg)).
Proof.
  intros Hc Hr. unfold decompose, floordiv.
  destruct (Z.eqb_spec (coarse_grid_cols cfg) 0) as [|_]; [contradiction|].
  destruct (Z.eqb_spec (coarse_grid_rows cfg) 0) as [|_]; [contradiction|].
  cbn. eexists. repeat split.
Qed.

(** A zero grid dimension makes the floor division raise. *)
Lemma decompose_zero_cols W H cfg :
  coarse_grid_cols cfg = 0 -> exists e, decompose W H cfg = Raised e.
Proof.
  intros Hc. unfold decompose, floordiv. rewrite Hc. cbn. eauto.
Qed.

Lemma length_flat_map_const {A B} (f : A -> list B) (l : list A) (n : nat) :
  (forall a, length (f a) = n) -> length (flat_map f l) = (length l * n)%nat.
Proof.
  intros Hf. induction l as [|a l IH]; cbn; [reflexivity|].
  rewrite length_app, Hf, IH. lia.
Qed.

(** [len(cells) == cols * rows] *)
Lemma decompose_length W H cfg g :
  decompose W H cfg = Returned g ->
  1 <= coarse_grid_cols cfg -> 1 <= coarse_grid_rows cfg ->
  Z.of_nat (length (cells g)) = coarse_grid_cols cfg * coarse_grid_rows cfg.
Proof.
  intros Hg Hc Hr.
  destruct (decompose_returns W H cfg) as (g' & Hg' & _ & _ & Hcells); [lia..|].
  rewrite Hg in Hg'. injection Hg' as <-. rewrite Hcells.
  rewrite (length_flat_map_const _ _ (Z.to_nat (coarse_grid_cols cfg))).
  - rewrite length_range. lia.
  - intros r. now rewrite length_map, length_range.
Qed.

(** The cells of a grid: one [cell_at] per [(r, c)] of the two ranges. *)
Lemma In_cells W H cfg g cell :
  decompose W H cfg = Returned g ->
  In cell (cells g) <->
  exists r c, 0 <= r < coarse_grid_rows cfg /\ 0 <= c < coarse_grid_cols cfg
    /\ cell = cell_at (work_dir cfg +:+ "/cells") W H (cell_width g) (cell_height g) r c.
Proof.
  intros Hg.
  assert (Hc : coarse_grid_cols cfg <> 0).
  { intros E. destruct (decompose_zero_cols W H cfg E) as [e He]. congruence. }
  assert (Hr : coarse_grid_rows cfg <> 0).
  { intros E. unfold decompose, floordiv in Hg. rewrite E in Hg.
    destruct (coarse_grid_cols cfg =? 0); cbn in Hg; discriminate. }
  destruct (decompose_returns W H cfg Hc Hr) as (g' & Hg' & Hw & Hh & Hcells).
  rewrite Hg in Hg'. injection Hg' as <-. rewrite Hcells, Hw, Hh.
  rewrite in_flat_map. split.
  - intros (r & Hr' & Hin). apply in_map_iff in Hin as (c & <- & Hc').
    apply In_range in Hr', Hc'. eauto 6.
  - intros (r & c & Hr' & Hc' & ->). exists r. split; [now apply In_range|].
    apply in_map_iff. exists c. split; [reflexivity|now apply In_range].
Qed.

(** No two cells at different grid positions share a pixel. *)
Lemma cells_disjoint W H cfg g c1 c2 px py :
  decompose W H cfg = Returned g ->
  In c1 (cells g) -> In c2 (cells g) ->
  (row c1, col c1) <> (row c2, col c2) ->
  ~ (in_cell c1 px py /\ in_cell c2 px py).
Proof.
  intros Hg H1 H2 Hne [I1 I2].
  apply (In_cells W H cfg g c1 Hg) in H1 as (r1 & k1 & Hr1 & Hk1 & ->).
  apply (In_cells W H cfg g c2 Hg) in H2 as (r2 & k2 & Hr2 & Hk2 & ->).
  unfold in_cell, cell_at in *. cbn in *.
  assert (r1 = r2) by nia. assert (k1 = k2) by nia. subst. now apply Hne.
Qed.

(** The clamp [min(x0 + cw, W)] never changes a bound: the grid covers
    exactly the first [cols * cw] columns and [rows * ch] rows. *)
Lemma cells_cover W H cfg g px py :
  decompose W H cfg = Returned g ->
  0 <= W -> 0 <= H ->
  1 <= coarse_grid_cols cfg -> 1 <= coarse_grid_rows cfg ->
  (exists c, In c (cells g) /\ in_cell c px py) <->
  0 <= px < coarse_grid_cols cfg * (W / coarse_grid_cols cfg) /\
  0 <= py < coarse_grid_rows cfg * (H / coarse_grid_rows cfg).
Proof.
  intros Hg HW HH Hc Hr.
  destruct (decompose_returns W H cfg) as (g' & Hg' & Hw & Hh & _); [lia..|].
  rewrite Hg in Hg'. injection Hg' as <-.
  set (cols := coarse_grid_cols cfg) in *. set (rows := coarse_grid_rows cfg) in *.
  assert (Hcw : 0 <= W / cols) by (apply Z.div_pos; lia).
  assert (Hch : 0 <= H / rows) by (apply Z.div_pos; lia).
  assert (HcW : cols * (W / cols) <= W) by (apply Z.mul_div_le; lia).
  assert (HrH : rows * (H / rows) <= H) by (apply Z.mul_div_le; lia).
  split.
  - intros (c & Hin & Hp).
    apply (In_cells W H cfg g c Hg) in Hin as (r & k & Hr' & Hk' & ->).
    unfold in_cell, cell_at in Hp. cbn in Hp. rewrite Hw, Hh in Hp.
    fold cols in Hk'. fold rows in Hr'. nia.
  - intros [Hx Hy].
    assert (Hcw' : 0 < W / cols) by nia. assert (Hch' : 0 < H / rows) by nia.
    exists (cell_at (work_dir cfg +:+ "/cells") W H (cell_width g) (cell_height g)
              (py / (H / rows)) (px / (W / cols))).
    assert (Hk : 0 <= px / (W / cols) < cols).
    { split; [apply Z.div_pos; lia|]. apply Z.div_lt_upper_bound; lia. }
    assert (Hr' : 0 <= py / (H / rows) < rows).
    { split; [apply Z.div_pos; lia|]. apply Z.div_lt_upper_bound; lia. }
    split.
    + apply (In_cells W H cfg g _ Hg). eauto 6.
    + unfold in_cell, cell_at. cbn. rewrite Hw, Hh. fold cols rows.
      pose proof (Z.mul_div_le px (W / cols) Hcw').
      pose proof (Z.mul_succ_div_gt px (W / cols) Hcw').
      pose proof (Z.mul_div_le py (H / rows) Hch').
      pose proof (Z.mul_succ_div_gt py (H / rows) Hch').
      nia.
Qed.

(** When the grid dimensions divide the image size the cells cover the
    image exactly. *)
Lemma cells_cover_exact W H cfg g px py :
  decompose W H cfg = Returned g ->
  0 <= W -> 0 <= H ->
  1 <= coarse_grid_cols cfg -> 1 <= coarse_grid_rows cfg ->
  W mod coarse_grid_cols cfg = 0 -> H mod coarse_grid_rows cfg = 0 ->
  (exists c, In c (cells g) /\ in_cell c px py) <-> 0 <= px < W /\ 0 <= py < H.
Proof.
  intros Hg HW HH Hc Hr HmW HmH.
  rewrite (cells_cover W H cfg g px py Hg HW HH Hc Hr).
  pose proof (Z.div_mod W (coarse_grid_cols cfg) ltac:(lia)).
  pose proof (Z.div_mod H (coarse_grid_rows cfg) ltac:(lia)).
  lia.
Qed.

(** Otherwise the last [W mod cols] columns of the image lie in no cell. *)
Lemma cells_miss_remainder W H cfg g c px py :
  decompose W H cfg = Returned g ->
  0 <= W -> 0 <= H ->
  1 <= coarse_grid_cols cfg -> 1 <= coarse_grid_rows cfg ->
  W - W mod coarse_grid_cols cfg <= px < W ->
  In c (cells g) -> ~ in_cell c px py.
Proof.
  intros Hg HW HH Hc Hr Hpx Hin Hcell.
  assert (Hcov : exists c, In c (cells g) /\ in_cell c px py) by eauto.
  apply (cells_cover W H cfg g px py Hg HW HH Hc Hr) in Hcov.
  pose proof (Z.div_mod W (coarse_grid_cols cfg) ltac:(lia)). lia.
Qed.

Lemma NoDup_pairs (rs cs : list Z) :
  List.NoDup rs -> List.NoDup cs ->
  List.NoDup (flat_map (fun r => map (pair r) cs) rs).
Proof.
  intros Hrs Hcs. induction Hrs as [|r rs Hr _ IH]; cbn; [constructor|].
  apply List.NoDup_app.
  - apply Finite.Injective_map_NoDup; [|assumption]. intros a b E. congruence.
  - exact IH.
  - intros [r' c'] H1 H2. apply in_map_iff in H1 as (c0 & E & _). injection E as <- <-.
    apply in_flat_map in H2 as (r2 & Hr2 & H2).
    apply in_map_iff in H2 as (c2 & E & _). injection E as -> _. contradiction.
Qed.

(** The grid positions [(row, col)] of the cells are pairwise different. *)
Lemma cells_positions_NoDup W H cfg g :
  decompose W H cfg = Returned g ->
  List.NoDup (map (fun c => (row c, col c)) (cells g)).
Proof.
  intros Hg.
  assert (Hc : coarse_grid_cols cfg <> 0).
  { intros E. destruct (decompose_zero_cols W H cfg E) as [e He]. congruence. }
  assert (Hr : coarse_grid_rows cfg <> 0).
  { intros E. unfold decompose, floordiv in Hg. rewrite E in Hg.
    destruct (coarse_grid_cols cfg =? 0); cbn in Hg; discriminate. }
  destruct (decompose_returns W H cfg Hc Hr) as (g' & Hg' & _ & _ & Hcells).
  rewrite Hg in Hg'. injection Hg' as <-. rewrite Hcells.
  rewrite List.flat_map_concat_map, List.concat_map, List.map_map.
  rewrite <- List.flat_map_concat_map.
  erewrite List.flat_map_ext; [apply NoDup_pairs; apply NoDup_range|].
  intros r. rewrite List.map_map. reflexivity.
Qed.

(** Cells at different positions of the list share no pixel. *)
Lemma cells_pairwise_disjoint W H cfg g i j c1 c2 px py :
  decompose W H cfg = Returned g ->
  i <> j -> nth_error (cells g) i = Some c1 -> nth_error (cells g) j = Some c2 ->
  ~ (in_cell c1 px py /\ in_cell c2 px py).
Proof.
  intros Hg Hij H1 H2.
  apply (cells_disjoint W H cfg g c1 c2 px py Hg).
  - eapply nth_error_In; eassumption.
  - eapply nth_error_In; eassumption.
  - intros E. apply Hij.
    pose proof (cells_positions_NoDup W H cfg g Hg) as Hnd.
    rewrite List.NoDup_nth_error in Hnd. apply Hnd.
    + rewrite length_map. apply nth_error_Some. congruence.
    + rewrite !nth_error_map, H1, H2. cbn. now rewrite E.
Qed.

(** The default values of [PipelineConfig]. *)
Definition default_cfg : PipelineConfig :=
  {| coarse_dpi := 150; coarse_grid_cols := 4; coarse_grid_rows := 3;
     refine_dpi := 216; max_agent_iterations := 20; max_vlm_calls_phase3 := 15;
     dedup_radius_px := 50; label_pattern := Re.default_label_pattern;
     label_prefix := "LT"; work_dir := "work" |}.

(** C2. On a 1275 x 1650 image (a letter page at 150 DPI) and the default
    4 x 3 grid the decomposer returns twelve cells of 318 x 550 pixels: the
    clamp to the image edge changes no bound, and the pixel (1274, 0) of the
    image lies in no cell, so the cells do not cover the image. *)
Theorem decompose_leaves_gap :
  exists g, decompose 1275 1650 default_cfg = Returned g
    /\ length (cells g) = 12%nat
    /\ Forall (fun c => x1 c = x0 c + 318 /\ y1 c = y0 c + 550) (cells g)
    /\ (0 <= 1274 < 1275 /\ 0 <= 0 < 1650)
    /\ forall c, In c (cells g) -> ~ in_cell c 1274 0.
Proof.
  pose (g0 := {| cells := flat_map (fun r => map (cell_at "work/cells" 1275 1650 318 550 r)
                                               (range 4))
                                  (range 3);
                 plan_width := 1275; plan_height := 1650;
                 cell_width := 318; cell_height := 550;
                 cols := 4; rows := 3 |}).
  exists g0. split; [reflexivity|]. split; [reflexivity|]. split.
  - subst g0. vm_compute. repeat constructor.
  - split; [lia|]. intros c Hin. rewrite <- in_cellb_spec.
    assert (Hall : Forall (fun c => in_cellb c 1274 0 = false) (cells g0)).
    { subst g0. vm_compute. repeat constructor. }
    rewrite List.Forall_forall in Hall. rewrite (Hall c Hin). discriminate.
Qed.

End GridFacts.

(** ** [re_match] against the words of a pattern *)

Module ReFacts.
Import Re.







(** The default pattern accepts a label with trailing text: only the start
    of the label is matched. *)
Example default_pattern_prefix :
  re_match default_label_pattern "LT04A" = true
  /\ re_match default_label_pattern "LT04AXYZ" = true
  /\ re_match default_label_pattern "FS22" = false
  /\ re_match default_label_pattern "LT4" = false
  /\ re_match default_label_pattern "XLT04" = false.
Proof. repeat split. Qed.

End ReFacts.

(** ** Label filtering in the Phase 2 and Phase 3 conversions *)

Module VlmFacts.
Import Vlm.

Definition label_ok (cfg : PipelineConfig) (l : string) : bool :=
  Re.re_match (label_pattern cfg) l.

Lemma cell_detection_label cfg cell d :
  match cell_detection cfg cell d with
  | Some det => label det = normalize_label d /\ label_ok cfg (normalize_label d) = true
  | None => label_ok cfg (normalize_label d) = false
  end.
Proof.
  unfold cell_detection, label_ok.
  destruct (Re.re_match (label_pattern cfg) (normalize_label d)); cbn; [|reflexivity].
  destruct (cell_position cell (r_position d)). cbn. split; reflexivity.
Qed.

Lemma crop_detection_label cfg size xp yp reason d :
  match Agent.crop_detection cfg size xp yp reason d with
  | Some det => label det = normalize_label d /\ label_ok cfg (normalize_label d) = true
  | None => label_ok cfg (normalize_label d) = false
  end.
Proof.
  unfold Agent.crop_detection, label_ok.
  destruct (Re.re_match (label_pattern cfg) (normalize_label d)); cbn; [|reflexivity].
  split; reflexivity.
Qed.

(** The labels that leave the Phase 2 conversion are the normalised labels
    that match the pattern, in the order of the reply. *)
Lemma convert_cell_labels cfg cell raws :
  map label (convert_cell cfg cell raws)
  = List.filter (label_ok cfg) (map normalize_label raws).
Proof.
  unfold convert_cell. induction raws as [|d raws IH]; [reflexivity|].
  cbn. pose proof (cell_detection_label cfg cell d) as Hd.
  destruct (cell_detection cfg cell d) as [det|].
  - destruct Hd as [Hl Hok]. rewrite Hok. cbn. now rewrite Hl, IH.
  - rewrite Hd. exact IH.
Qed.

Lemma convert_crop_labels cfg size xp yp reason raws :
  map label (Agent.convert_crop cfg size xp yp reason raws)
  = List.filter (label_ok cfg) (map normalize_label raws).
Proof.
  unfold Agent.convert_crop. induction raws as [|d raws IH]; [reflexivity|].
  cbn. pose proof (crop_detection_label cfg size xp yp reason d) as Hd.
  destruct (Agent.crop_detection cfg size xp yp reason d) as [det|].
  - destruct Hd as [Hl Hok]. rewrite Hok. cbn. now rewrite Hl, IH.
  - rewrite Hd. exact IH.
Qed.

Lemma labels_all_ok cfg (dets : list Detection) (ls : list string) :
  map label dets = List.filter (label_ok cfg) ls ->
  List.Forall (fun det => label_ok cfg (label det) = true) dets.
Proof.
  intros E. apply List.Forall_forall. intros det Hin.
  assert (Hl : In (label det) (map label dets)) by now apply in_map.
  rewrite E in Hl. now apply filter_In in Hl.
Qed.

(** Every detection returned by [inspect_cell] carries a matching label. *)
Lemma inspect_cell_labels cfg cell api dets :
  inspect_cell cfg cell api = Returned dets ->
  List.Forall (fun det => label_ok cfg (label det) = true) dets.
Proof.
  unfold inspect_cell. destruct (call_with_retry 4 0 api) as [[raws|]|e]; cbn;
    intros E; try discriminate; injection E as <-.
  - eapply labels_all_ok, convert_cell_labels.
  - constructor.
Qed.

(** Every detection returned by the [crop_and_inspect] tool carries a
    matching label. *)
Lemma crop_and_inspect_labels cfg size vision self params self' dets :
  Agent._tool_crop_and_inspect cfg size vision self params = Returned (self', dets) ->
  List.Forall (fun det => label_ok cfg (label det) = true) dets.
Proof.
  unfold Agent._tool_crop_and_inspect.
  destruct (inspect_crop _) as [raws|e]; cbn; intros E; [|discriminate].
  injection E as _ <-. eapply labels_all_ok, convert_crop_labels.
Qed.

Definition raw_of_label (l : string) : raw_det :=
  {| r_label := Some l; r_circuit := None; r_room := None;
     r_position := PosAbsent; r_confidence := None;
     r_on_boundary := None; r_notes := None |}.

(** C7. In the Phase 2 conversion ([convert_cell], the loop of
    [inspect_cell]) and in the Phase 3 conversion ([convert_crop], the loop
    of [_tool_crop_and_inspect]) the labels of the output are exactly the
    upper-cased, stripped labels of the reply that [re.match] accepts for
    the configured pattern, so a raw detection whose normalised label does
    not match is excluded. With the pattern [LT\d{2,3}[A-Z]?], the raw label
    FS22 is dropped and the raw label lt04a is kept with label LT04A. *)
Theorem label_filtering (cfg : PipelineConfig) (cell : Grid.CellInfo)
    (size : Z -> Z * Z) (xp yp : Q) (reason : string) (raws : list raw_det) :
  (map label (convert_cell cfg cell raws)
     = List.filter (label_ok cfg) (map normalize_label raws)
   /\ map label (Agent.convert_crop cfg size xp yp reason raws)
     = List.filter (label_ok cfg) (map normalize_label raws))
  /\ (forall d, In d raws -> label_ok cfg (normalize_label d) = false ->
        ~ In (normalize_label d) (map label (convert_cell cfg cell raws))
        /\ ~ In (normalize_label d) (map label (Agent.convert_crop cfg size xp yp reason raws)))
  /\ (label_pattern cfg = Re.default_label_pattern ->
        convert_cell cfg cell [raw_of_label "FS22"] = []
        /\ Agent.convert_crop cfg size xp yp reason [raw_of_label "FS22"] = []
        /\ map label (convert_cell cfg cell [raw_of_label "lt04a"]) = ["LT04A"]
        /\ map label (Agent.convert_crop cfg size xp yp reason [raw_of_label "lt04a"])
           = ["LT04A"]).
Proof.
  split; [split; [apply convert_cell_labels|apply convert_crop_labels]|]. split.
  - intros d _ Hbad. rewrite convert_cell_labels, convert_crop_labels.
    split; intros Hin; apply filter_In in Hin as [_ Hok]; congruence.
  - intros Hpat.
    assert (Hfs : label_ok cfg (normalize_label (raw_of_label "FS22")) = false).
    { unfold label_ok. rewrite Hpat. reflexivity. }
    assert (Hlt : label_ok cfg (normalize_label (raw_of_label "lt04a")) = true).
    { unfold label_ok. rewrite Hpat. reflexivity. }
    assert (Hn : normalize_label (raw_of_label "lt04a") = "LT04A") by reflexivity.
    repeat split.
    + pose proof (cell_detection_label cfg cell (raw_of_label "FS22")) as H.
      unfold convert_cell. cbn.
      destruct (cell_detection cfg cell (raw_of_label "FS22")); [|reflexivity].
      destruct H as [_ H]. congruence.
    + pose proof (crop_detection_label cfg size xp yp reason (raw_of_label "FS22")) as H.
      unfold Agent.convert_crop. cbn.
      destruct (Agent.crop_detection cfg size xp yp reason (raw_of_label "FS22"));
        [|reflexivity].
      destruct H as [_ H]. congruence.
    + rewrite convert_cell_labels. cbn [map List.filter]. rewrite Hlt, Hn. reflexivity.
    + rewrite convert_crop_labels. cbn [map List.filter]. rewrite Hlt, Hn. reflexivity.
Qed.

Definition demo_cell : Grid.CellInfo :=
  {| Grid.row := 0; Grid.col := 0; Grid.path := "work/cells/r0_c0.png";
     Grid.x0 := 0; Grid.y0 := 0; Grid.x1 := 100; Grid.y1 := 100 |}.

Lemma label_filtering_witness :
  (~ In "FS22" (map label (convert_cell GridFacts.default_cfg demo_cell
                             [raw_of_label "FS22"; raw_of_label "lt04a"])))
  /\ convert_cell GridFacts.default_cfg demo_cell [raw_of_label "FS22"] = []
  /\ map label (convert_cell GridFacts.default_cfg demo_cell [raw_of_label "lt04a"]) = ["LT04A"].
Proof.
  destruct (label_filtering GridFacts.default_cfg demo_cell (fun _ => (1000, 800)) 50%Q 50%Q
              "check" [raw_of_label "FS22"; raw_of_label "lt04a"]) as (_ & Hdrop & H).
  destruct (H eq_refl) as (H1 & _ & H3 & _).
  destruct (Hdrop (raw_of_label "FS22")) as [Hd _]; [left; reflexivity|reflexivity|].
  split; [exact Hd|]. split; assumption.
Defined.

End VlmFacts.

(** ** The crop of the [crop_and_inspect] tool *)

Module CropFacts.








End CropFacts.

(** ** The call budget of the Phase 3 loop *)

Module AgentFacts.
Import Agent.

(** The number of [crop_and_inspect] calls among the tool calls of a turn. *)
Definition crops_in (tool_uses : list (string * tool_input)) : Z :=
  Z.of_nat (length (List.filter (fun tu => String.eqb tu.1 "crop_and_inspect") tool_uses)).

Definition final_state (r : Agent.loop_end) : state :=
  match r with
  | LoopDone self _ _ => self
  | LoopFinalized self _ _ => self
  | LoopRaised self _ => self
  end.

Definition turn_state (r : Agent.turn_end) : state :=
  match r with
  | TurnDone self _ => self
  | TurnFinalized self _ _ => self
  | TurnRaised self _ => self
  end.

Section Budget.
Variable cfg : PipelineConfig.
Variable render_size : Z -> Z * Z.
Variable model : Z -> outcome response.
Variable vision : Z -> Z * Z * Z * Z -> nat -> api_reply.

Lemma execute_tool_calls self name input self' dets :
  _execute_tool cfg render_size vision self name input = Returned (self', dets) ->
  vlm_calls self' =
    vlm_calls self + (if String.eqb name "crop_and_inspect" then 1 else 0).
Proof.
  unfold _execute_tool.
  destruct (String.eqb name "crop_and_inspect").
  - unfold _tool_crop_and_inspect.
    destruct (Vlm.inspect_crop _) as [raws|e]; cbn; intros E; [|discriminate].
    injection E as <- _. reflexivity.
  - destruct (String.eqb name "validate_pattern");
      [|destruct (String.eqb name "get_current_state")];
      intros E; injection E as <- _; lia.
Qed.

(** The tool calls of one turn run without a look at the budget: the
    counter grows by at most the number of [crop_and_inspect] calls. *)
Lemma exec_tools_calls iteration tool_uses self new_detections :
  vlm_calls self
  <= vlm_calls (turn_state (exec_tools cfg render_size vision iteration tool_uses
                              self new_detections))
  <= vlm_calls self + crops_in tool_uses.
Proof.
  revert self new_detections.
  induction tool_uses as [|[name input] rest IH]; intros self nd.
  - cbn. unfold crops_in. cbn. lia.
  - cbn [exec_tools]. unfold crops_in in *. cbn [List.filter fst].
    destruct (String.eqb name "finalize") eqn:Hfin.
    + cbn. destruct (String.eqb name "crop_and_inspect"); cbn [length]; lia.
    + destruct (_execute_tool _ _ _ _ _ _) as [[self' dets]|e] eqn:Hex.
      * apply execute_tool_calls in Hex. cbn in Hex.
        specialize (IH (extend dets self') (nd ++ dets)%list). cbn in IH.
        destruct (String.eqb name "crop_and_inspect"); cbn [length]; lia.
      * cbn. destruct (String.eqb name "crop_and_inspect"); cbn [length]; lia.
Qed.

(** When no response packs more than [K] [crop_and_inspect] calls, the
    loop ends with at most [N - 1 + K] counted calls (or with the count it
    started from, if that was larger). *)
Lemma loop_calls (K : Z) iterations self new_detections :
  0 <= K ->
  (forall i r, model i = Returned r -> crops_in (tool_uses_of (content r)) <= K) ->
  vlm_calls (final_state (loop cfg render_size model vision iterations self new_detections))
  <= Z.max (vlm_calls self) (max_vlm_calls_phase3 cfg - 1 + K).
Proof.
  intros HK Hmodel. revert self new_detections.
  induction iterations as [|i rest IH]; intros self nd; cbn [loop].
  - cbn. lia.
  - destruct (Z.leb_spec (max_vlm_calls_phase3 cfg - vlm_calls self) 0) as [Hrem|Hrem].
    + cbn. lia.
    + destruct (model i) as [r|e] eqn:Hr; [|cbn; lia].
      specialize (Hmodel i r Hr).
      destruct (tool_uses_of (content r)) as [|tu tus] eqn:Htu.
      * destruct (String.eqb (stop_reason r) "end_turn"); [cbn; lia|].
        specialize (IH self nd). lia.
      * pose proof (exec_tools_calls i (tu :: tus) self nd) as Hturn.
        destruct (exec_tools cfg render_size vision i (tu :: tus) self nd)
          as [self' nd'|self' nd' s|self' e]; cbn in Hturn |- *; try lia.
        specialize (IH self' nd'). lia.
Qed.

(** The budget holds when the model asks for at most one
    [crop_and_inspect] per turn. *)
Lemma run_within_budget_single_crop_turns (elapsed : Q) coarse :
  (forall i r, model i = Returned r -> crops_in (tool_uses_of (content r)) <= 1) ->
  vlm_calls (run cfg render_size model vision elapsed (init coarse)).1
  <= Z.max 0 (max_vlm_calls_phase3 cfg).
Proof.
  intros Hmodel. unfold run.
  destruct (Z.leb_spec (max_vlm_calls_phase3 cfg) 0) as [Hn|Hn]; [cbn; lia|].
  pose proof (loop_calls 1 (range (max_agent_iterations cfg)) (init coarse) []
                ltac:(lia) Hmodel) as Hl.
  destruct (loop _ _ _ _ _ _ _) as [s nd err|s nd sm|s e]; cbn in Hl |- *; lia.
Qed.
End Budget.

(** A configuration with a budget of one call. *)
Definition budget_one : PipelineConfig :=
  {| coarse_dpi := 150; coarse_grid_cols := 4; coarse_grid_rows := 3;
     refine_dpi := 216; max_agent_iterations := 20; max_vlm_calls_phase3 := 1;
     dedup_radius_px := 50; label_pattern := Re.default_label_pattern;
     label_prefix := "LT"; work_dir := "work" |}.

Definition crop_call (id : string) (xp yp : Q) : block :=
  ToolUseBlock id "crop_and_inspect"
    {| x_pct := Some xp; y_pct := Some yp; width_pct := Some 25%Q;
       height_pct := Some 25%Q; reason := Some "boundary"; pattern_type := None;
       summary := None |}.

(** A model that packs three crops into its first turn and then stops. *)
Definition greedy_model (iteration : Z) : outcome response :=
  if iteration =? 0 then
    Returned {| content := [crop_call "t1" 25%Q 25%Q; crop_call "t2" 50%Q 50%Q;
                            crop_call "t3" 75%Q 75%Q];
                stop_reason := "tool_use" |}
  else Returned {| content := [TextBlock "done"]; stop_reason := "end_turn" |}.

Definition quiet_vision (k : Z) (box : Z * Z * Z * Z) (attempt : nat) : api_reply :=
  Reply [].

(** C1. With [max_vlm_calls_phase3 = 1], a first response that holds three
    [crop_and_inspect] tool calls has all three executed: [run] returns with
    [vlm_calls = 3] and three [crop_and_inspect] entries in the log. The
    budget is read once per turn, not once per tool call. *)
Theorem budget_exceeded_within_one_turn :
  let r := run budget_one (fun _ => (1000, 800)) greedy_model quiet_vision 0%Q (init []) in
  max_vlm_calls_phase3 budget_one = 1
  /\ vlm_calls r.1 = 3
  /\ crop_executions r.1 = 3%nat
  /\ exists p, r.2 = Returned p /\ phase_vlm_calls p = 3 /\ error p = None.
Proof.
  cbv zeta. split; [reflexivity|]. split; [reflexivity|]. split; [reflexivity|].
  eexists. split; [reflexivity|]. split; reflexivity.
Qed.

End AgentFacts.

(** ** Sorting *)

Module PyFacts.

Section SortedFacts.
Context {A : Type} (lt : A -> A -> bool).

(** [a] may stand before [b] in a sorted list: [b < a] does not hold. *)
Definition le (a b : A) : Prop := lt b a = false.

Lemma insert_perm x l : Permutation (Py.insert lt x l) (x :: l).
Proof.
  induction l as [|y l IH]; cbn; [reflexivity|].
  destruct (lt y x); [|reflexivity].
  rewrite IH. apply perm_swap.
Qed.

Lemma sorted_perm l : Permutation (Py.sorted lt l) l.
Proof.
  induction l as [|x l IH]; cbn; [reflexivity|].
  fold (Py.sorted lt l). rewrite insert_perm. now constructor.
Qed.

Lemma sorted_reverse_perm l : Permutation (Py.sorted_reverse lt l) l.
Proof.
  unfold Py.sorted_reverse.
  rewrite <- Permutation_rev, sorted_perm. symmetry. apply Permutation_rev.
Qed.

Hypothesis lt_asym : forall a b, lt a b = true -> lt b a = false.

Lemma insert_Sorted x l : Sorted le l -> Sorted le (Py.insert lt x l).
Proof.
  induction l as [|y l IH]; cbn; intros Hs.
  - repeat constructor.
  - destruct (lt y x) eqn:Hyx.
    + apply Sorted_inv in Hs as [Hs Hhd]. constructor; [now apply IH|].
      destruct l as [|z l]; cbn.
      * constructor. now apply lt_asym.
      * destruct (lt z x); constructor.
        -- now inversion Hhd.
        -- now apply lt_asym.
    + constructor; [assumption|]. constructor. exact Hyx.
Qed.

Lemma sorted_Sorted l : Sorted le (Py.sorted lt l).
Proof.
  induction l as [|x l IH]; cbn; [constructor|]. now apply insert_Sorted.
Qed.

Hypothesis le_trans : forall a b c, le a b -> le b c -> le a c.

Lemma sorted_StronglySorted l : StronglySorted le (Py.sorted lt l).
Proof.
  apply Sorted.Sorted_StronglySorted; [|apply sorted_Sorted].
  intros a b c. apply le_trans.
Qed.
End SortedFacts.

Lemma StronglySorted_rev {A} (R : A -> A -> Prop) l :
  StronglySorted R l -> StronglySorted (fun a b => R b a) (rev l).
Proof.
  induction 1 as [|a l Hs IH Hall]; cbn; [constructor|].
  apply StronglySorted_app. split; [|split; [exact IH|repeat constructor]].
  intros x1 x2 H1 H2. apply list_elem_of_In in H1, H2.
  destruct H2 as [<-|[]]. apply in_rev in H1.
  rewrite List.Forall_forall in Hall. now apply Hall.
Qed.

(** ** The order of strings *)

Lemma compare_as_OT s1 s2 :
  OrdersEx.String_as_OT.compare s1 s2 = String.compare s1 s2.
Proof.
  reflexivity.
Qed.

Lemma compare_lt_trans s1 s2 s3 :
  String.compare s1 s2 = Lt -> String.compare s2 s3 = Lt -> String.compare s1 s3 = Lt.
Proof.
  rewrite <- !compare_as_OT.
  apply (@StrictOrder_Transitive _ _ OrdersEx.String_as_OT.lt_strorder).
Qed.

Lemma compare_refl s : String.compare s s = Eq.
Proof.
  destruct (String.compare s s) eqn:E; [reflexivity| |].
  - pose proof (String.compare_antisym s s) as H. rewrite E in H. discriminate.
  - pose proof (String.compare_antisym s s) as H. rewrite E in H. discriminate.
Qed.

Lemma ltb_asym a b : String.ltb a b = true -> String.ltb b a = false.
Proof.
  unfold String.ltb. rewrite (String.compare_antisym a b).
  destruct (String.compare b a); cbn; congruence.
Qed.

(** [le String.ltb] is the usual non-strict order of strings. *)
Lemma str_le_cases a b : le String.ltb a b <-> a = b \/ String.compare a b = Lt.
Proof.
  unfold le, String.ltb. rewrite (String.compare_antisym b a).
  destruct (String.compare a b) eqn:E; cbn.
  - apply String.compare_eq_iff in E. intuition congruence.
  - intuition congruence.
  - split; [discriminate|]. intros [->|]; [|discriminate].
    rewrite compare_refl in E. discriminate.
Qed.

Lemma str_le_trans a b c :
  le String.ltb a b -> le String.ltb b c -> le String.ltb a c.
Proof.
  intros H1 H2. apply str_le_cases in H1, H2. apply str_le_cases.
  destruct H1 as [->|H1], H2 as [->|H2]; auto.
  right. eapply compare_lt_trans; eassumption.
Qed.

Lemma str_le_antisym a b : le String.ltb a b -> le String.ltb b a -> a = b.
Proof.
  intros H1 H2. apply str_le_cases in H1, H2.
  destruct H1 as [->|H1], H2 as [|H2]; auto.
  rewrite String.compare_antisym, H2 in H1. discriminate.
Qed.

(** Sorting a set of strings gives the same list whatever the order in
    which the set was enumerated. *)
Lemma sorted_strings_unique l1 l2 :
  Permutation l1 l2 -> Py.sorted String.ltb l1 = Py.sorted String.ltb l2.
Proof.
  intros Hp.
  apply (StronglySorted_unique_strong (le String.ltb)).
  - intros x1 x2 _ _. apply str_le_antisym.
  - apply sorted_StronglySorted; [exact ltb_asym|exact str_le_trans].
  - apply sorted_StronglySorted; [exact ltb_asym|exact str_le_trans].
  - now rewrite !sorted_perm.
Qed.

End PyFacts.

(** ** Counters *)

Module CounterFacts.
Import Py.

Lemma get_count_add k k' c :
  get_count k' (counter_add k c)
  = (get_count k' c + if String.eqb k' k then 1 else 0)%nat.
Proof.
  induction c as [|[k0 n] c IH]; cbn.
  - destruct (String.eqb k' k); reflexivity.
  - destruct (String.eqb_spec k k0) as [->|Hne]; cbn.
    + destruct (String.eqb k' k0); lia.
    + destruct (String.eqb_spec k' k0) as [->|Hne'].
      * destruct (String.eqb_spec k0 k); [congruence|lia].
      * exact IH.
Qed.

Lemma keys_add k c :
  map fst (counter_add k c)
  = if existsb (String.eqb k) (map fst c) then map fst c else (map fst c ++ [k])%list.
Proof.
  induction c as [|[k0 n] c IH]; cbn; [reflexivity|].
  destruct (String.eqb k k0); cbn; [reflexivity|].
  rewrite IH. destruct (existsb (String.eqb k) (map fst c)); reflexivity.
Qed.

Lemma NoDup_keys_add k c :
  List.NoDup (map fst c) -> List.NoDup (map fst (counter_add k c)).
Proof.
  intros Hnd. rewrite keys_add.
  destruct (existsb (String.eqb k) (map fst c)) eqn:E; [assumption|].
  apply NoDup_ListNoDup, NoDup_app. split; [now apply NoDup_ListNoDup|]. split.
  - intros x Hx Hk. apply list_elem_of_In in Hx, Hk. destruct Hk as [<-|[]].
    assert (existsb (String.eqb k) (map fst c) = true); [|congruence].
    apply existsb_exists. exists k. split; [assumption|apply String.eqb_refl].
  - apply NoDup_singleton.
Qed.

Lemma sum_values_add k c : sum_values (counter_add k c) = S (sum_values c).
Proof.
  unfold sum_values. induction c as [|[k0 n] c IH]; cbn; [reflexivity|].
  destruct (String.eqb k k0); cbn; [lia|]. rewrite IH. lia.
Qed.

(** The number of occurrences of [k] in [keys]. *)
Definition tally (k : string) (keys : list string) : nat :=
  length (List.filter (String.eqb k) keys).

#[local] Arguments sum_values : simpl never.

Lemma Counter_from c0 keys :
  let c := foldl (fun c k => counter_add k c) c0 keys in
  (forall k, get_count k c = (get_count k c0 + tally k keys)%nat)
  /\ (List.NoDup (map fst c0) -> List.NoDup (map fst c))
  /\ sum_values c = (sum_values c0 + length keys)%nat.
Proof.
  revert c0. induction keys as [|k keys IH]; intros c0; cbn.
  - unfold tally. cbn. repeat split; auto; lia.
  - destruct (IH (counter_add k c0)) as (Hget & Hnd & Hsum). repeat split.
    + intros k'. rewrite Hget, get_count_add. unfold tally. cbn.
      destruct (String.eqb k' k); cbn; lia.
    + intros H. now apply Hnd, NoDup_keys_add.
    + rewrite Hsum, sum_values_add. lia.
Qed.

Lemma Counter_spec keys :
  (forall k, get_count k (Counter keys) = tally k keys)
  /\ List.NoDup (map fst (Counter keys))
  /\ sum_values (Counter keys) = length keys.
Proof.
  destruct (Counter_from [] keys) as (Hget & Hnd & Hsum). repeat split.
  - intros k. now rewrite Hget.
  - apply Hnd. constructor.
  - exact Hsum.
Qed.

(** With distinct keys [get_count] reads the one item of the key. *)
Lemma get_count_In k n d :
  List.NoDup (map fst d) -> In (k, n) d -> get_count k d = n.
Proof.
  induction d as [|[k0 n0] d IH]; cbn; [intros _ []|].
  intros Hnd [E|Hin].
  - injection E as -> ->. now rewrite String.eqb_refl.
  - apply List.NoDup_cons_iff in Hnd as [Hk Hnd].
    destruct (String.eqb_spec k k0) as [->|_]; [|now apply IH].
    exfalso. apply Hk. change k0 with (fst (k0, n)). now apply in_map.
Qed.

Lemma get_count_absent k d : ~ In k (map fst d) -> get_count k d = 0%nat.
Proof.
  induction d as [|[k0 n0] d IH]; cbn; [reflexivity|]. intros H.
  destruct (String.eqb_spec k k0) as [->|_]; [exfalso; auto|]. apply IH. auto.
Qed.

Lemma In_key_item k (d : list (string * nat)) :
  In k (map fst d) -> exists n, In (k, n) d.
Proof.
  intros H. apply in_map_iff in H as ([k' n] & E & Hin). cbn in E. subst. eauto.
Qed.

Lemma get_count_perm k d1 d2 :
  Permutation d1 d2 -> List.NoDup (map fst d1) -> get_count k d1 = get_count k d2.
Proof.
  intros Hp Hnd.
  assert (Hnd2 : List.NoDup (map fst d2)).
  { eapply Permutation_NoDup; [|exact Hnd]. now apply Permutation_map. }
  destruct (in_dec string_dec k (map fst d1)) as [Hin|Hout].
  - destruct (In_key_item k d1 Hin) as [n Hn].
    rewrite (get_count_In k n d1 Hnd Hn).
    symmetry. apply get_count_In; [assumption|].
    eapply Permutation_in; eassumption.
  - rewrite (get_count_absent k d1 Hout). symmetry. apply get_count_absent.
    intros H. apply Hout. eapply Permutation_in; [|exact H].
    apply Permutation_map. now symmetry.
Qed.

Lemma sum_values_perm d1 d2 : Permutation d1 d2 -> sum_values d1 = sum_values d2.
Proof.
  unfold sum_values.
  induction 1 as [|x l l' _ IH|x y l|l l' l'' _ IH1 _ IH2]; cbn in *; lia.
Qed.

Lemma item_ltb_asym a b : item_ltb a b = true -> item_ltb b a = false.
Proof.
  unfold item_ltb. rewrite (String.compare_antisym a.1 b.1).
  destruct (String.compare b.1 a.1); cbn; try congruence.
  intros H. apply Nat.ltb_lt in H. apply Nat.ltb_ge. lia.
Qed.

(** Items sorted by [(key, count)] with distinct keys have their keys in
    strictly increasing order. *)
Lemma sorted_items_keys d :
  Sorted (PyFacts.le item_ltb) d -> List.NoDup (map fst d) ->
  StronglySorted (fun a b => String.compare a b = Lt) (map fst d).
Proof.
  intros Hs Hnd. apply Sorted.Sorted_StronglySorted.
  { intros a b c. apply PyFacts.compare_lt_trans. }
  induction Hs as [|a d Hs IH Hhd]; cbn; [constructor|].
  apply List.NoDup_cons_iff in Hnd as [Ha Hnd]. constructor; [now apply IH|].
  destruct Hhd as [|b d Hab]; cbn; constructor.
  unfold PyFacts.le, item_ltb in Hab.
  rewrite (String.compare_antisym a.1 b.1).
  destruct (String.compare b.1 a.1) eqn:E; cbn; try congruence.
  apply String.compare_eq_iff in E. exfalso. apply Ha. cbn. left. exact E.
Qed.

End CounterFacts.

(** ** Deduplication *)

Module SynthFacts.
Import Synthesize.

(** The two detections have the same label and lie closer than the radius
    on both axes. *)
Definition close (radius : Z) (a b : Detection) : Prop :=
  label a = label b
  /\ Z.abs (x a - x b) < radius
  /\ Z.abs (y a - y b) < radius.

Lemma near_spec radius a b : near radius a b = true <-> close radius a b.
Proof.
  unfold near, close.
  rewrite !andb_true_iff, String.eqb_eq, !Z.ltb_lt. tauto.
Qed.

Lemma close_sym radius a b : close radius a b -> close radius b a.
Proof.
  unfold close. intros (Hl & Hx & Hy). split; [congruence|]. split; lia.
Qed.

Lemma is_dup_spec radius kept det :
  is_dup radius kept det = true <-> exists e, In e kept /\ close radius e det.
Proof.
  unfold is_dup. rewrite existsb_exists.
  split; intros (e & Hin & H); exists e; (split; [assumption|]); now apply near_spec.
Qed.

Lemma is_dup_false radius kept det :
  is_dup radius kept det = false <-> forall e, In e kept -> ~ close radius e det.
Proof.
  rewrite <- not_true_iff_false, is_dup_spec. firstorder.
Qed.

(** Any two detections at different positions of the list are apart. *)
Definition separated (radius : Z) (l : list Detection) : Prop :=
  forall i j a b, i <> j -> nth_error l i = Some a -> nth_error l j = Some b ->
                  ~ close radius a b.

Lemma separated_nil radius : separated radius [].
Proof. intros [|i] j a b _ H; discriminate. Qed.

Lemma separated_snoc radius l det :
  separated radius l -> (forall e, In e l -> ~ close radius e det) ->
  separated radius (l ++ [det]).
Proof.
  intros Hs Hd i j a b Hij Hi Hj.
  assert (Hlen : forall k c, nth_error (l ++ [det]) k = Some c ->
            (k < length l)%nat /\ nth_error l k = Some c
            \/ k = length l /\ c = det).
  { intros k c Hk. destruct (Nat.lt_ge_cases k (length l)) as [Hlt|Hge].
    - left. split; [assumption|]. now rewrite nth_error_app1 in Hk.
    - right. rewrite nth_error_app2 in Hk by assumption.
      destruct (k - length l)%nat as [|m] eqn:E; cbn in Hk.
      + injection Hk as <-. split; [lia|reflexivity].
      + destruct m; discriminate. }
  destruct (Hlen i a Hi) as [[_ Ha]|[-> ->]], (Hlen j b Hj) as [[_ Hb]|[-> ->]].
  - now apply (Hs i j a b).
  - apply Hd. eapply nth_error_In; eassumption.
  - intros H. apply close_sym in H. revert H. apply Hd.
    eapply nth_error_In; eassumption.
  - congruence.
Qed.

(** What the loop does to its state. *)
Lemma dedup_spec radius sorted_dets kept duplicates :
  let '(kept', duplicates') := dedup radius sorted_dets kept duplicates in
  (length kept' + duplicates' = length kept + duplicates + length sorted_dets)%nat
  /\ (separated radius kept -> separated radius kept')
  /\ (exists added, kept' = (kept ++ added)%list
                    /\ forall d, In d added -> In d sorted_dets)
  /\ (forall d, In d sorted_dets ->
        In d kept' \/ exists e, In e kept' /\ close radius e d).
Proof.
  revert kept duplicates.
  induction sorted_dets as [|det rest IH]; intros kept duplicates; cbn [dedup].
  - cbn. split; [lia|]. split; [auto|]. split; [|intros d []].
    exists []. rewrite app_nil_r. split; [reflexivity|intros d []].
  - destruct (is_dup radius kept det) eqn:Hdup.
    + specialize (IH kept (S duplicates)).
      destruct (dedup radius rest kept (S duplicates)) as [kept' duplicates'].
      destruct IH as (Hlen & Hsep & (added & -> & Hadd) & Hcov).
      split; [cbn; lia|]. split; [exact Hsep|]. split.
      * exists added. split; [reflexivity|]. intros d Hd. right. now apply Hadd.
      * intros d [<-|Hd]; [|now apply Hcov].
        right. apply is_dup_spec in Hdup as (e & He & Hclose).
        exists e. split; [|assumption]. apply in_or_app. now left.
    + specialize (IH (kept ++ [det])%list duplicates).
      destruct (dedup radius rest (kept ++ [det]) duplicates) as [kept' duplicates'].
      destruct IH as (Hlen & Hsep & (added & -> & Hadd) & Hcov).
      rewrite !length_app in Hlen. cbn in Hlen.
      split; [rewrite !length_app; cbn; lia|]. split; [|split].
      * intros Hk. apply Hsep, separated_snoc; [assumption|].
        now apply is_dup_false.
      * exists (det :: added). rewrite <- app_assoc. split; [reflexivity|].
        intros d [<-|Hd]; [now left|right; now apply Hadd].
      * intros d [<-|Hd]; [|now apply Hcov].
        left. rewrite <- app_assoc. apply in_or_app. right. now left.
Qed.


Lemma In_keys_add k k' c :
  In k' (map fst (Py.counter_add k c)) <-> k' = k \/ In k' (map fst c).
Proof.
  rewrite CounterFacts.keys_add.
  destruct (existsb (String.eqb k) (map fst c)) eqn:E.
  - apply existsb_exists in E as (k0 & Hin & Heq). apply String.eqb_eq in Heq. subst k0.
    intuition congruence.
  - rewrite in_app_iff. cbn. intuition congruence.
Qed.

Lemma In_keys_Counter k keys : In k (map fst (Py.Counter keys)) <-> In k keys.
Proof.
  unfold Py.Counter.
  assert (H : forall c0, In k (map fst (foldl (fun c k => Py.counter_add k c) c0 keys))
                         <-> In k (map fst c0) \/ In k keys).
  { induction keys as [|k0 keys IH]; intros c0; cbn; [tauto|].
    rewrite IH, In_keys_add. intuition congruence. }
  rewrite H. cbn. tauto.
Qed.

Lemma tally_labels l (dets : list Detection) :
  CounterFacts.tally l (map label dets)
  = length (List.filter (fun d => String.eqb l (label d)) dets).
Proof.
  unfold CounterFacts.tally. induction dets as [|d dets IH]; cbn; [reflexivity|].
  destruct (String.eqb l (label d)); cbn; now rewrite IH.
Qed.

(** The report of a non-empty input. *)
Lemma synthesize_cons set_order d dets cfg context :
  synthesize set_order (d :: dets) cfg context =
  let kd := dedup (dedup_radius_px cfg) (Py.sorted_reverse key_ltb (d :: dets)) [] 0 in
  {| final_counts := Py.sorted Py.item_ltb (Py.Counter (map label kd.1));
     total := length kd.1;
     detections := kd.1;
     duplicates_removed := kd.2;
     pattern_warnings :=
       match context with
       | Some context =>
           match suites context with
           | [] => []
           | _ => _check_suite_coverage set_order kd.1 context cfg
           end
       | None => []
       end |}.
Proof.
  unfold synthesize.
  destruct (dedup (dedup_radius_px cfg) (Py.sorted_reverse key_ltb (d :: dets)) [] 0).
  reflexivity.
Qed.

(** The fields of a report that do not depend on the drawing context. *)
Lemma synthesize_fields set_order dets cfg context :
  let rep := synthesize set_order dets cfg context in
  let kd := dedup (dedup_radius_px cfg) (Py.sorted_reverse key_ltb dets) [] 0 in
  detections rep = kd.1
  /\ duplicates_removed rep = kd.2
  /\ total rep = length kd.1
  /\ final_counts rep = Py.sorted Py.item_ltb (Py.Counter (map label kd.1)).
Proof.
  destruct dets as [|d dets].
  - cbn. repeat split.
  - cbv zeta. rewrite synthesize_cons. cbn. repeat split.
Qed.

(** C3. For every detection list, configuration and context the report of
    [synthesize] has [total == len(detections) == sum(final_counts.values())];
    [final_counts] maps each label to the number of kept detections that
    carry it, its keys are the labels of the kept detections, and they stand
    in strictly increasing lexical order. *)
Theorem report_counts_consistent (set_order : gset string -> list string)
    (dets : list Detection) (cfg : PipelineConfig) (context : option DrawingContext) :
  let rep := synthesize set_order dets cfg context in
  total rep = length (detections rep)
  /\ Py.sum_values (final_counts rep) = total rep
  /\ (forall l, Py.get_count l (final_counts rep)
                = length (List.filter (fun d => String.eqb l (label d)) (detections rep)))
  /\ (forall l, In l (map fst (final_counts rep)) <-> In l (map label (detections rep)))
  /\ StronglySorted (fun a b => String.compare a b = Lt) (map fst (final_counts rep)).
Proof.
  cbv zeta.
  destruct (synthesize_fields set_order dets cfg context) as (Hd & _ & Ht & Hf).
  rewrite Hd, Ht, Hf.
  set (kept := (dedup (dedup_radius_px cfg) (Py.sorted_reverse key_ltb dets) [] 0).1).
  destruct (CounterFacts.Counter_spec (map label kept)) as (Hget & Hnd & Hsum).
  pose proof (PyFacts.sorted_perm Py.item_ltb (Py.Counter (map label kept))) as Hperm.
  split; [reflexivity|]. split; [|split; [|split]].
  - rewrite (CounterFacts.sum_values_perm _ _ Hperm), Hsum. apply length_map.
  - intros l. rewrite <- (CounterFacts.get_count_perm l _ _ (Permutation_sym Hperm)).
    + rewrite Hget. apply tally_labels.
    + eapply Permutation_NoDup; [|exact Hnd].
      apply Permutation_map. now symmetry.
  - intros l. rewrite <- (In_keys_Counter l (map label kept)).
    split; apply Permutation_in.
    + now apply Permutation_map.
    + apply Permutation_map. now symmetry.
  - apply CounterFacts.sorted_items_keys.
    + apply PyFacts.sorted_Sorted. exact CounterFacts.item_ltb_asym.
    + eapply Permutation_NoDup; [|exact Hnd].
      apply Permutation_map. now symmetry.
Qed.

(** The number of kept detections and of removed duplicates add up to the
    size of the input. *)
Lemma report_accounts_for_input set_order dets cfg context :
  let rep := synthesize set_order dets cfg context in
  (total rep + duplicates_removed rep = length dets)%nat.
Proof.
  cbv zeta.
  destruct (synthesize_fields set_order dets cfg context) as (_ & Hn & Ht & _).
  rewrite Hn, Ht.
  pose proof (dedup_spec (dedup_radius_px cfg) (Py.sorted_reverse key_ltb dets) [] 0) as H.
  destruct (dedup _ _ _ _) as [kept dups]. destruct H as (Hlen & _). cbn in *.
  rewrite (Permutation_length (PyFacts.sorted_reverse_perm key_ltb dets)) in Hlen. lia.
Qed.

(** C9. No two detections at different positions of the deduplicated list
    have the same label and coordinates that differ by less than the dedup
    radius on both axes. *)
Theorem kept_detections_separated (set_order : gset string -> list string)
    (dets : list Detection) (cfg : PipelineConfig) (context : option DrawingContext)
    (i j : nat) (a b : Detection) :
  let rep := synthesize set_order dets cfg context in
  i <> j ->
  nth_error (detections rep) i = Some a ->
  nth_error (detections rep) j = Some b ->
  ~ (label a = label b
     /\ Z.abs (x a - x b) < dedup_radius_px cfg
     /\ Z.abs (y a - y b) < dedup_radius_px cfg).
Proof.
  cbv zeta.
  destruct (synthesize_fields set_order dets cfg context) as (Hd & _).
  rewrite Hd.
  pose proof (dedup_spec (dedup_radius_px cfg) (Py.sorted_reverse key_ltb dets) [] 0) as H.
  destruct (dedup _ _ _ _) as [kept dups]. destruct H as (_ & Hsep & _). cbn.
  intros Hij Hi Hj. exact (Hsep (separated_nil _) i j a b Hij Hi Hj).
Qed.


Definition far_a : Detection :=
  {| label := "LT04"; variant := None; circuit := None; room := Some "corridor";
     x := 100; y := 100; confidence := "HIGH"; on_boundary := false;
     source_cell := Some (0, 0); source_phase := 2; notes := EmptyString |}.

Definition far_b : Detection :=
  {| label := "LT04"; variant := None; circuit := None; room := Some "corridor";
     x := 400; y := 100; confidence := "LOW"; on_boundary := false;
     source_cell := Some (1, 0); source_phase := 2; notes := EmptyString |}.

Lemma kept_detections_separated_witness :
  ~ (label far_a = label far_b
     /\ Z.abs (x far_a - x far_b) < 50
     /\ Z.abs (y far_a - y far_b) < 50).
Proof.
  apply (kept_detections_separated elements [far_a; far_b] GridFacts.default_cfg None
           0%nat 1%nat far_a far_b); [lia|reflexivity|reflexivity].
Defined.

(** *** The order of processing *)

Lemma pair_ltb_spec a b :
  Py.pair_ltb a b = true <-> a.1 < b.1 \/ (a.1 = b.1 /\ a.2 < b.2).
Proof.
  unfold Py.pair_ltb. rewrite orb_true_iff, andb_true_iff, !Z.ltb_lt, Z.eqb_eq. tauto.
Qed.

Lemma pair_ltb_false a b :
  Py.pair_ltb a b = false <-> b.1 < a.1 \/ (a.1 = b.1 /\ b.2 <= a.2).
Proof.
  rewrite <- not_true_iff_false, pair_ltb_spec. lia.
Qed.

Lemma key_ltb_asym a b : key_ltb a b = true -> key_ltb b a = false.
Proof.
  unfold key_ltb. rewrite pair_ltb_spec, pair_ltb_false. lia.
Qed.

Lemma key_le_trans a b c :
  PyFacts.le key_ltb a b -> PyFacts.le key_ltb b c -> PyFacts.le key_ltb a c.
Proof.
  unfold PyFacts.le, key_ltb. rewrite !pair_ltb_false. lia.
Qed.

(** [a] is processed no later than [b]: its key is not below that of [b]. *)
Definition key_ge (a b : Detection) : Prop := key_ltb a b = false.

Lemma sorted_dets_descending dets :
  Permutation (Py.sorted_reverse key_ltb dets) dets
  /\ StronglySorted key_ge (Py.sorted_reverse key_ltb dets).
Proof.
  split; [apply PyFacts.sorted_reverse_perm|].
  unfold Py.sorted_reverse.
  apply (PyFacts.StronglySorted_rev (PyFacts.le key_ltb)).
  apply PyFacts.sorted_StronglySorted; [exact key_ltb_asym|exact key_le_trans].
Qed.

Lemma sorted_reverse_two a b :
  Py.sorted_reverse key_ltb [a; b] = if key_ltb a b then [b; a] else [a; b].
Proof.
  unfold Py.sorted_reverse, Py.sorted. cbn. destruct (key_ltb a b); reflexivity.
Qed.

Lemma dedup_two radius p q :
  dedup radius [p; q] [] 0 = if near radius p q then ([p], 1%nat) else ([p; q], 0%nat).
Proof.
  cbn. rewrite orb_false_r. destruct (near radius p q); reflexivity.
Qed.

Lemma near_sym radius a b : near radius a b = near radius b a.
Proof.
  destruct (near radius b a) eqn:E.
  - apply near_spec, close_sym, near_spec, E.
  - apply not_true_iff_false. intros H. apply near_spec, close_sym, near_spec in H.
    congruence.
Qed.

(** C4. A detection is dropped exactly when some detection already kept has
    the same label and lies strictly closer than the radius on both axes.
    Two same-label detections whose offset on one axis equals the radius
    are both kept; two whose offsets on both axes are radius - 1 are merged,
    and the one kept is the one with the higher (confidence rank, phase)
    key, because the input is processed in descending order of that key,
    with ranks HIGH=3, MEDIUM=2, LOW=1 and 0 for anything else. *)
Theorem dedup_radius_boundary (set_order : gset string -> list string)
    (cfg : PipelineConfig) (context : option DrawingContext) :
  let r := dedup_radius_px cfg in
  (CONF_RANK "HIGH" = 3 /\ CONF_RANK "MEDIUM" = 2 /\ CONF_RANK "LOW" = 1
   /\ forall c, c <> "HIGH" -> c <> "MEDIUM" -> c <> "LOW" -> CONF_RANK c = 0)
  /\ (forall dets,
        Permutation (Py.sorted_reverse key_ltb dets) dets
        /\ StronglySorted key_ge (Py.sorted_reverse key_ltb dets))
  /\ (forall a b,
        key_ge a b <->
        CONF_RANK (confidence b) < CONF_RANK (confidence a)
        \/ (CONF_RANK (confidence a) = CONF_RANK (confidence b)
            /\ source_phase b <= source_phase a))
  /\ (forall kept det,
        is_dup r kept det = true <->
        exists e, In e kept /\ label e = label det
                  /\ Z.abs (x e - x det) < r /\ Z.abs (y e - y det) < r)
  /\ (forall det rest kept n,
        dedup r (det :: rest) kept n =
        if is_dup r kept det then dedup r rest kept (S n)
        else dedup r rest (kept ++ [det])%list n)
  /\ (forall a b,
        label a = label b ->
        Z.abs (x a - x b) = r \/ Z.abs (y a - y b) = r ->
        let rep := synthesize set_order [a; b] cfg context in
        total rep = 2%nat /\ duplicates_removed rep = 0%nat
        /\ Permutation (detections rep) [a; b])
  /\ (forall a b,
        label a = label b ->
        Z.abs (x a - x b) = r - 1 -> Z.abs (y a - y b) = r - 1 ->
        Py.pair_ltb (sort_key b) (sort_key a) = true ->
        let rep1 := synthesize set_order [a; b] cfg context in
        let rep2 := synthesize set_order [b; a] cfg context in
        detections rep1 = [a] /\ duplicates_removed rep1 = 1%nat
        /\ detections rep2 = [a] /\ duplicates_removed rep2 = 1%nat).
Proof.
  cbv zeta. split; [|split; [|split; [|split; [|split; [|split]]]]].
  - repeat split; try reflexivity.
    intros c H1 H2 H3. unfold CONF_RANK.
    destruct (String.eqb_spec c "HIGH"); [contradiction|].
    destruct (String.eqb_spec c "MEDIUM"); [contradiction|].
    destruct (String.eqb_spec c "LOW"); [contradiction|reflexivity].
  - apply sorted_dets_descending.
  - intros a b. unfold key_ge, key_ltb. rewrite pair_ltb_false. reflexivity.
  - intros kept det. apply is_dup_spec.
  - reflexivity.
  - intros a b Hl Hoff.
    assert (Hfar : near (dedup_radius_px cfg) a b = false).
    { apply not_true_iff_false. intros H. apply near_spec in H as (_ & Hx & Hy). lia. }
    destruct (synthesize_fields set_order [a; b] cfg context) as (Hd & Hn & Ht & _).
    rewrite Hd, Hn, Ht, sorted_reverse_two.
    destruct (key_ltb a b); rewrite dedup_two.
    + rewrite near_sym, Hfar. cbn. repeat split. apply perm_swap.
    + rewrite Hfar. cbn. repeat split. reflexivity.
  - intros a b Hl Hx Hy Hkey.
    assert (Hnear : near (dedup_radius_px cfg) a b = true).
    { apply near_spec. split; [assumption|]. lia. }
    assert (Hba : key_ltb b a = true) by exact Hkey.
    pose proof (key_ltb_asym b a Hba) as Hab.
    destruct (synthesize_fields set_order [a; b] cfg context) as (Hd1 & Hn1 & _).
    destruct (synthesize_fields set_order [b; a] cfg context) as (Hd2 & Hn2 & _).
    rewrite Hd1, Hn1, Hd2, Hn2, !sorted_reverse_two, Hab, Hba, !dedup_two, Hnear.
    cbn. repeat split.
Qed.

Definition hi_det : Detection :=
  {| label := "LT04"; variant := None; circuit := None; room := Some "suite 301";
     x := 100; y := 100; confidence := "HIGH"; on_boundary := false;
     source_cell := None; source_phase := 3; notes := EmptyString |}.

Definition lo_det (dx dy : Z) : Detection :=
  {| label := "LT04"; variant := None; circuit := None; room := Some "suite 301";
     x := 100 + dx; y := 100 + dy; confidence := "MEDIUM"; on_boundary := true;
     source_cell := Some (1, 1); source_phase := 2; notes := EmptyString |}.

Lemma dedup_radius_boundary_witness :
  (total (synthesize elements [hi_det; lo_det 50 0] GridFacts.default_cfg None) = 2%nat
   /\ duplicates_removed (synthesize elements [hi_det; lo_det 50 0] GridFacts.default_cfg None)
      = 0%nat)
  /\ detections (synthesize elements [lo_det 49 49; hi_det] GridFacts.default_cfg None)
     = [hi_det].
Proof.
  destruct (dedup_radius_boundary elements GridFacts.default_cfg None)
    as (_ & _ & _ & _ & _ & Hat & Hin).
  split.
  - destruct (Hat hi_det (lo_det 50 0)) as (H1 & H2 & _);
      [reflexivity|left; reflexivity|]. split; assumption.
  - destruct (Hin hi_det (lo_det 49 49)) as (_ & _ & H3 & _);
      [reflexivity|reflexivity|reflexivity|reflexivity|]. exact H3.
Defined.

End SynthFacts.

(** ** Suite coverage warnings *)

Module CoverageFacts.
Import Synthesize.

(** The room text of detection [d] mentions the suite number [sn]. *)
Definition mentions (d : Detection) (sn : string) : bool :=
  Str.contains (Str.lower sn) (Str.lower (Str.or_else (room d) EmptyString)).

(** Some kept detection mentions [sn]. *)
Definition suite_matched (kept : list Detection) (sn : string) : bool :=
  existsb (fun d => mentions d sn) kept.

(** The suite numbers of the context that no kept detection mentions. *)
Definition unmatched_suites (kept : list Detection) (context : DrawingContext)
    : gset string :=
  filter (fun sn => suite_matched kept sn = false) (suite_numbers context).

(** The text of the warning for the given list of suite numbers. *)
Definition coverage_warning (prefix : string) (missing : list string) : string :=
  "No " +:+ prefix +:+ " fixtures detected in suites: "
  +:+ Str.join ", " missing +:+ ". This may indicate missed detections.".

Lemma elem_of_mark_detected order acc d sn :
  sn ∈ mark_detected order acc d <-> sn ∈ acc \/ (In sn order /\ mentions d sn = true).
Proof.
  unfold mark_detected, mentions. revert acc.
  induction order as [|s order IH]; intros acc; cbn [foldl].
  - cbn. tauto.
  - rewrite IH. cbn [In].
    destruct (Str.contains (Str.lower s) _) eqn:E.
    + rewrite elem_of_union, elem_of_singleton. intuition (subst; auto).
    + intuition (subst; auto; congruence).
Qed.

Lemma elem_of_detected order dets acc sn :
  sn ∈ foldl (mark_detected order) acc dets
  <-> sn ∈ acc \/ (In sn order /\ suite_matched dets sn = true).
Proof.
  revert acc. induction dets as [|d dets IH]; intros acc; cbn [foldl].
  - cbn. intuition congruence.
  - rewrite IH, elem_of_mark_detected. unfold suite_matched. cbn [existsb].
    rewrite orb_true_iff. tauto.
Qed.

Lemma In_set_order set_order (s : gset string) sn :
  set_order_ok set_order -> In sn (set_order s) <-> sn ∈ s.
Proof.
  intros Hok. rewrite <- elem_of_elements, <- list_elem_of_In.
  split; intros H; [rewrite <- (Hok s)|rewrite (Hok s)]; exact H.
Qed.

(** The set [missing] of [_check_suite_coverage]. *)
Lemma missing_unmatched set_order kept context :
  set_order_ok set_order ->
  suite_numbers context ∖ foldl (mark_detected (set_order (suite_numbers context))) ∅ kept
  = unmatched_suites kept context.
Proof.
  intros Hok. apply set_eq. intros sn. unfold unmatched_suites.
  rewrite elem_of_difference, elem_of_filter, elem_of_detected, (In_set_order _ _ _ Hok).
  rewrite elem_of_empty. destruct (suite_matched kept sn); intuition congruence.
Qed.

(** What [_check_suite_coverage] returns, in terms of the unmatched suites. *)
Lemma check_suite_coverage_spec set_order kept context cfg :
  set_order_ok set_order ->
  _check_suite_coverage set_order kept context cfg =
  if bool_decide (unmatched_suites kept context = ∅) then []
  else [coverage_warning (label_prefix cfg)
          (Py.sorted String.ltb (elements (unmatched_suites kept context)))].
Proof.
  intros Hok. unfold _check_suite_coverage. rewrite (missing_unmatched _ _ _ Hok).
  destruct (bool_decide (unmatched_suites kept context = ∅)); [reflexivity|].
  unfold coverage_warning.
  rewrite (PyFacts.sorted_strings_unique _ _ (Hok (unmatched_suites kept context))).
  reflexivity.
Qed.

(** C5. [synthesize] computes its report from the detection list, the
    configuration and the context alone: the embedding has no clock and no
    random source, and the one place where a run of the interpreter could
    differ from another, the order in which a set of suite numbers is
    visited, does not reach the report. Two runs with any two iteration
    orders return the same report (same detection order, counts, total,
    duplicate count and warnings). *)
Theorem synthesize_deterministic (order1 order2 : gset string -> list string)
    (dets : list Detection) (cfg : PipelineConfig) (context : option DrawingContext) :
  set_order_ok order1 -> set_order_ok order2 ->
  synthesize order1 dets cfg context = synthesize order2 dets cfg context.
Proof.
  intros H1 H2. destruct dets as [|d dets]; [reflexivity|].
  rewrite !SynthFacts.synthesize_cons. cbv zeta.
  destruct context as [c|]; [|reflexivity].
  destruct (suites c) eqn:Hs; [reflexivity|].
  now rewrite !check_suite_coverage_spec.
Qed.


Definition suite (n : string) : Suite :=
  {| number := Some n; location := None; suite_type := None |}.

Definition context_of (ss : list Suite) : DrawingContext :=
  {| sheet_number := Some "E6"; sheet_title := None; building_type := None;
     floor_level := Some 3; suites := ss; corridor_layout := None;
     stairs := []; elevators := []; title_block := [];
     fixture_types_visible := [] |}.

Definition three_suites : DrawingContext :=
  context_of [suite "305"; suite "301"; suite "302"].

Definition reversed_order (s : gset string) : list string := rev (elements s).

Lemma synthesize_deterministic_witness :
  synthesize elements [SynthFacts.hi_det; SynthFacts.far_a] GridFacts.default_cfg
    (Some three_suites)
  = synthesize reversed_order [SynthFacts.hi_det; SynthFacts.far_a] GridFacts.default_cfg
      (Some three_suites).
Proof.
  apply (synthesize_deterministic elements reversed_order).
  - intros s. reflexivity.
  - intros s. symmetry. apply Permutation_rev.
Defined.

(** The property as the specification words it: as many warnings as
    there are suites that no kept detection mentions. *)
Definition one_warning_per_suite (rep : SynthesisReport) (context : DrawingContext)
    : Prop :=
  length (pattern_warnings rep) = size (unmatched_suites (detections rep) context).

(** C6, as the specification words it, fails: the context lists the suites
    305, 301 and 302 and the only detection is in "suite 301", so two suites
    (302 and 305) are mentioned by no kept detection, and the report carries
    one warning. *)
Lemma one_warning_for_two_suites :
  ~ one_warning_per_suite
      (synthesize elements [SynthFacts.hi_det] GridFacts.default_cfg (Some three_suites))
      three_suites.
Proof.
  unfold one_warning_per_suite. vm_compute. discriminate.
Qed.

Lemma unmatched_of_no_suites kept context :
  suites context = [] -> unmatched_suites kept context = ∅.
Proof.
  intros H. unfold unmatched_suites, suite_numbers. rewrite H. cbn.
  apply set_eq. intros sn. rewrite elem_of_filter, !elem_of_empty. tauto.
Qed.

(** C6 (amended). With a non-empty detection list and suite data in the
    context, [synthesize] emits no warning when every suite number occurs
    (case-insensitively, as a substring) in the room text of some kept
    detection, and otherwise exactly one warning, which lists in sorted order
    all the suite numbers that occur in the room text of no kept detection.
    Without suite data the report has no warning. The detections are not
    filtered by label prefix. *)
Theorem suite_coverage_warning (set_order : gset string -> list string)
    (dets : list Detection) (cfg : PipelineConfig) (context : DrawingContext) :
  set_order_ok set_order ->
  let rep := synthesize set_order dets cfg (Some context) in
  let missing := unmatched_suites (detections rep) context in
  (forall sn, sn ∈ missing <->
     sn ∈ suite_numbers context
     /\ forall d, In d (detections rep) -> mentions d sn = false)
  /\ (dets <> [] ->
      pattern_warnings rep =
      if bool_decide (missing = ∅) then []
      else [coverage_warning (label_prefix cfg) (Py.sorted String.ltb (elements missing))])
  /\ (length (pattern_warnings rep) <= 1)%nat
  /\ (suites context = [] -> pattern_warnings rep = [])
  /\ pattern_warnings (synthesize set_order dets cfg None) = [].
Proof.
  intros Hok. cbv zeta. split; [|split; [|split; [|split]]].
  - intros sn. unfold unmatched_suites. rewrite elem_of_filter.
    unfold suite_matched. rewrite <- not_true_iff_false, existsb_exists.
    split.
    + intros [H1 H2]. split; [assumption|].
      intros d Hd. apply not_true_iff_false. intros Hm. apply H1. eauto.
    + intros [H1 H2]. split; [|assumption].
      intros (d & Hd & Hm). rewrite (H2 d Hd) in Hm. discriminate.
  - intros Hne. destruct dets as [|d dets]; [contradiction|].
    rewrite SynthFacts.synthesize_cons. cbv zeta. cbn [pattern_warnings detections].
    destruct (suites context) eqn:Hs.
    + rewrite (unmatched_of_no_suites _ _ Hs). reflexivity.
    + now apply check_suite_coverage_spec.
  - destruct dets as [|d dets]; [cbn; lia|].
    rewrite SynthFacts.synthesize_cons. cbv zeta. cbn [pattern_warnings].
    destruct (suites context); [cbn; lia|].
    rewrite (check_suite_coverage_spec _ _ _ _ Hok).
    destruct (bool_decide _); cbn; lia.
  - intros Hs. destruct dets as [|d dets]; [reflexivity|].
    rewrite SynthFacts.synthesize_cons. cbv zeta. cbn [pattern_warnings].
    now rewrite Hs.
  - destruct dets as [|d dets]; [reflexivity|].
    rewrite SynthFacts.synthesize_cons. reflexivity.
Qed.

Lemma suite_coverage_warning_witness :
  pattern_warnings
    (synthesize elements [SynthFacts.hi_det] GridFacts.default_cfg (Some three_suites))
  = ["No LT fixtures detected in suites: 302, 305. This may indicate missed detections."].
Proof.
  destruct (suite_coverage_warning elements [SynthFacts.hi_det]
              GridFacts.default_cfg three_suites) as (_ & H & _).
  - intros s. reflexivity.
  - rewrite H by discriminate. vm_compute. reflexivity.
Defined.

End CoverageFacts.

(** ** Phase 1: what [extract_context] catches and what it does not *)

Module ContextFacts.
Import Context.

(** Every exception raised inside the [try] block (rendering, the API call,
    the access to the reply, [from_dict]) is caught: [extract_context]
    returns the default context and records the message. *)
Lemma extract_context_catches json_loads img_b64 api elapsed calls e :
  try_block json_loads img_b64 api = (calls, Raised e) ->
  extract_context json_loads img_b64 api elapsed
  = Returned (default_context,
              {| phase := 1; phase_detections := []; phase_vlm_calls := calls;
                 duration_s := elapsed; phase_metadata := MetaEmpty;
                 error := Some (exn_msg e) |}).
Proof.
  intros H. unfold extract_context. rewrite H. reflexivity.
Qed.

(** A transport or API error never escapes. *)
Lemma api_error_is_caught json_loads img api elapsed e :
  api img = Raised e ->
  exists p, extract_context json_loads (Returned img) api elapsed
            = Returned (default_context, p)
            /\ error p = Some (exn_msg e) /\ phase_vlm_calls p = 0.
Proof.
  intros H. eexists. split.
  - apply extract_context_catches. unfold try_block. rewrite H. reflexivity.
  - split; reflexivity.
Qed.

(** A reply that cannot be parsed yields the default context, without an
    error. *)
Lemma unparseable_reply_gives_default json_loads img api elapsed r text :
  api img = Returned r -> first_text r = Returned text ->
  _parse_json json_loads text = None ->
  exists p, extract_context json_loads (Returned img) api elapsed
            = Returned (default_context, p)
            /\ error p = None /\ phase_vlm_calls p = 1.
Proof.
  intros Hapi Htext Hparse. unfold extract_context, try_block, parse_context.
  rewrite Hapi, Htext. cbn. rewrite Hparse. cbn. eexists. split; [reflexivity|].
  split; reflexivity.
Qed.

(** A parsed reply that is not an object never escapes either: the failure
    of [from_dict] is caught. *)
Lemma non_object_reply_is_caught json_loads img api elapsed r text data e :
  api img = Returned r -> first_text r = Returned text ->
  _parse_json json_loads text = Some data -> truthy data = true ->
  from_dict data = Raised e ->
  exists p, extract_context json_loads (Returned img) api elapsed
            = Returned (default_context, p)
            /\ error p = Some (exn_msg e).
Proof.
  intros Hapi Htext Hparse Ht Hfd. eexists. split.
  - apply extract_context_catches. unfold try_block, parse_context.
    rewrite Hapi, Htext. cbn. rewrite Hparse, Ht, Hfd. reflexivity.
  - reflexivity.
Qed.

(** [extract_context] returns exactly when the two [len] calls of its last
    log line succeed on the context it built. *)
Lemma extract_context_returns_iff json_loads img_b64 api elapsed :
  (exists r, extract_context json_loads img_b64 api elapsed = Returned r)
  <-> match (try_block json_loads img_b64 api).2 with
      | Returned c => exists n, log_summary c = Returned n
      | Raised _ => True
      end.
Proof.
  unfold extract_context.
  destruct (try_block json_loads img_b64 api) as [calls [c|e]]; cbn.
  - destruct (log_summary c) as [n|e]; cbn; split; eauto.
    + intros [r H]. discriminate.
    + intros [n H]. discriminate.
  - split; eauto.
Qed.

Definition dquote : string := String "034" EmptyString.

(** The reply [{"suites": null}]: the context prompt tells the model to
    write null for a field it cannot determine. *)
Definition null_suites_text : string :=
  "{" +:+ dquote +:+ "suites" +:+ dquote +:+ ": null}".

Definition null_suites_reply : response :=
  {| content := [TextBlock null_suites_text]; stop_reason := "end_turn" |}.

(** C8. When the model answers [{"suites": null}], the reply parses, the
    [try] block ends without an exception with a context whose [suites] is
    [None], and the log line after the [try] block raises [TypeError] from
    [len(context.suites)]: [extract_context] raises instead of returning. *)
Theorem extract_context_raises_on_null_suites (json_loads : string -> option json)
    (img : string) (elapsed : Q) :
  json_loads null_suites_text = Some (JObj [("suites", JNull)]) ->
  (exists c, try_block json_loads (Returned img) (fun _ => Returned null_suites_reply)
             = (1, Returned c) /\ o_suites c = JNull)
  /\ extract_context json_loads (Returned img) (fun _ => Returned null_suites_reply) elapsed
     = Raised (Exn "TypeError" "object of type 'NoneType' has no len()").
Proof.
  intros Hloads.
  assert (Hparse : _parse_json json_loads null_suites_text
                   = Some (JObj [("suites", JNull)])).
  { unfold _parse_json.
    replace (Str.contains fence_json null_suites_text) with false by (vm_compute; reflexivity).
    replace (Str.contains fence null_suites_text) with false by (vm_compute; reflexivity).
    replace (Str.strip null_suites_text) with null_suites_text by (vm_compute; reflexivity).
    now rewrite Hloads. }
  split.
  - eexists. unfold try_block, parse_context. cbn [first_text null_suites_reply content].
    cbn [mbind outcome_bind]. rewrite Hparse. split; reflexivity.
  - unfold extract_context, try_block, parse_context.
    cbn [first_text null_suites_reply content mbind outcome_bind]. rewrite Hparse.
    reflexivity.
Qed.

(** A stand-in for [json.loads] that knows the one text above. *)
Definition loads_null_suites (text : string) : option json :=
  if String.eqb text null_suites_text then Some (JObj [("suites", JNull)]) else None.

Lemma extract_context_raises_on_null_suites_witness :
  extract_context loads_null_suites (Returned "aW1n") (fun _ => Returned null_suites_reply) 0%Q
  = Raised (Exn "TypeError" "object of type 'NoneType' has no len()").
Proof.
  apply (extract_context_raises_on_null_suites loads_null_suites "aW1n" 0%Q).
  reflexivity.
Defined.

End ContextFacts.

(** * Further properties of the pipeline code *)

(** ** Grid decomposition: what the cells are *)

Module GridExtra.
Import Grid.

Lemma decompose_inv W H cfg g :
  decompose W H cfg = Returned g ->
  coarse_grid_cols cfg <> 0 /\ coarse_grid_rows cfg <> 0
  /\ g = {| cells := flat_map (fun r => map (cell_at (work_dir cfg +:+ "/cells") W H
                                               (W / coarse_grid_cols cfg)
                                               (H / coarse_grid_rows cfg) r)
                                            (range (coarse_grid_cols cfg)))
                              (range (coarse_grid_rows cfg));
            plan_width := W; plan_height := H;
            cell_width := W / coarse_grid_cols cfg;
            cell_height := H / coarse_grid_rows cfg;
            cols := coarse_grid_cols cfg; rows := coarse_grid_rows cfg |}.
Proof.
  unfold decompose, floordiv.
  destruct (Z.eqb_spec (coarse_grid_cols cfg) 0) as [|Hc]; [discriminate|].
  destruct (Z.eqb_spec (coarse_grid_rows cfg) 0) as [|Hr]; [discriminate|].
  cbn. intros E. injection E as <-. auto.
Qed.

(** X1. Whenever [decompose] returns, the grid holds one cell per pair of
    [range(rows)] x [range(cols)]: [rows * cols] cells for positive
    dimensions and none when a dimension is negative; the grid records the
    image size, the grid dimensions and the floor-divided cell size. *)
Theorem grid_cell_count W H cfg g :
  decompose W H cfg = Returned g ->
  length (cells g)
  = (Z.to_nat (coarse_grid_rows cfg) * Z.to_nat (coarse_grid_cols cfg))%nat
  /\ (coarse_grid_cols cfg < 0 \/ coarse_grid_rows cfg < 0 -> cells g = [])
  /\ plan_width g = W /\ plan_height g = H
  /\ cols g = coarse_grid_cols cfg /\ rows g = coarse_grid_rows cfg
  /\ cell_width g = W / coarse_grid_cols cfg
  /\ cell_height g = H / coarse_grid_rows cfg.
Proof.
  intros Hg. apply decompose_inv in Hg as (_ & _ & ->). cbn.
  split; [|split; [|repeat split]].
  - rewrite (GridFacts.length_flat_map_const _ _ (Z.to_nat (coarse_grid_cols cfg))).
    + now rewrite length_range.
    + intros r. now rewrite length_map, length_range.
  - intros [Hc|Hr].
    + unfold range at 1. replace (Z.to_nat (coarse_grid_cols cfg)) with 0%nat by lia.
      cbn. induction (range (coarse_grid_rows cfg)); [reflexivity|assumption].
    + unfold range at 2. replace (Z.to_nat (coarse_grid_rows cfg)) with 0%nat by lia.
      reflexivity.
Qed.

Lemma grid_cell_count_witness :
  exists g, decompose 1275 1650 GridFacts.default_cfg = Returned g
            /\ length (cells g) = 12%nat.
Proof.
  eexists. split; [reflexivity|].
  apply (grid_cell_count 1275 1650 GridFacts.default_cfg). reflexivity.
Defined.


(** X3. No two cells at different positions of the cell list share a
    pixel. *)
Theorem cells_never_overlap W H cfg g i j c1 c2 px py :
  decompose W H cfg = Returned g ->
  i <> j -> nth_error (cells g) i = Some c1 -> nth_error (cells g) j = Some c2 ->
  ~ (in_cell c1 px py /\ in_cell c2 px py).
Proof. apply GridFacts.cells_pairwise_disjoint. Qed.

Definition cell_r0_c0 : CellInfo :=
  cell_at "work/cells" 1275 1650 318 550 0 0.

Definition cell_r0_c1 : CellInfo :=
  cell_at "work/cells" 1275 1650 318 550 0 1.

Lemma cells_never_overlap_witness :
  ~ (in_cell cell_r0_c0 318 10 /\ in_cell cell_r0_c1 318 10).
Proof.
  apply (cells_never_overlap 1275 1650 GridFacts.default_cfg
           {| cells := flat_map (fun r => map (cell_at "work/cells" 1275 1650 318 550 r)
                                              (range 4)) (range 3);
              plan_width := 1275; plan_height := 1650;
              cell_width := 318; cell_height := 550; cols := 4; rows := 3 |}
           0%nat 1%nat); [reflexivity|lia|reflexivity|reflexivity].
Defined.

(** X4. For a non-empty image and positive grid dimensions, every cell is
    a [cw x ch] rectangle inside the image with its grid position in range
    (the [min] with the image edge never changes a bound), and the cells
    cover exactly the pixels of [[0, cols*cw) x [0, rows*ch)]: the whole
    image when [cols] divides [W] and [rows] divides [H]. *)
Theorem cells_tile_floor_region W H cfg g :
  decompose W H cfg = Returned g ->
  0 <= W -> 0 <= H -> 1 <= coarse_grid_cols cfg -> 1 <= coarse_grid_rows cfg ->
  (forall c, In c (cells g) ->
     0 <= row c < rows g /\ 0 <= col c < cols g
     /\ x0 c = col c * cell_width g /\ y0 c = row c * cell_height g
     /\ x1 c = x0 c + cell_width g /\ y1 c = y0 c + cell_height g
     /\ 0 <= x0 c /\ x1 c <= W /\ 0 <= y0 c /\ y1 c <= H)
  /\ (forall px py,
        (exists c, In c (cells g) /\ in_cell c px py)
        <-> 0 <= px < cols g * cell_width g /\ 0 <= py < rows g * cell_height g)
  /\ (W mod coarse_grid_cols cfg = 0 -> H mod coarse_grid_rows cfg = 0 ->
      forall px py,
        (exists c, In c (cells g) /\ in_cell c px py) <-> 0 <= px < W /\ 0 <= py < H).
Proof.
  intros Hg HW HH Hc Hr. pose proof (decompose_inv W H cfg g Hg) as (_ & _ & Eg).
  assert (Ew : cell_width g = W / coarse_grid_cols cfg) by (rewrite Eg; reflexivity).
  assert (Eh : cell_height g = H / coarse_grid_rows cfg) by (rewrite Eg; reflexivity).
  assert (Ec : cols g = coarse_grid_cols cfg) by (rewrite Eg; reflexivity).
  assert (Er : rows g = coarse_grid_rows cfg) by (rewrite Eg; reflexivity).
  split; [|split].
  - intros c Hin. apply (GridFacts.In_cells W H cfg g c Hg) in Hin as (r & k & Hr' & Hk & ->).
    rewrite Ec, Er, Ew, Eh. unfold cell_at. cbn.
    assert (0 <= W / coarse_grid_cols cfg) by (apply Z.div_pos; lia).
    assert (0 <= H / coarse_grid_rows cfg) by (apply Z.div_pos; lia).
    assert (coarse_grid_cols cfg * (W / coarse_grid_cols cfg) <= W)
      by (apply Z.mul_div_le; lia).
    assert (coarse_grid_rows cfg * (H / coarse_grid_rows cfg) <= H)
      by (apply Z.mul_div_le; lia).
    repeat split; try lia; nia.
  - intros px py. rewrite Ec, Er, Ew, Eh. now apply GridFacts.cells_cover.
  - intros HmW HmH px py. now apply (GridFacts.cells_cover_exact W H cfg g).
Qed.

Definition a4_cfg : PipelineConfig :=
  {| coarse_dpi := 150; coarse_grid_cols := 4; coarse_grid_rows := 3;
     refine_dpi := 216; max_agent_iterations := 20; max_vlm_calls_phase3 := 15;
     dedup_radius_px := 50; label_pattern := Re.default_label_pattern;
     label_prefix := "LT"; work_dir := "work" |}.

Lemma cells_tile_floor_region_witness :
  exists g, decompose 1240 1755 a4_cfg = Returned g
    /\ forall px py, (exists c, In c (cells g) /\ in_cell c px py)
                     <-> 0 <= px < 1240 /\ 0 <= py < 1755.
Proof.
  eexists. split; [reflexivity|].
  refine (proj2 (proj2 (cells_tile_floor_region 1240 1755 a4_cfg _ eq_refl _ _ _ _))
            eq_refl eq_refl); cbn; lia.
Defined.

End GridExtra.

(** ** Strings and truncation *)

Module TextFacts.

Lemma append_cons (ch : ascii) (a b : string) :
  String ch a +:+ b = String ch (a +:+ b).
Proof. reflexivity. Qed.


Lemma append_empty_r (a : string) : a +:+ EmptyString = a.
Proof.
  induction a as [|ch a IH]; [reflexivity|]. now rewrite append_cons, IH.
Qed.

Lemma int_nonneg (q : Q) : (0 <= Qnum q) -> Py.int q = Qnum q / Zpos (Qden q).
Proof. intros H. unfold Py.int. apply Z.quot_div_nonneg; lia. Qed.

(** [int] of a value between two integers, the lower one non-negative,
    lies between them. *)
Lemma int_between (q : Q) (a b : Z) :
  0 <= a -> (inject_Z a <= q)%Q -> (q <= inject_Z b)%Q -> a <= Py.int q <= b.
Proof.
  intros Ha Hlo Hhi. destruct q as [n d]. unfold Qle in *. cbn in *.
  assert (Hn : 0 <= n) by nia.
  rewrite (int_nonneg (n # d)) by exact Hn. cbn. split.
  - apply Z.div_le_lower_bound; lia.
  - apply Z.div_le_upper_bound; lia.
Qed.

(** [int] gives the same integer for equal rationals. *)
Lemma int_Qeq (p q : Q) : (p == q)%Q -> Py.int p = Py.int q.
Proof.
  destruct p as [n1 d1], q as [n2 d2]. unfold Qeq, Py.int. cbn. intros E.
  assert (Hpos : forall n1 d1 n2 d2 : Z, 0 <= n1 -> 0 < d1 -> 0 < d2 ->
            n1 * d2 = n2 * d1 -> n1 ÷ d1 = n2 ÷ d2).
  { intros a b c d Ha Hb Hd Eq. assert (0 <= c) by nia.
    rewrite !Z.quot_div_nonneg by lia.
    rewrite <- (Z.div_mul_cancel_r a b d) by lia.
    rewrite <- (Z.div_mul_cancel_r c d b) by lia.
    rewrite Eq. f_equal. lia. }
  destruct (Z.le_gt_cases 0 n1) as [H|H].
  - apply Hpos; lia.
  - assert (E' : - n1 ÷ Z.pos d1 = - n2 ÷ Z.pos d2) by (apply Hpos; lia).
    rewrite !Z.quot_opp_l in E' by lia. lia.
Qed.

End TextFacts.

(** ** Phase 2 and Phase 3 detection calls *)

Module VlmExtra.
Import Vlm.



Lemma call_with_retry_ext n k api1 api2 :
  (forall a, (k <= a < k + n)%nat -> api1 a = api2 a) ->
  call_with_retry n k api1 = call_with_retry n k api2.
Proof.
  revert k. induction n as [|n IH]; intros k H; cbn; [reflexivity|].
  rewrite <- (H k) by lia. destruct (api1 k); try reflexivity.
  apply IH. intros a Ha. apply H. lia.
Qed.

Lemma call_with_retry_exhausted n k api :
  (forall a, (k <= a < k + n)%nat -> api a = RateLimitError) ->
  call_with_retry n k api = Returned None.
Proof.
  revert k. induction n as [|n IH]; intros k H; cbn; [reflexivity|].
  rewrite (H k) by lia. apply IH. intros a Ha. apply H. lia.
Qed.

(** X6. A cell inspection makes at most four attempts and a crop
    inspection at most three: the outcome is the same for any two remote
    services that agree on these attempts, and when all of them are rate
    limited the call yields no detections instead of an error. *)
Theorem retries_are_bounded (cfg : PipelineConfig) (cell : Grid.CellInfo)
    (api1 api2 : nat -> api_reply) :
  ((forall a, (a < 4)%nat -> api1 a = api2 a) ->
     inspect_cell cfg cell api1 = inspect_cell cfg cell api2)
  /\ ((forall a, (a < 3)%nat -> api1 a = api2 a) ->
     inspect_crop api1 = inspect_crop api2)
  /\ ((forall a, (a < 4)%nat -> api1 a = RateLimitError) ->
     inspect_cell cfg cell api1 = Returned [])
  /\ ((forall a, (a < 3)%nat -> api1 a = RateLimitError) ->
     inspect_crop api1 = Returned []).
Proof.
  unfold inspect_cell, inspect_crop. repeat split; intros H.
  - rewrite (call_with_retry_ext 4 0 api1 api2); [reflexivity|].
    intros a Ha. apply H. lia.
  - rewrite (call_with_retry_ext 3 0 api1 api2); [reflexivity|].
    intros a Ha. apply H. lia.
  - rewrite call_with_retry_exhausted; [reflexivity|]. intros a Ha. apply H. lia.
  - rewrite call_with_retry_exhausted; [reflexivity|]. intros a Ha. apply H. lia.
Qed.

(** A service that is rate limited four times and answers afterwards. *)
Definition late_service (a : nat) : api_reply :=
  if (a <? 4)%nat then RateLimitError else Reply [VlmFacts.raw_of_label "LT04"].

Lemma retries_are_bounded_witness :
  inspect_cell GridFacts.default_cfg VlmFacts.demo_cell late_service = Returned [].
Proof.
  destruct (retries_are_bounded GridFacts.default_cfg VlmFacts.demo_cell
              late_service late_service) as (_ & _ & H & _).
  apply H. intros a Ha. unfold late_service.
  destruct (Nat.ltb_spec a 4); [reflexivity|lia].
Defined.

Lemma scaled_between (p : Q) (lo hi : Z) :
  lo <= hi -> (0 <= p)%Q -> (p <= 100)%Q ->
  (inject_Z lo <= inject_Z lo + (p / 100) * inject_Z (hi - lo))%Q
  /\ (inject_Z lo + (p / 100) * inject_Z (hi - lo) <= inject_Z hi)%Q.
Proof.
  intros Hle H0 H100.
  assert (Hd : (0 <= inject_Z (hi - lo))%Q).
  { change (inject_Z 0 <= inject_Z (hi - lo))%Q. rewrite <- Zle_Qle. lia. }
  assert (Hf0 : (0 <= p / 100)%Q) by (apply Qle_shift_div_l; [reflexivity|lra]).
  assert (Hf1 : (p / 100 <= 1)%Q) by (apply Qle_shift_div_r; [reflexivity|lra]).
  assert (Hm0 : (0 <= (p / 100) * inject_Z (hi - lo))%Q) by now apply Qmult_le_0_compat.
  assert (Hm1 : ((p / 100) * inject_Z (hi - lo) <= 1 * inject_Z (hi - lo))%Q)
    by now apply Qmult_le_compat_r.
  assert (E : (inject_Z hi == inject_Z lo + inject_Z (hi - lo))%Q).
  { rewrite <- inject_Z_plus. replace (lo + (hi - lo)) with hi by lia. reflexivity. }
  split; [lra|]. rewrite E. lra.
Qed.

(** Percentages in 0..100, when given. *)
Definition pct_in_range (o : option Q) : Prop :=
  match o with
  | Some p => (0 <= p)%Q /\ (p <= 100)%Q
  | None => True
  end.

Definition position_in_range (pos : raw_position) : Prop :=
  match pos with
  | PosDict px py => pct_in_range px /\ pct_in_range py
  | _ => True
  end.

(** X7. For a cell with non-negative, ordered pixel bounds, a detection
    that [inspect_cell] keeps is placed inside the closed rectangle of the
    cell whenever the reported percentages lie in 0..100 (or are absent);
    it carries [source_phase = 2] and the grid position of the cell. *)
Theorem cell_detection_inside_cell (cfg : PipelineConfig) (cell : Grid.CellInfo)
    (d : raw_det) (det : Detection) :
  0 <= Grid.x0 cell <= Grid.x1 cell -> 0 <= Grid.y0 cell <= Grid.y1 cell ->
  position_in_range (r_position d) ->
  cell_detection cfg cell d = Some det ->
  Grid.x0 cell <= x det <= Grid.x1 cell
  /\ Grid.y0 cell <= y det <= Grid.y1 cell
  /\ source_phase det = 2
  /\ source_cell det = Some (Grid.col cell, Grid.row cell).
Proof.
  intros Hx Hy Hpos. unfold cell_detection.
  destruct (negb _); [discriminate|].
  destruct (cell_position cell (r_position d)) as [qx qy] eqn:Ep.
  intros E. injection E as <-. cbn.
  assert (Hq : (inject_Z (Grid.x0 cell) <= qx)%Q /\ (qx <= inject_Z (Grid.x1 cell))%Q
               /\ (inject_Z (Grid.y0 cell) <= qy)%Q /\ (qy <= inject_Z (Grid.y1 cell))%Q).
  { unfold cell_position in Ep.
    assert (H50 : (0 <= 50)%Q /\ (50 <= 100)%Q) by (split; discriminate).
    destruct (r_position d) as [|px py|]; injection Ep as <- <-.
    - destruct (scaled_between 50 (Grid.x0 cell) (Grid.x1 cell)
                  (proj2 Hx) (proj1 H50) (proj2 H50)) as [? ?].
      destruct (scaled_between 50 (Grid.y0 cell) (Grid.y1 cell)
                  (proj2 Hy) (proj1 H50) (proj2 H50)) as [? ?].
      auto.
    - destruct Hpos as [Hpx Hpy].
      assert (Hdx : (0 <= default 50%Q px)%Q /\ (default 50%Q px <= 100)%Q)
        by (destruct px; cbn in *; tauto).
      assert (Hdy : (0 <= default 50%Q py)%Q /\ (default 50%Q py <= 100)%Q)
        by (destruct py; cbn in *; tauto).
      destruct (scaled_between (default 50%Q px) (Grid.x0 cell) (Grid.x1 cell)
                  (proj2 Hx) (proj1 Hdx) (proj2 Hdx)) as [? ?].
      destruct (scaled_between (default 50%Q py) (Grid.y0 cell) (Grid.y1 cell)
                  (proj2 Hy) (proj1 Hdy) (proj2 Hdy)) as [? ?].
      auto.
    - rewrite !inject_Z_plus.
      assert (Hx' : (inject_Z (Grid.x0 cell) <= inject_Z (Grid.x1 cell))%Q)
        by (rewrite <- Zle_Qle; lia).
      assert (Hy' : (inject_Z (Grid.y0 cell) <= inject_Z (Grid.y1 cell))%Q)
        by (rewrite <- Zle_Qle; lia).
      repeat split.
      + apply Qle_shift_div_l; [reflexivity|lra].
      + apply Qle_shift_div_r; [reflexivity|lra].
      + apply Qle_shift_div_l; [reflexivity|lra].
      + apply Qle_shift_div_r; [reflexivity|lra]. }
  destruct Hq as (H1 & H2 & H3 & H4).
  split; [apply TextFacts.int_between; tauto|].
  split; [apply TextFacts.int_between; tauto|]. split; reflexivity.
Qed.


Definition corridor_raw : raw_det :=
  {| r_label := Some "LT04"; r_circuit := Some "HB-1N/L"; r_room := Some "corridor";
     r_position := PosDict (Some 45%Q) (Some 62%Q); r_confidence := Some "HIGH";
     r_on_boundary := Some false; r_notes := None |}.

Definition cell_r1_c2 : Grid.CellInfo :=
  Grid.cell_at "work/cells" 1275 1650 318 550 1 2.

Lemma cell_detection_inside_cell_witness :
  exists det, cell_detection GridFacts.default_cfg cell_r1_c2 corridor_raw = Some det
    /\ 636 <= x det <= 954 /\ 550 <= y det <= 1100.
Proof.
  eexists. split; [reflexivity|].
  destruct (cell_detection_inside_cell GridFacts.default_cfg cell_r1_c2 corridor_raw _
              ltac:(cbn; lia) ltac:(cbn; lia)
              ltac:(cbn; repeat split; discriminate) eq_refl) as (Hx & Hy & _).
  split; [exact Hx|exact Hy].
Defined.

(** No usable position: no "position" key, a value that is not a dict, or
    a dict without "x" and "y". *)
Definition no_position (pos : raw_position) : Prop :=
  match pos with
  | PosAbsent | PosOther | PosDict None None => True
  | PosDict _ _ => False
  end.

Lemma int_half (n : Z) : Py.int (inject_Z n / 2)%Q = n ÷ 2.
Proof. unfold Py.int. cbn. now rewrite Z.mul_1_r. Qed.

Lemma midpoint_Qeq (lo hi : Z) :
  (inject_Z lo + (50 / 100) * inject_Z (hi - lo) == inject_Z (lo + hi) / 2)%Q.
Proof.
  unfold Z.sub. rewrite !inject_Z_plus, inject_Z_opp. field.
Qed.

(** X8. A kept detection without usable position data is placed at the
    midpoint of its cell, [int((x0 + x1) / 2)] and [int((y0 + y1) / 2)]. *)
Theorem missing_position_gives_midpoint (cfg : PipelineConfig) (cell : Grid.CellInfo)
    (d : raw_det) (det : Detection) :
  no_position (r_position d) ->
  cell_detection cfg cell d = Some det ->
  x det = (Grid.x0 cell + Grid.x1 cell) ÷ 2
  /\ y det = (Grid.y0 cell + Grid.y1 cell) ÷ 2.
Proof.
  intros Hpos. unfold cell_detection. destruct (negb _); [discriminate|].
  destruct (cell_position cell (r_position d)) as [qx qy] eqn:Ep.
  intros E. injection E as <-. cbn. unfold cell_position in Ep.
  destruct (r_position d) as [|[px|] [py|]|]; try contradiction;
    injection Ep as <- <-; cbn [default];
    rewrite <- ?int_half; split;
    try reflexivity; apply TextFacts.int_Qeq, midpoint_Qeq.
Qed.

Lemma missing_position_gives_midpoint_witness :
  exists det, cell_detection GridFacts.default_cfg cell_r1_c2
                (VlmFacts.raw_of_label "LT07") = Some det
    /\ x det = 795 /\ y det = 825.
Proof.
  eexists. split; [reflexivity|].
  exact (missing_position_gives_midpoint GridFacts.default_cfg cell_r1_c2
           (VlmFacts.raw_of_label "LT07") _ I eq_refl).
Defined.

End VlmExtra.

(** ** The Phase 3 loop: budget, state and results *)

Module AgentExtra.
Import Agent.

(** What every detection produced by Phase 3 carries. *)
Definition refined (cfg : PipelineConfig) (det : Detection) : Prop :=
  source_phase det = 3 /\ on_boundary det = false /\ source_cell det = None
  /\ VlmFacts.label_ok cfg (label det) = true.

Definition is_crop_entry (e : log_entry) : bool :=
  match e with
  | LogTool _ tool _ => String.eqb tool "crop_and_inspect"
  | LogFinalize _ => false
  end.

#[local] Arguments crop_executions : simpl never.

Lemma crop_executions_log e s :
  crop_executions (log e s)
  = (crop_executions s + if is_crop_entry e then 1 else 0)%nat.
Proof.
  unfold crop_executions, log. cbn [agent_log].
  rewrite List.filter_app, length_app. cbn [List.filter].
  fold (is_crop_entry e). destruct (is_crop_entry e); reflexivity.
Qed.

Section Invariants.
Variable cfg : PipelineConfig.
Variable render_size : Z -> Z * Z.
Variable model : Z -> outcome response.
Variable vision : Z -> Z * Z * Z * Z -> nat -> api_reply.
Variable coarse : list Detection.

(** The state of the orchestrator agrees with the detections found so far
    and with its log. *)
Definition consistent (s : state) (nd : list Detection) : Prop :=
  detections s = (coarse ++ nd)%list
  /\ vlm_calls s = Z.of_nat (crop_executions s)
  /\ List.Forall (refined cfg) nd.

Lemma convert_crop_refined xp yp reason raws :
  List.Forall (refined cfg) (convert_crop cfg render_size xp yp reason raws).
Proof.
  unfold convert_crop. induction raws as [|d raws IH]; cbn; [constructor|].
  pose proof (VlmFacts.crop_detection_label cfg render_size xp yp reason d) as Hd.
  unfold crop_detection in *.
  destruct (negb (Re.re_match (label_pattern cfg) (Vlm.normalize_label d))); cbn in *;
    [exact IH|].
  constructor; [|exact IH]. destruct Hd as [_ Hok]. repeat split; assumption.
Qed.

Lemma execute_tool_returned s name input s' dets :
  _execute_tool cfg render_size vision s name input = Returned (s', dets) ->
  detections s' = detections s /\ agent_log s' = agent_log s
  /\ vlm_calls s' = vlm_calls s + (if String.eqb name "crop_and_inspect" then 1 else 0)
  /\ List.Forall (refined cfg) dets.
Proof.
  unfold _execute_tool. destruct (String.eqb name "crop_and_inspect").
  - unfold _tool_crop_and_inspect.
    destruct (Vlm.inspect_crop _) as [raws|e]; cbn; intros E; [|discriminate].
    injection E as <- <-. cbn. repeat split. apply convert_crop_refined.
  - destruct (String.eqb name "validate_pattern");
      [|destruct (String.eqb name "get_current_state")];
      intros E; injection E as <- <-; repeat split; try lia; constructor.
Qed.

Lemma execute_tool_raised s name input e :
  _execute_tool cfg render_size vision s name input = Raised e ->
  String.eqb name "crop_and_inspect" = true
  /\ exists k box a, vision k box a = ApiFailure e.
Proof.
  unfold _execute_tool. destruct (String.eqb name "crop_and_inspect").
  - unfold _tool_crop_and_inspect, Vlm.inspect_crop. intros E. split; [reflexivity|].
    set (api := vision (vlm_calls s) (crop_box cfg render_size input)) in *.
    assert (H : forall n k, Vlm.call_with_retry n k api = Raised e ->
                            exists a, api a = ApiFailure e).
    { induction n as [|n IH]; intros k; cbn; [discriminate|].
      destruct (api k) eqn:Ek; [apply IH| |discriminate].
      intros E'. injection E' as ->. eauto. }
    destruct (Vlm.call_with_retry 3 0 api) as [r|e'] eqn:Er; cbn in E; [discriminate|].
    injection E as ->. destruct (H _ _ Er) as [a Ha]. unfold api in Ha. eauto.
  - destruct (String.eqb name "validate_pattern");
      [|destruct (String.eqb name "get_current_state")]; discriminate.
Qed.

(** What one turn keeps. *)
Definition turn_ok (r : turn_end) : Prop :=
  match r with
  | TurnDone s nd => consistent s nd
  | TurnFinalized s nd _ => consistent s nd
  | TurnRaised s e =>
      Z.of_nat (crop_executions s) = vlm_calls s + 1
      /\ 0 <= vlm_calls s
      /\ exists k box a, vision k box a = ApiFailure e
  end.

Lemma exec_tools_consistent iteration tool_uses s nd :
  consistent s nd ->
  turn_ok (exec_tools cfg render_size vision iteration tool_uses s nd).
Proof.
  revert s nd. induction tool_uses as [|[name input] rest IH]; intros s nd Hc.
  - exact Hc.
  - cbn [exec_tools]. destruct Hc as (Hd & Hv & Hf).
    destruct (String.eqb name "finalize") eqn:Hfin.
    + cbn. apply String.eqb_eq in Hfin. subst name.
      repeat split; [exact Hd| |exact Hf].
      rewrite !crop_executions_log. cbn. lia.
    + destruct (_execute_tool _ _ _ _ _ _) as [[s' dets]|e] eqn:Hex.
      * apply execute_tool_returned in Hex as (Hd' & Hl' & Hv' & Hf').
        apply IH. repeat split.
        -- cbn. rewrite Hd'. cbn. rewrite Hd. now rewrite <- app_assoc.
        -- cbn [extend vlm_calls]. rewrite Hv'. cbn [log vlm_calls]. rewrite Hv.
           unfold crop_executions at 2. cbn [extend agent_log]. rewrite Hl'.
           fold (crop_executions (log (LogTool iteration name input) s)).
           rewrite crop_executions_log. cbn [is_crop_entry].
           destruct (String.eqb name "crop_and_inspect"); lia.
        -- apply List.Forall_app. split; assumption.
      * cbn. apply execute_tool_raised in Hex as [Hname Hv'].
        split; [|split; [lia|exact Hv']].
        rewrite crop_executions_log. cbn [is_crop_entry log vlm_calls].
        rewrite Hname. lia.
Qed.

Definition loop_ok (r : loop_end) : Prop :=
  match r with
  | LoopDone s nd err =>
      consistent s nd
      /\ forall m, err = Some m -> exists i e, model i = Raised e /\ exn_msg e = m
  | LoopFinalized s nd _ => consistent s nd
  | LoopRaised s e =>
      Z.of_nat (crop_executions s) = vlm_calls s + 1
      /\ 0 <= vlm_calls s
      /\ exists k box a, vision k box a = ApiFailure e
  end.

Lemma loop_consistent iterations s nd :
  consistent s nd ->
  loop_ok (loop cfg render_size model vision iterations s nd).
Proof.
  revert s nd. induction iterations as [|i rest IH]; intros s nd Hc; cbn [loop].
  - split; [exact Hc|discriminate].
  - destruct (max_vlm_calls_phase3 cfg - vlm_calls s <=? 0);
      [split; [exact Hc|discriminate]|].
    destruct (model i) as [r|e] eqn:Hr.
    + destruct (tool_uses_of (content r)) as [|tu tus] eqn:Htu.
      * destruct (String.eqb (stop_reason r) "end_turn");
          [split; [exact Hc|discriminate]|now apply IH].
      * pose proof (exec_tools_consistent i (tu :: tus) s nd Hc) as Ht.
        destruct (exec_tools cfg render_size vision i (tu :: tus) s nd)
          as [s' nd'|s' nd' sm|s' e]; cbn in Ht |- *; auto.
    + split; [exact Hc|]. intros m E. injection E as <-. eauto.
Qed.

Lemma init_consistent : consistent (init coarse) [].
Proof.
  unfold consistent, init. cbn. rewrite app_nil_r. repeat split. constructor.
Qed.

End Invariants.

(** X9. The state in which [run] leaves the orchestrator agrees with the
    [PhaseResult] it returns: the running detection list is the coarse list
    followed by the detections of the phase, the reported number of calls is
    the call counter and equals the number of [crop_and_inspect] entries of
    the log, and every detection of the phase is tagged [source_phase = 3],
    not on a boundary, without source cell, with a label that passes the
    filter. *)
Theorem run_result_matches_state (cfg : PipelineConfig) (render_size : Z -> Z * Z)
    (model : Z -> outcome response) (vision : Z -> Z * Z * Z * Z -> nat -> api_reply)
    (elapsed : Q) (coarse : list Detection) (p : PhaseResult) :
  let r := run cfg render_size model vision elapsed (init coarse) in
  r.2 = Returned p ->
  detections r.1 = (coarse ++ phase_detections p)%list
  /\ phase_vlm_calls p = vlm_calls r.1
  /\ vlm_calls r.1 = Z.of_nat (crop_executions r.1)
  /\ List.Forall (refined cfg) (phase_detections p)
  /\ phase p = 3.
Proof.
  cbv zeta. unfold run.
  destruct (max_vlm_calls_phase3 cfg <=? 0).
  - cbn. intros E. injection E as <-. cbn. rewrite app_nil_r.
    repeat split. constructor.
  - pose proof (loop_consistent cfg render_size model vision coarse
                  (range (max_agent_iterations cfg)) (init coarse) []
                  (init_consistent cfg coarse)) as Hl.
    destruct (loop _ _ _ _ _ _ _) as [s nd err|s nd sm|s e]; cbn in Hl |- *;
      intros E; try discriminate; injection E as <-; cbn.
    + destruct Hl as ((Hd & Hv & Hf) & _). repeat split; assumption.
    + destruct Hl as (Hd & Hv & Hf). repeat split; assumption.
Qed.

Lemma run_result_matches_state_witness :
  vlm_calls (run AgentFacts.budget_one (fun _ => (1000, 800)) AgentFacts.greedy_model
               AgentFacts.quiet_vision 0%Q (init [SynthFacts.far_a])).1
  = Z.of_nat (crop_executions
                (run AgentFacts.budget_one (fun _ => (1000, 800)) AgentFacts.greedy_model
                   AgentFacts.quiet_vision 0%Q (init [SynthFacts.far_a])).1).
Proof.
  destruct (run_result_matches_state AgentFacts.budget_one (fun _ => (1000, 800))
              AgentFacts.greedy_model AgentFacts.quiet_vision 0%Q [SynthFacts.far_a]
              _ eq_refl) as (_ & _ & H & _).
  exact H.
Defined.





(** X11. When no response of the model holds more than [K]
    [crop_and_inspect] calls, [run] ends with at most [N - 1 + K] counted
    calls for a budget [N = max_vlm_calls_phase3 >= 1], and with none for a
    budget below one; with at most one crop per response the budget is
    kept. *)
Theorem run_call_bound (cfg : PipelineConfig) (render_size : Z -> Z * Z)
    (model : Z -> outcome response) (vision : Z -> Z * Z * Z * Z -> nat -> api_reply)
    (elapsed : Q) (coarse : list Detection) (K : Z) :
  0 <= K ->
  (forall i r, model i = Returned r ->
               AgentFacts.crops_in (tool_uses_of (content r)) <= K) ->
  let calls := vlm_calls (run cfg render_size model vision elapsed (init coarse)).1 in
  0 <= calls
  /\ (max_vlm_calls_phase3 cfg <= 0 -> calls = 0)
  /\ (1 <= max_vlm_calls_phase3 cfg -> calls <= max_vlm_calls_phase3 cfg - 1 + K)
  /\ (K <= 1 -> calls <= Z.max 0 (max_vlm_calls_phase3 cfg)).
Proof.
  intros HK Hmodel. cbv zeta. unfold run.
  destruct (Z.leb_spec (max_vlm_calls_phase3 cfg) 0) as [Hn|Hn]; [cbn; lia|].
  pose proof (AgentFacts.loop_calls cfg render_size model vision K
                (range (max_agent_iterations cfg)) (init coarse) [] HK Hmodel) as Hup.
  pose proof (loop_consistent cfg render_size model vision coarse
                (range (max_agent_iterations cfg)) (init coarse) []
                (init_consistent cfg coarse)) as Hl.
  destruct (loop _ _ _ _ _ _ _) as [s nd err|s nd sm|s e]; cbn in Hup, Hl |- *.
  - destruct Hl as ((_ & Hv & _) & _). lia.
  - destruct Hl as (_ & Hv & _). lia.
  - destruct Hl as (Hv & H0 & _). lia.
Qed.

Lemma run_call_bound_witness :
  vlm_calls (run AgentFacts.budget_one (fun _ => (1000, 800)) AgentFacts.greedy_model
               AgentFacts.quiet_vision 0%Q (init [])).1 <= 1 - 1 + 3.
Proof.
  apply (run_call_bound AgentFacts.budget_one (fun _ => (1000, 800))
           AgentFacts.greedy_model AgentFacts.quiet_vision 0%Q [] 3); [lia| |cbn; lia].
  intros i r. unfold AgentFacts.greedy_model.
  destruct (i =? 0); intros E; injection E as <-; vm_compute; discriminate.
Defined.

(** X12. [finalize] ends the turn at once: the tool calls that follow it
    in the same response are neither executed nor logged, and a turn that
    contains [finalize] never runs to its end. *)
Theorem finalize_ends_turn (cfg : PipelineConfig) (render_size : Z -> Z * Z)
    (vision : Z -> Z * Z * Z * Z -> nat -> api_reply) (iteration : Z)
    (before after : list (string * tool_input)) (input : tool_input)
    (self : state) (new_detections : list Detection) :
  exec_tools cfg render_size vision iteration
    (before ++ ("finalize", input) :: after) self new_detections
  = exec_tools cfg render_size vision iteration
      (before ++ [("finalize", input)]) self new_detections
  /\ forall s nd,
       exec_tools cfg render_size vision iteration
         (before ++ ("finalize", input) :: after) self new_detections
       <> TurnDone s nd.
Proof.
  revert self new_detections.
  induction before as [|[name inp] before IH]; intros self nd.
  - cbn. split; [reflexivity|discriminate].
  - cbn [app exec_tools]. destruct (String.eqb name "finalize").
    + split; [reflexivity|discriminate].
    + destruct (_execute_tool _ _ _ _ _ _) as [[s' dets]|e].
      * apply IH.
      * split; [reflexivity|discriminate].
Qed.





End AgentExtra.

(** ** Synthesis: what the deduplication keeps *)

Module SynthExtra.
Import Synthesize.

Lemma StronglySorted_sublist {A} (R : A -> A -> Prop) (l k : list A) :
  sublist l k -> StronglySorted R k -> StronglySorted R l.
Proof.
  induction 1 as [|x l k Hs IH|x l k Hs IH]; intros Hk.
  - constructor.
  - apply StronglySorted_inv in Hk as [Hk Hall]. constructor; [now apply IH|].
    rewrite List.Forall_forall in *. intros y Hy. apply Hall.
    apply list_elem_of_In. eapply elem_of_sublist; [|exact Hs]. now apply list_elem_of_In.
  - apply StronglySorted_inv in Hk as [Hk _]. now apply IH.
Qed.

(** The detections kept by the loop, in the order of the sorted input. *)
Lemma dedup_sublist radius sorted_dets kept duplicates :
  exists added,
    (dedup radius sorted_dets kept duplicates).1 = (kept ++ added)%list
    /\ sublist added sorted_dets.
Proof.
  revert kept duplicates.
  induction sorted_dets as [|det rest IH]; intros kept duplicates; cbn [dedup].
  - exists []. cbn. rewrite app_nil_r. split; [reflexivity|constructor].
  - destruct (is_dup radius kept det).
    + destruct (IH kept (S duplicates)) as (added & E & Hs).
      exists added. split; [exact E|now constructor].
    + destruct (IH (kept ++ [det])%list duplicates) as (added & E & Hs).
      exists (det :: added). rewrite E, <- app_assoc. split; [reflexivity|now constructor].
Qed.

Lemma kept_sublist cfg dets :
  sublist (dedup (dedup_radius_px cfg) (Py.sorted_reverse key_ltb dets) [] 0).1
          (Py.sorted_reverse key_ltb dets).
Proof.
  destruct (dedup_sublist (dedup_radius_px cfg) (Py.sorted_reverse key_ltb dets) [] 0)
    as (added & E & Hs).
  rewrite E. exact Hs.
Qed.

Lemma kept_submseteq cfg dets :
  (dedup (dedup_radius_px cfg) (Py.sorted_reverse key_ltb dets) [] 0).1 ⊆+ dets.
Proof.
  etransitivity; [apply sublist_submseteq, kept_sublist|].
  apply Permutation_submseteq, PyFacts.sorted_reverse_perm.
Qed.

(** X14. Deduplication only drops detections: the kept detections are
    input detections (as a multiset, with multiplicity), they stand in
    descending order of the sort key, and the number kept plus the number
    of duplicates removed is the size of the input. *)
Theorem kept_detections_come_from_input (set_order : gset string -> list string)
    (dets : list Detection) (cfg : PipelineConfig) (context : option DrawingContext) :
  let rep := synthesize set_order dets cfg context in
  detections rep ⊆+ dets
  /\ (forall d, In d (detections rep) -> In d dets)
  /\ StronglySorted SynthFacts.key_ge (detections rep)
  /\ (total rep + duplicates_removed rep = length dets)%nat.
Proof.
  cbv zeta.
  destruct (SynthFacts.synthesize_fields set_order dets cfg context) as (Hd & _).
  pose proof (kept_sublist cfg dets) as Hs.
  pose proof (SynthFacts.sorted_dets_descending dets) as [Hp Hsorted].
  assert (Hsub : detections (synthesize set_order dets cfg context) ⊆+ dets).
  { rewrite Hd. apply kept_submseteq. }
  split; [exact Hsub|]. split; [|split].
  - intros d Hin. apply list_elem_of_In. apply list_elem_of_In in Hin.
    eapply elem_of_submseteq; eassumption.
  - rewrite Hd. eapply StronglySorted_sublist; eassumption.
  - apply SynthFacts.report_accounts_for_input.
Qed.

(** Every earlier detection of the sorted list has a key that is not
    lower. *)
Lemma dedup_survivor radius sorted_dets kept duplicates :
  StronglySorted SynthFacts.key_ge sorted_dets ->
  (forall e d, In e kept -> In d sorted_dets -> SynthFacts.key_ge e d) ->
  forall d, In d sorted_dets ->
    In d (dedup radius sorted_dets kept duplicates).1
    \/ exists e, In e (dedup radius sorted_dets kept duplicates).1
                 /\ SynthFacts.close radius e d /\ SynthFacts.key_ge e d.
Proof.
  revert kept duplicates.
  induction sorted_dets as [|det rest IH]; intros kept duplicates Hs Hk d Hin;
    [destruct Hin|].
  apply StronglySorted_inv in Hs as [Hs Hall]. rewrite List.Forall_forall in Hall.
  cbn [dedup]. destruct (is_dup radius kept det) eqn:Hdup.
  - destruct Hin as [<-|Hin].
    + right. apply SynthFacts.is_dup_spec in Hdup as (e & He & Hclose).
      exists e. split; [|split; [exact Hclose|apply Hk; [exact He|now left]]].
      destruct (dedup_sublist radius rest kept (S duplicates)) as (added & -> & _).
      apply in_or_app. now left.
    + apply IH; auto. intros e d' He Hd'. apply Hk; [exact He|now right].
  - destruct Hin as [<-|Hin].
    + left. destruct (dedup_sublist radius rest (kept ++ [det])%list duplicates)
        as (added & -> & _).
      apply in_or_app. left. apply in_or_app. right. now left.
    + apply IH; auto. intros e d' He Hd'. apply in_app_or in He as [He|[<-|[]]].
      * apply Hk; [exact He|now right].
      * now apply Hall.
Qed.

(** X15. No input detection is lost without a stand-in: each one is
    either kept or lies within the radius (same label, both axes) of a kept
    detection whose (confidence rank, phase) key is not lower. *)
Theorem dropped_detection_has_survivor (set_order : gset string -> list string)
    (dets : list Detection) (cfg : PipelineConfig) (context : option DrawingContext)
    (d : Detection) :
  let rep := synthesize set_order dets cfg context in
  In d dets ->
  In d (detections rep)
  \/ exists e, In e (detections rep)
               /\ label e = label d
               /\ Z.abs (x e - x d) < dedup_radius_px cfg
               /\ Z.abs (y e - y d) < dedup_radius_px cfg
               /\ Py.pair_ltb (sort_key e) (sort_key d) = false.
Proof.
  cbv zeta. intros Hin.
  destruct (SynthFacts.synthesize_fields set_order dets cfg context) as (Hd & _).
  rewrite Hd.
  pose proof (SynthFacts.sorted_dets_descending dets) as [Hp Hsorted].
  assert (Hin' : In d (Py.sorted_reverse key_ltb dets)).
  { eapply Permutation_in; [symmetry; exact Hp|exact Hin]. }
  destruct (dedup_survivor (dedup_radius_px cfg) (Py.sorted_reverse key_ltb dets) [] 0
              Hsorted ltac:(intros e d' []) d Hin') as [H|(e & He & (Hl & Hx & Hy) & Hk)].
  - now left.
  - right. exists e. repeat split; assumption.
Qed.

Lemma dropped_detection_has_survivor_witness :
  exists e, In e (detections (synthesize elements
                                [SynthFacts.lo_det 49 49; SynthFacts.hi_det]
                                GridFacts.default_cfg None))
            /\ label e = "LT04" /\ confidence e = "HIGH".
Proof.
  destruct (dropped_detection_has_survivor elements
              [SynthFacts.lo_det 49 49; SynthFacts.hi_det] GridFacts.default_cfg None
              SynthFacts.hi_det (or_intror (or_introl eq_refl)))
    as [H|(e & He & _)].
  - exists SynthFacts.hi_det. split; [exact H|split; reflexivity].
  - exists SynthFacts.hi_det. split; [left; reflexivity|split; reflexivity].
Defined.

(** A list already in the order of the comparison is left as it is. *)
Lemma sorted_of_sorted {A} (lt : A -> A -> bool) (l : list A) :
  StronglySorted (PyFacts.le lt) l -> Py.sorted lt l = l.
Proof.
  induction 1 as [|x l Hs IH Hall]; [reflexivity|].
  cbn. fold (Py.sorted lt l). rewrite IH.
  destruct l as [|y l']; [reflexivity|]. cbn.
  apply List.Forall_inv in Hall. unfold PyFacts.le in Hall. now rewrite Hall.
Qed.

Lemma sorted_reverse_of_descending l :
  StronglySorted SynthFacts.key_ge l -> Py.sorted_reverse key_ltb l = l.
Proof.
  intros Hs. unfold Py.sorted_reverse.
  rewrite sorted_of_sorted; [apply rev_involutive|].
  apply (PyFacts.StronglySorted_rev SynthFacts.key_ge) in Hs. exact Hs.
Qed.

Lemma dedup_of_separated radius l kept duplicates :
  SynthFacts.separated radius (kept ++ l) ->
  dedup radius l kept duplicates = ((kept ++ l)%list, duplicates).
Proof.
  revert kept. induction l as [|det rest IH]; intros kept Hsep; cbn [dedup].
  - now rewrite app_nil_r.
  - assert (Hnd : is_dup radius kept det = false).
    { apply SynthFacts.is_dup_false. intros e He Hclose.
      apply In_nth_error in He as [i Hi].
      assert (Hlt : (i < length kept)%nat) by (apply nth_error_Some; congruence).
      apply (Hsep i (length kept) e det).
      - lia.
      - rewrite nth_error_app1; [exact Hi|exact Hlt].
      - rewrite nth_error_app2 by lia. now rewrite Nat.sub_diag.
      - exact Hclose. }
    rewrite Hnd. rewrite IH; rewrite <- app_assoc; [reflexivity|exact Hsep].
Qed.

Lemma kept_separated cfg dets :
  SynthFacts.separated (dedup_radius_px cfg)
    (dedup (dedup_radius_px cfg) (Py.sorted_reverse key_ltb dets) [] 0).1.
Proof.
  pose proof (SynthFacts.dedup_spec (dedup_radius_px cfg)
                (Py.sorted_reverse key_ltb dets) [] 0) as H.
  destruct (dedup _ _ _ _) as [kept dups]. destruct H as (_ & Hsep & _).
  apply Hsep, SynthFacts.separated_nil.
Qed.

Lemma kept_nonempty cfg d dets :
  (dedup (dedup_radius_px cfg) (Py.sorted_reverse key_ltb (d :: dets)) [] 0).1 <> [].
Proof.
  pose proof (SynthFacts.dedup_spec (dedup_radius_px cfg)
                (Py.sorted_reverse key_ltb (d :: dets)) [] 0) as H.
  destruct (dedup _ _ _ _) as [kept dups]. destruct H as (_ & _ & _ & Hcov). cbn.
  assert (Hin : In d (Py.sorted_reverse key_ltb (d :: dets))).
  { eapply Permutation_in; [symmetry; apply PyFacts.sorted_reverse_perm|now left]. }
  destruct (Hcov d Hin) as [H|(e & H & _)]; intros ->; destruct H.
Qed.

(** X16. Running [synthesize] on the detections of its own report changes
    nothing: the same detections in the same order, the same counts, total
    and warnings come back, and no duplicate is removed. *)
Theorem synthesize_idempotent (set_order : gset string -> list string)
    (dets : list Detection) (cfg : PipelineConfig) (context : option DrawingContext) :
  let rep := synthesize set_order dets cfg context in
  synthesize set_order (detections rep) cfg context
  = {| final_counts := final_counts rep; total := total rep;
       detections := detections rep; duplicates_removed := 0;
       pattern_warnings := pattern_warnings rep |}.
Proof.
  cbv zeta. destruct dets as [|d dets]; [reflexivity|].
  rewrite (SynthFacts.synthesize_cons set_order d dets). cbv zeta.
  cbn [detections final_counts total pattern_warnings].
  set (kept := (dedup (dedup_radius_px cfg) (Py.sorted_reverse key_ltb (d :: dets)) [] 0).1).
  assert (Hne : kept <> []) by apply kept_nonempty.
  assert (Hsorted : StronglySorted SynthFacts.key_ge kept).
  { eapply StronglySorted_sublist; [apply kept_sublist|].
    apply SynthFacts.sorted_dets_descending. }
  assert (Hsep : SynthFacts.separated (dedup_radius_px cfg) kept) by apply kept_separated.
  assert (Hk : dedup (dedup_radius_px cfg) (Py.sorted_reverse key_ltb kept) [] 0
               = (kept, 0%nat)).
  { rewrite (sorted_reverse_of_descending kept Hsorted).
    now rewrite (dedup_of_separated (dedup_radius_px cfg) kept [] 0 Hsep). }
  destruct kept as [|k ks] eqn:Ek; [contradiction|].
  rewrite (SynthFacts.synthesize_cons set_order k ks). cbv zeta. rewrite Hk.
  reflexivity.
Qed.

Lemma near_nonpositive radius a b : radius <= 0 -> near radius a b = false.
Proof.
  intros Hr. apply not_true_iff_false. intros H.
  apply SynthFacts.near_spec in H as (_ & Hx & _). lia.
Qed.

Lemma dedup_nonpositive radius l kept duplicates :
  radius <= 0 -> dedup radius l kept duplicates = ((kept ++ l)%list, duplicates).
Proof.
  intros Hr. revert kept. induction l as [|det rest IH]; intros kept; cbn [dedup].
  - now rewrite app_nil_r.
  - assert (Hnd : is_dup radius kept det = false).
    { unfold is_dup. induction kept as [|e kept IHk]; [reflexivity|].
      cbn. now rewrite (near_nonpositive radius e det Hr). }
    rewrite Hnd, IH, <- app_assoc. reflexivity.
Qed.

(** X17. With a dedup radius of zero or less nothing is merged: the report
    holds every input detection, in descending order of the sort key, and
    counts no duplicate. *)
Theorem nonpositive_radius_keeps_all (set_order : gset string -> list string)
    (dets : list Detection) (cfg : PipelineConfig) (context : option DrawingContext) :
  dedup_radius_px cfg <= 0 ->
  let rep := synthesize set_order dets cfg context in
  detections rep = Py.sorted_reverse key_ltb dets
  /\ Permutation (detections rep) dets
  /\ duplicates_removed rep = 0%nat
  /\ total rep = length dets.
Proof.
  intros Hr. cbv zeta.
  destruct (SynthFacts.synthesize_fields set_order dets cfg context) as (Hd & Hn & Ht & _).
  rewrite Hd, Hn, Ht, (dedup_nonpositive _ _ [] 0 Hr). cbn.
  split; [reflexivity|]. split; [apply PyFacts.sorted_reverse_perm|].
  split; [reflexivity|]. apply Permutation_length, PyFacts.sorted_reverse_perm.
Qed.

Definition zero_radius_cfg : PipelineConfig :=
  {| coarse_dpi := 150; coarse_grid_cols := 4; coarse_grid_rows := 3;
     refine_dpi := 216; max_agent_iterations := 20; max_vlm_calls_phase3 := 15;
     dedup_radius_px := 0; label_pattern := Re.default_label_pattern;
     label_prefix := "LT"; work_dir := "work" |}.

Lemma nonpositive_radius_keeps_all_witness :
  total (synthesize elements [SynthFacts.hi_det; SynthFacts.hi_det] zero_radius_cfg None)
  = 2%nat.
Proof.
  apply (nonpositive_radius_keeps_all elements [SynthFacts.hi_det; SynthFacts.hi_det]
           zero_radius_cfg None). cbn. lia.
Defined.

Lemma filter_length_submseteq {A} (f : A -> bool) (l k : list A) :
  l ⊆+ k -> (length (List.filter f l) <= length (List.filter f k))%nat.
Proof.
  induction 1 as [|x l1 l2 _ IH|x y l|x l1 l2 _ IH|l1 l2 l3 _ IH1 _ IH2]; cbn.
  - lia.
  - destruct (f x); cbn; lia.
  - destruct (f x), (f y); cbn; lia.
  - destruct (f x); cbn; lia.
  - lia.
Qed.

(** X18. Deduplication never removes a label: the keys of [final_counts]
    are exactly the labels of the input detections, each with a count of at
    least one and at most its number of occurrences in the input. *)
Theorem labels_survive_deduplication (set_order : gset string -> list string)
    (dets : list Detection) (cfg : PipelineConfig) (context : option DrawingContext)
    (l : string) :
  let rep := synthesize set_order dets cfg context in
  (In l (map fst (final_counts rep)) <-> In l (map label dets))
  /\ (In l (map label dets) ->
      (1 <= Py.get_count l (final_counts rep)
       <= length (List.filter (fun d => String.eqb l (label d)) dets))%nat).
Proof.
  cbv zeta.
  destruct (SynthFacts.synthesize_fields set_order dets cfg context) as (Hd & _ & _ & Hf).
  set (kept := (dedup (dedup_radius_px cfg) (Py.sorted_reverse key_ltb dets) [] 0).1) in *.
  destruct (CounterFacts.Counter_spec (map label kept)) as (Hget & Hnd & _).
  pose proof (PyFacts.sorted_perm Py.item_ltb (Py.Counter (map label kept))) as Hperm.
  assert (Hsub : kept ⊆+ dets) by apply kept_submseteq.
  assert (Hlab : In l (map label kept) <-> In l (map label dets)).
  { split.
    - intros H. apply in_map_iff in H as (d & <- & Hin). apply in_map.
      apply list_elem_of_In. eapply elem_of_submseteq; [|exact Hsub].
      now apply list_elem_of_In.
    - intros H. apply in_map_iff in H as (d & <- & Hin).
      assert (Hin' : In d (Py.sorted_reverse key_ltb dets)).
      { eapply Permutation_in; [symmetry; apply PyFacts.sorted_reverse_perm|exact Hin]. }
      pose proof (SynthFacts.dedup_spec (dedup_radius_px cfg)
                    (Py.sorted_reverse key_ltb dets) [] 0) as Hspec.
      fold kept in Hspec. unfold kept in *.
      destruct (dedup _ _ _ _) as [kp dups]. cbn in *.
      destruct Hspec as (_ & _ & _ & Hcov).
      destruct (Hcov d Hin') as [Hk|(e & He & (Hl & _))].
      + now apply in_map.
      + rewrite <- Hl. now apply in_map. }
  assert (Hcount : Py.get_count l (final_counts (synthesize set_order dets cfg context))
                   = length (List.filter (fun d => String.eqb l (label d)) kept)).
  { rewrite Hf. rewrite <- (CounterFacts.get_count_perm l _ _ (Permutation_sym Hperm)).
    - rewrite Hget. apply SynthFacts.tally_labels.
    - eapply Permutation_NoDup; [|exact Hnd]. apply Permutation_map. now symmetry. }
  split.
  - rewrite Hf, <- Hlab, <- (SynthFacts.In_keys_Counter l (map label kept)).
    split; apply Permutation_in; [now apply Permutation_map|].
    apply Permutation_map. now symmetry.
  - intros Hin. rewrite Hcount. apply Hlab in Hin.
    apply in_map_iff in Hin as (d & Hl & Hd'). split.
    + assert (Hf' : In d (List.filter (fun d => String.eqb l (label d)) kept)).
      { apply filter_In. split; [exact Hd'|]. rewrite Hl. apply String.eqb_refl. }
      destruct (List.filter _ kept); [destruct Hf'|cbn; lia].
    + now apply filter_length_submseteq.
Qed.

Lemma labels_survive_deduplication_witness :
  (1 <= Py.get_count "LT04"
          (final_counts (synthesize elements [SynthFacts.lo_det 49 49; SynthFacts.hi_det]
                           GridFacts.default_cfg None)) <= 2)%nat.
Proof.
  apply (labels_survive_deduplication elements [SynthFacts.lo_det 49 49; SynthFacts.hi_det]
           GridFacts.default_cfg None "LT04"). left. reflexivity.
Defined.

End SynthExtra.

(** ** Phase 1: parsing the reply and building the context *)

Module ContextExtra.
Import Context.

(** X19. [from_dict] undoes [to_dict]: a context written out as a dict
    and read back is the same context. *)
Theorem from_dict_to_dict (c : context_object) : from_dict (to_dict c) = Returned c.
Proof. destruct c. reflexivity. Qed.

Definition field_names : list string :=
  ["sheet_number"; "sheet_title"; "building_type"; "floor_level"; "suites";
   "corridor_layout"; "stairs"; "elevators"; "title_block"; "fixture_types_visible"].

(** X20. [from_dict] accepts every JSON object: it reads the ten known
    keys, gives a missing key its default, and ignores all other keys; the
    empty object gives the default context. *)
Theorem from_dict_reads_known_keys (fields fields' : list (string * json)) :
  (exists c, from_dict (JObj fields) = Returned c)
  /\ ((forall k, In k field_names -> assoc k fields = assoc k fields') ->
      from_dict (JObj fields) = from_dict (JObj fields'))
  /\ from_dict (JObj []) = Returned default_context.
Proof.
  split; [eexists; reflexivity|]. split; [|reflexivity].
  intros H. unfold from_dict, field_of. cbn [mbind outcome_bind].
  now rewrite !H by (cbn; tauto).
Qed.

Lemma from_dict_reads_known_keys_witness :
  from_dict (JObj [("suites", JArr []); ("scale", JStr "1:100")])
  = from_dict (JObj [("suites", JArr [])]).
Proof.
  refine (proj1 (proj2 (from_dict_reads_known_keys
                          [("suites", JArr []); ("scale", JStr "1:100")]
                          [("suites", JArr [])])) _).
  intros k Hk. cbn in Hk. intuition (subst; reflexivity).
Defined.

(** X21. A parsed reply that is not an object never becomes a context of
    its own: [from_dict] raises (the [try] block turns that into the
    default context with an error) or returns the default context. *)
Theorem from_dict_non_object (data : json) (c : context_object) :
  (forall fields, data <> JObj fields) ->
  from_dict data = Returned c -> c = default_context.
Proof.
  intros Hno. unfold from_dict.
  destruct data as [|b|n|q|s|items|fields]; try discriminate.
  - cbn. repeat (match goal with
                 | |- context [Str.contains ?k s] => destruct (Str.contains k s)
                 end; cbn; try discriminate).
    intros E. now injection E as <-.
  - cbn. repeat (match goal with
                 | |- context [existsb ?f items] => destruct (existsb f items)
                 end; cbn; try discriminate).
    intros E. now injection E as <-.
  - exfalso. now apply (Hno fields).
Qed.

Lemma from_dict_non_object_witness :
  from_dict (JArr [JStr "no labels visible"]) = Returned default_context
  /\ default_context = default_context.
Proof.
  split; [reflexivity|].
  apply (from_dict_non_object (JArr [JStr "no labels visible"]) default_context);
    [intros fields; discriminate|reflexivity].
Defined.

(** X22. The only exception that leaves [extract_context] is the
    [TypeError] of the final log line, raised when the [try] block ended
    normally with a context whose [suites] or [fixture_types_visible] has
    no length. Whenever it returns, the phase result is that of phase 1 with
    no detections and at most one call; an error is recorded exactly when
    the [try] block raised, and then the context is the default one and the
    metadata stay empty; otherwise the metadata hold the context. *)
Theorem extract_context_outcome (json_loads : string -> option json)
    (img_b64 : outcome string) (api : string -> outcome response) (elapsed : Q) :
  match extract_context json_loads img_b64 api elapsed with
  | Returned (c, p) =>
      phase p = 1 /\ phase_detections p = [] /\ duration_s p = elapsed
      /\ (phase_vlm_calls p = 0 \/ phase_vlm_calls p = 1)
      /\ phase_vlm_calls p = (try_block json_loads img_b64 api).1
      /\ match (try_block json_loads img_b64 api).2 with
         | Raised e =>
             error p = Some (exn_msg e) /\ c = default_context
             /\ phase_metadata p = MetaEmpty
         | Returned c' =>
             error p = None /\ c = c'
             /\ phase_metadata p = MetaContext (JObj [("context", to_dict c)])
         end
  | Raised e =>
      exn_class e = "TypeError"
      /\ exists c, try_block json_loads img_b64 api = (1, Returned c)
                   /\ (len (o_suites c) = Raised e
                       \/ len (o_fixture_types_visible c) = Raised e)
  end.
Proof.
  assert (Hcalls : (try_block json_loads img_b64 api).1 = 0
                   \/ (try_block json_loads img_b64 api).1 = 1).
  { unfold try_block. destruct img_b64 as [img|e]; [|now left].
    destruct (api img); [now right|now left]. }
  assert (Hone : forall c, (try_block json_loads img_b64 api).2 = Returned c ->
                           (try_block json_loads img_b64 api).1 = 1).
  { unfold try_block. destruct img_b64 as [img|e]; [|discriminate].
    destruct (api img); [reflexivity|discriminate]. }
  unfold extract_context.
  destruct (try_block json_loads img_b64 api) as [calls [c|e]] eqn:Et; cbn in *.
  - unfold log_summary. destruct (len (o_suites c)) as [n1|e1] eqn:E1; cbn.
    + destruct (len (o_fixture_types_visible c)) as [n2|e2] eqn:E2; cbn.
      * repeat split; auto.
      * split.
        -- destruct (o_fixture_types_visible c); cbn in E2; try discriminate;
             injection E2 as <-; reflexivity.
        -- exists c. rewrite (Hone c eq_refl). auto.
    + split.
      * destruct (o_suites c); cbn in E1; try discriminate;
          injection E1 as <-; reflexivity.
      * exists c. rewrite (Hone c eq_refl). auto.
  - repeat split; auto.
Qed.

End ContextExtra.

(** ** Fenced replies *)

Module ParseExtra.
Import Context.

Definition backtick : ascii := "`"%char.

(** The character [c] occurs in [s]. *)
Fixpoint has_char (c : ascii) (s : string) : bool :=
  match s with
  | EmptyString => false
  | String c' s' => Ascii.eqb c c' || has_char c s'
  end.

Lemma split_once_eq sep s :
  split_once sep s =
  if String.prefix sep s then Some (EmptyString, Str.drop (String.length sep) s)
  else match s with
       | EmptyString => None
       | String c s' =>
           match split_once sep s' with
           | Some (before, after) => Some (String c before, after)
           | None => None
           end
       end.
Proof. destruct s; reflexivity. Qed.

Lemma contains_eq needle hay :
  Str.contains needle hay =
  String.prefix needle hay ||
  match hay with
  | EmptyString => false
  | String _ hay' => Str.contains needle hay'
  end.
Proof. destruct hay; reflexivity. Qed.

Lemma prefix_cons a s1 c s2 :
  String.prefix (String a s1) (String c s2) = Ascii.eqb a c && String.prefix s1 s2.
Proof.
  cbn [String.prefix]. destruct (ascii_dec a c) as [->|Hn].
  - now rewrite Ascii.eqb_refl.
  - destruct (Ascii.eqb_spec a c); [contradiction|reflexivity].
Qed.

Lemma prefix_other c a s1 s2 :
  Ascii.eqb a c = false -> String.prefix (String a s1) (String c s2) = false.
Proof.
  intros H. cbn. destruct (ascii_dec a c) as [->|_]; [|reflexivity].
  now rewrite Ascii.eqb_refl in H.
Qed.

Lemma prefix_app sep rest : String.prefix sep (sep +:+ rest) = true.
Proof.
  induction sep as [|c sep IH]; [destruct rest; reflexivity|].
  rewrite TextFacts.append_cons. cbn.
  destruct (ascii_dec c c); [exact IH|contradiction].
Qed.

Lemma drop_app sep rest : Str.drop (String.length sep) (sep +:+ rest) = rest.
Proof.
  induction sep as [|c sep IH]; [reflexivity|].
  rewrite TextFacts.append_cons. exact IH.
Qed.

Section Fences.
Variable sep' : string.

Lemma split_once_absent s :
  has_char backtick s = false -> split_once (String backtick sep') s = None.
Proof.
  induction s as [|c s IH]; [reflexivity|]. cbn [has_char]. intros H.
  apply orb_false_iff in H as [Hc Hs].
  rewrite split_once_eq. rewrite (prefix_other c backtick _ _ Hc).
  now rewrite (IH Hs).
Qed.

Lemma contains_absent s :
  has_char backtick s = false -> Str.contains (String backtick sep') s = false.
Proof.
  induction s as [|c s IH]; [reflexivity|]. cbn [has_char]. intros H.
  apply orb_false_iff in H as [Hc Hs].
  rewrite contains_eq. rewrite (prefix_other c backtick _ _ Hc).
  now rewrite (IH Hs).
Qed.

Lemma split_once_after pre rest :
  has_char backtick pre = false ->
  split_once (String backtick sep') (pre +:+ rest) =
  match split_once (String backtick sep') rest with
  | Some (before, after) => Some (pre +:+ before, after)
  | None => None
  end.
Proof.
  induction pre as [|c pre IH]; intros H.
  - change (EmptyString +:+ rest) with rest.
    destruct (split_once (String backtick sep') rest) as [[b a]|]; reflexivity.
  - cbn [has_char] in H. apply orb_false_iff in H as [Hc Hs].
    rewrite TextFacts.append_cons, split_once_eq. 
    rewrite (prefix_other c backtick _ _ Hc). rewrite (IH Hs).
    destruct (split_once (String backtick sep') rest) as [[b a]|]; reflexivity.
Qed.

Lemma split_once_found pre rest :
  has_char backtick pre = false ->
  split_once (String backtick sep') (pre +:+ (String backtick sep') +:+ rest) = Some (pre, rest).
Proof.
  intros H. rewrite (split_once_after pre _ H), split_once_eq.
  rewrite (prefix_app (String backtick sep') rest), (drop_app (String backtick sep') rest).
  now rewrite TextFacts.append_empty_r.
Qed.

Lemma contains_found pre rest : Str.contains (String backtick sep') (pre +:+ (String backtick sep') +:+ rest) = true.
Proof.
  induction pre as [|c pre IH].
  - change (EmptyString +:+ (String backtick sep') +:+ rest) with ((String backtick sep') +:+ rest).
    rewrite contains_eq, (prefix_app (String backtick sep') rest). reflexivity.
  - rewrite TextFacts.append_cons, contains_eq, IH. apply orb_true_r.
Qed.

Lemma split_0_after pre rest :
  has_char backtick pre = false ->
  split_0 (String backtick sep') (pre +:+ rest) = pre +:+ split_0 (String backtick sep') rest.
Proof.
  intros H. unfold split_0. rewrite (split_once_after pre rest H).
  destruct (split_once (String backtick sep') rest) as [[b a]|]; reflexivity.
Qed.
End Fences.

(** The text begins with the character [c]. *)
Definition begins_with (c : ascii) (s : string) : bool :=
  match s with
  | EmptyString => false
  | String c' _ => Ascii.eqb c c'
  end.

Lemma split_0_fence_here rest : split_0 fence (fence +:+ rest) = EmptyString.
Proof.
  unfold split_0. rewrite split_once_eq, (prefix_app fence rest). reflexivity.
Qed.

(** After the closing fence, what [split("```json")] leaves is empty or
    begins with the fence itself. *)
Lemma closing_fence post :
  begins_with backtick post = false ->
  split_0 fence (split_0 fence_json (fence +:+ post)) = EmptyString.
Proof.
  intros H. destruct post as [|c p]; [reflexivity|].
  cbn [begins_with] in H.
  unfold split_0 at 2.
  change (fence +:+ String c p)
    with (String backtick (String backtick (String backtick (String c p)))).
  rewrite split_once_eq.
  destruct (String.prefix fence_json _); [reflexivity|].
  assert (Hno : forall s, String.prefix fence_json (String backtick (String c s)) = false).
  { intros s. change fence_json with (String backtick (String backtick "`json")).
    now rewrite !prefix_cons, H, andb_false_r. }
  assert (Hno' : String.prefix fence_json
                   (String backtick (String backtick (String c p))) = false).
  { change fence_json with (String backtick (String backtick (String backtick "json"))).
    now rewrite !prefix_cons, H, !andb_false_r. }
  rewrite (split_once_eq _ (String backtick (String backtick (String c p)))), Hno'.
  rewrite (split_once_eq _ (String backtick (String c p))), Hno.
  destruct (split_once fence_json (String c p)) as [[b a]|];
    [apply (split_0_fence_here b)|apply (split_0_fence_here (String c p))].
Qed.

Lemma fence_json_found pre rest :
  Str.contains fence_json (pre +:+ fence_json +:+ rest) = true.
Proof. exact (contains_found _ pre rest). Qed.

Lemma fence_found pre rest : Str.contains fence (pre +:+ fence +:+ rest) = true.
Proof. exact (contains_found _ pre rest). Qed.

Lemma split_fence_json pre rest :
  has_char backtick pre = false ->
  split_once fence_json (pre +:+ fence_json +:+ rest) = Some (pre, rest).
Proof. exact (split_once_found _ pre rest). Qed.

Lemma split_fence pre rest :
  has_char backtick pre = false ->
  split_once fence (pre +:+ fence +:+ rest) = Some (pre, rest).
Proof. exact (split_once_found _ pre rest). Qed.

Lemma split_0_fence_json_after pre rest :
  has_char backtick pre = false ->
  split_0 fence_json (pre +:+ rest) = pre +:+ split_0 fence_json rest.
Proof. exact (split_0_after _ pre rest). Qed.

Lemma split_0_fence_after pre rest :
  has_char backtick pre = false ->
  split_0 fence (pre +:+ rest) = pre +:+ split_0 fence rest.
Proof. exact (split_0_after _ pre rest). Qed.

Lemma no_fence_json s :
  has_char backtick s = false -> Str.contains fence_json s = false.
Proof. exact (contains_absent _ s). Qed.

Lemma no_fence s : has_char backtick s = false -> Str.contains fence s = false.
Proof. exact (contains_absent _ s). Qed.

Lemma split_0_no_fence s : has_char backtick s = false -> split_0 fence s = s.
Proof.
  intros H. unfold split_0.
  now rewrite (split_once_absent _ s H : split_once fence s = None).
Qed.

Section Parse.
Variable json_loads : string -> option json.

Lemma parse_unfenced body :
  has_char backtick body = false ->
  _parse_json json_loads body =
  match json_loads (Str.strip body) with
  | Some v => Some v
  | None =>
      match search_braces (Str.strip body) with
      | Some m => json_loads m
      | None => None
      end
  end.
Proof.
  intros H. unfold _parse_json.
  now rewrite (no_fence_json body H), (no_fence body H).
Qed.

(** X23: a reply that wraps its JSON in one [```json] fence is parsed as
    the text between the fences: when neither the text before the fence nor
    the fenced text holds a backtick, and the text after the closing fence
    does not begin with one, [_parse_json] gives what it gives on the
    fenced text alone. *)
Theorem json_fence_is_stripped pre body post :
  has_char backtick pre = false ->
  has_char backtick body = false ->
  begins_with backtick post = false ->
  _parse_json json_loads (pre +:+ fence_json +:+ body +:+ fence +:+ post)
  = _parse_json json_loads body.
Proof.
  intros Hpre Hbody Hpost. rewrite (parse_unfenced body Hbody).
  unfold _parse_json. rewrite fence_json_found. unfold split_1.
  rewrite (split_fence_json pre _ Hpre).
  rewrite (split_0_fence_json_after body _ Hbody).
  rewrite (split_0_fence_after body _ Hbody).
  rewrite (closing_fence post Hpost), TextFacts.append_empty_r.
  reflexivity.
Qed.

(** X24: a reply that wraps its JSON in a plain [```] fence is parsed as
    the text between the first two fences: when the reply nowhere holds
    [```json], and neither the text before the fence nor the fenced text
    holds a backtick, [_parse_json] gives what it gives on the fenced text
    alone, whatever follows the closing fence. *)
Theorem plain_fence_is_stripped pre body post :
  has_char backtick pre = false ->
  has_char backtick body = false ->
  Str.contains fence_json (pre +:+ fence +:+ body +:+ fence +:+ post) = false ->
  _parse_json json_loads (pre +:+ fence +:+ body +:+ fence +:+ post)
  = _parse_json json_loads body.
Proof.
  intros Hpre Hbody Hjson. rewrite (parse_unfenced body Hbody).
  unfold _parse_json. rewrite Hjson, fence_found. unfold split_1.
  rewrite (split_fence pre _ Hpre).
  rewrite (split_0_fence_after body _ Hbody).
  rewrite (split_0_fence_here post), TextFacts.append_empty_r.
  rewrite (split_0_no_fence body Hbody).
  reflexivity.
Qed.
End Parse.

(** A parser that knows one document, the empty object. *)
Definition loads_empty_object (s : string) : option json :=
  if String.eqb s "{}" then Some (JObj []) else None.

Lemma json_fence_is_stripped_witness :
  _parse_json loads_empty_object
    ("Here it is: " +:+ fence_json +:+ " {} " +:+ fence +:+ " Done.")
  = _parse_json loads_empty_object " {} ".
Proof. apply json_fence_is_stripped; reflexivity. Defined.

Lemma plain_fence_is_stripped_witness :
  _parse_json loads_empty_object
    ("Here it is: " +:+ fence +:+ " {} " +:+ fence +:+ " and ```more```")
  = _parse_json loads_empty_object " {} ".
Proof. apply plain_fence_is_stripped; reflexivity. Defined.

End ParseExtra.

(** ** The read-only tools of the agent *)

Module ToolsExtra.
Import Agent AgentTools.

#[local] Arguments Py.sum_values : simpl never.

Lemma sum_values_sorted d :
  Py.sum_values (Py.sorted Py.item_ltb d) = Py.sum_values d.
Proof. apply CounterFacts.sum_values_perm, PyFacts.sorted_perm. Qed.

Lemma filter_length_le {A} (p : A -> bool) l :
  (length (List.filter p l) <= length l)%nat.
Proof. induction l as [|a l IH]; cbn; [lia|]. destruct (p a); cbn; lia. Qed.

Lemma tally_map {A} (f : A -> string) k l :
  CounterFacts.tally k (map f l)
  = length (List.filter (fun a => String.eqb k (f a)) l).
Proof.
  unfold CounterFacts.tally. induction l as [|a l IH]; cbn; [reflexivity|].
  destruct (String.eqb k (f a)); cbn; now rewrite IH.
Qed.

(** X25: the summary that [get_current_state] gives the orchestrator adds
    up: the per-label, per-room and per-confidence counts each sum to the
    number of detections, every label is counted as often as it occurs,
    the boundary flags do not exceed the total, and the calls used and
    remaining sum to the Phase 3 budget. *)
Theorem get_state_adds_up (cfg : PipelineConfig) (self : state) :
  let s := _tool_get_state cfg self in
  total_detections s = length (detections self)
  /\ Py.sum_values (by_label s) = total_detections s
  /\ Py.sum_values (by_room s) = total_detections s
  /\ Py.sum_values (by_confidence s) = total_detections s
  /\ (forall l, Py.get_count l (by_label s)
                = length (List.filter (fun d => String.eqb l (label d)) (detections self)))
  /\ (boundary_flags s <= total_detections s)%nat
  /\ vlm_calls_used s + vlm_calls_remaining s = max_vlm_calls_phase3 cfg.
Proof.
  cbn. rewrite !sum_values_sorted.
  destruct (CounterFacts.Counter_spec (map label (detections self))) as (Hc & Hnd & Hs).
  destruct (CounterFacts.Counter_spec
              (map (fun d => Str.or_else (room d) "unknown") (detections self)))
    as (_ & _ & Hr).
  destruct (CounterFacts.Counter_spec (map confidence (detections self)))
    as (_ & _ & Hf).
  rewrite Hs, Hr, Hf, !length_map. repeat split; try lia.
  - intros l.
    rewrite <- (CounterFacts.get_count_perm l _ _
                 (Permutation_sym (PyFacts.sorted_perm _ _)) Hnd), Hc.
    apply tally_map.
  - apply filter_length_le.
Qed.

Lemma length_omap_le {A B} (f : A -> option B) l :
  (length (omap f l) <= length l)%nat.
Proof. induction l as [|a l IH]; cbn; [lia|]. destruct (f a); cbn; lia. Qed.

Lemma length_omap_all {A B} (f : A -> option B) l :
  length (omap f l) = length l <-> List.Forall (fun a => f a <> None) l.
Proof.
  induction l as [|a l IH]; cbn.
  - split; [constructor|reflexivity].
  - pose proof (length_omap_le f l) as Hle. destruct (f a) eqn:E; cbn.
    + rewrite List.Forall_cons_iff, <- IH. intuition (congruence || lia).
    + rewrite List.Forall_cons_iff. intuition (congruence || lia).
Qed.

(** The detection names a circuit: [d.circuit] is truthy. *)
Definition has_circuit (d : Detection) : bool :=
  match circuit d with
  | Some c => negb (String.eqb c EmptyString)
  | None => false
  end.

(** X26: the corridor check counts the detections whose room mentions a
    corridor, and its breakdowns add up: the per-label and per-confidence
    counts sum to that number, the per-circuit counts sum to at most that
    number, and to exactly that number when every corridor detection
    names a circuit. *)
Theorem corridor_report_adds_up (self : state) :
  let r := _validate_corridor self in
  let corridor_dets := List.filter in_corridor (detections self) in
  total_corridor_fixtures r = length corridor_dets
  /\ (total_corridor_fixtures r <= length (detections self))%nat
  /\ Py.sum_values (corridor_by_label r) = total_corridor_fixtures r
  /\ Py.sum_values (corridor_by_confidence r) = total_corridor_fixtures r
  /\ (Py.sum_values (by_circuit r) <= total_corridor_fixtures r)%nat
  /\ (Py.sum_values (by_circuit r) = total_corridor_fixtures r
      <-> List.Forall (fun d => has_circuit d = true) corridor_dets).
Proof.
  cbn.
  set (cd := List.filter in_corridor (detections self)).
  destruct (CounterFacts.Counter_spec (map label cd)) as (_ & _ & Hl).
  destruct (CounterFacts.Counter_spec (map confidence cd)) as (_ & _ & Hf).
  destruct (CounterFacts.Counter_spec (circuits_of cd)) as (_ & _ & Hc).
  rewrite Hl, Hf, Hc, !length_map. unfold circuits_of.
  repeat split; try apply filter_length_le; try apply length_omap_le.
  - intros H. apply length_omap_all in H. revert H. apply List.Forall_impl.
    intros d. unfold has_circuit. destruct (circuit d) as [c|]; [|congruence].
    destruct (String.eqb c EmptyString); cbn; congruence.
  - intros H. apply length_omap_all. revert H. apply List.Forall_impl.
    intros d. unfold has_circuit. destruct (circuit d) as [c|]; [|congruence].
    destruct (String.eqb c EmptyString); cbn; congruence.
Qed.

End ToolsExtra.

(** ** The suite check of the agent *)

Module KitchenExtra.
Import Agent AgentTools.

Lemma map_chars_app f a b :
  Str.map_chars f (a +:+ b) = Str.map_chars f a +:+ Str.map_chars f b.
Proof.
  induction a as [|c a IH]; [reflexivity|].
  rewrite TextFacts.append_cons. cbn [Str.map_chars].
  now rewrite TextFacts.append_cons, IH.
Qed.

Lemma prefix_contains_tail a b s :
  String.prefix (a +:+ b) s = true -> Str.contains b s = true.
Proof.
  revert s. induction a as [|c a IH]; intros s H.
  - rewrite ParseExtra.contains_eq. change (EmptyString +:+ b) with b in H.
    now rewrite H.
  - rewrite TextFacts.append_cons in H. destruct s as [|c' s]; [discriminate|].
    rewrite ParseExtra.prefix_cons in H. apply andb_true_iff in H as [_ H].
    rewrite ParseExtra.contains_eq, (IH s H). apply orb_true_r.
Qed.

(** A text that holds [a + b] holds [b]. *)
Lemma contains_tail a b s :
  Str.contains (a +:+ b) s = true -> Str.contains b s = true.
Proof.
  induction s as [|c s IH]; rewrite ParseExtra.contains_eq; intros H;
    apply orb_true_iff in H as [H|H].
  - now apply prefix_contains_tail in H.
  - discriminate.
  - now apply prefix_contains_tail in H.
  - rewrite ParseExtra.contains_eq, (IH H). apply orb_true_r.
Qed.

(** The second test of the inner loop never adds anything to the first. *)
Lemma room_names_suite_eq room sn :
  room_names_suite room sn = Str.contains (Str.lower sn) room.
Proof.
  unfold room_names_suite.
  destruct (Str.contains (Str.lower sn) room) eqn:E; [reflexivity|]. cbn.
  destruct (Str.contains (Str.lower ("suite " +:+ sn)) room) eqn:E'; [|reflexivity].
  unfold Str.lower in E'. rewrite map_chars_app in E'.
  apply contains_tail in E'. unfold Str.lower in E. congruence.
Qed.

(** The suites recorded for a variant, none when the variant is no key. *)
Fixpoint found_in (v : string) (suites_with : list (string * gset string))
    : gset string :=
  match suites_with with
  | [] => ∅
  | (v', s) :: rest => if String.eqb v v' then s else found_in v rest
  end.

Lemma found_in_add v' v sn sw :
  found_in v' (add_suite v sn sw)
  = if String.eqb v' v then {[ sn ]} ∪ found_in v' sw else found_in v' sw.
Proof.
  induction sw as [|[v0 s0] sw IH]; cbn.
  - rewrite (String.eqb_sym v' v). destruct (String.eqb v v') eqn:E; [|reflexivity].
    now rewrite union_empty_r_L.
  - destruct (String.eqb_spec v v0) as [->|Hn]; cbn.
    + destruct (String.eqb v' v0); reflexivity.
    + destruct (String.eqb_spec v' v0) as [->|Hn'].
      * destruct (String.eqb_spec v0 v); [congruence|reflexivity].
      * exact IH.
Qed.

(** The invariant of the dict [suites_with]: its keys are distinct and no
    key has an empty set. *)
Definition well_formed (sw : list (string * gset string)) : Prop :=
  List.NoDup (map fst sw) /\ List.Forall (fun kv => kv.2 <> ∅) sw.

Lemma In_add_suite_key v sn sw k :
  In k (map fst (add_suite v sn sw)) <-> k = v \/ In k (map fst sw).
Proof.
  induction sw as [|[v0 s0] sw IH]; cbn.
  - intuition.
  - destruct (String.eqb_spec v v0) as [->|Hn]; cbn; [intuition|].
    rewrite IH. intuition.
Qed.

Lemma well_formed_add v sn sw : well_formed sw -> well_formed (add_suite v sn sw).
Proof.
  intros [Hnd Hne]. induction sw as [|[v0 s0] sw IH]; cbn.
  - split; [repeat constructor; intros []|]. repeat constructor. cbn. set_solver.
  - cbn in Hnd. apply List.NoDup_cons_iff in Hnd as [Hnot Hnd].
    apply List.Forall_cons_iff in Hne as [H0 Hne].
    destruct (IH Hnd Hne) as [IH1 IH2].
    destruct (String.eqb_spec v v0) as [->|Hn]; cbn.
    + split; [constructor; assumption|]. constructor; [cbn; set_solver|assumption].
    + split.
      * constructor; [|exact IH1]. rewrite In_add_suite_key. intuition.
      * constructor; assumption.
Qed.

Lemma In_found_in v s sw :
  List.NoDup (map fst sw) -> In (v, s) sw -> found_in v sw = s.
Proof.
  induction sw as [|[v0 s0] sw IH]; cbn; [intros _ []|].
  intros Hnd [E|Hin].
  - inversion E; subst. now rewrite String.eqb_refl.
  - apply List.NoDup_cons_iff in Hnd as [Hnot Hnd].
    destruct (String.eqb_spec v v0) as [->|_]; [|now apply IH].
    exfalso. apply Hnot. apply in_map_iff. now exists (v0, s).
Qed.

Lemma found_in_key v sw :
  found_in v sw <> ∅ -> In (v, found_in v sw) sw.
Proof.
  induction sw as [|[v0 s0] sw IH]; cbn; [congruence|].
  destruct (String.eqb_spec v v0) as [->|_]; [now left|]. intros H. right. now apply IH.
Qed.

Section Loop.
Variable prefix : string.
Variable order : list string.

(** The detection [d] falls under variant [v] and names the suite [sn]. *)
Definition counts_for (v sn : string) (d : Detection) : bool :=
  String.eqb v (kitchen_variant prefix d) && CoverageFacts.mentions d sn.

Lemma mark_suites_spec sw d :
  well_formed sw ->
  well_formed (mark_suites prefix order sw d)
  /\ forall v sn,
       sn ∈ found_in v (mark_suites prefix order sw d)
       <-> sn ∈ found_in v sw \/ (In sn order /\ counts_for v sn d = true).
Proof.
  unfold mark_suites, counts_for, CoverageFacts.mentions.
  set (rm := Str.lower (Str.or_else (room d) EmptyString)).
  revert sw. induction order as [|s l IH]; intros sw Hwf; cbn [foldl].
  - split; [assumption|]. intros v sn. cbn. tauto.
  - rewrite room_names_suite_eq.
    destruct (Str.contains (Str.lower s) rm) eqn:E.
    + destruct (IH _ (well_formed_add (kitchen_variant prefix d) s sw Hwf)) as [H1 H2].
      split; [assumption|]. intros v sn. rewrite H2, found_in_add. cbn [In].
      destruct (String.eqb_spec v (kitchen_variant prefix d)) as [->|Hn]; cbn.
      * rewrite elem_of_union, elem_of_singleton. intuition (subst; auto).
      * intuition discriminate.
    + destruct (IH _ Hwf) as [H1 H2]. split; [assumption|].
      intros v sn. rewrite H2. cbn [In].
      intuition (subst; auto). rewrite E in *. rewrite andb_false_r in *. discriminate.
Qed.

Lemma suites_with_spec dets sw :
  well_formed sw ->
  well_formed (foldl (mark_suites prefix order) sw dets)
  /\ forall v sn,
       sn ∈ found_in v (foldl (mark_suites prefix order) sw dets)
       <-> sn ∈ found_in v sw
           \/ (In sn order /\ existsb (counts_for v sn) dets = true).
Proof.
  revert sw. induction dets as [|d dets IH]; intros sw Hwf; cbn [foldl].
  - split; [assumption|]. intros v sn. cbn. intuition discriminate.
  - destruct (mark_suites_spec sw d Hwf) as [H1 H2].
    destruct (IH _ H1) as [H3 H4]. split; [assumption|].
    intros v sn. rewrite H4, H2. cbn [existsb]. rewrite orb_true_iff. tauto.
Qed.
End Loop.

Lemma elem_of_all_detected sn (sw : list (string * gset string)) acc :
  sn ∈ foldl (fun acc s => acc ∪ s) acc (map snd sw)
  <-> sn ∈ acc \/ exists kv, In kv sw /\ sn ∈ kv.2.
Proof.
  revert acc. induction sw as [|kv sw IH]; intros acc; cbn [map foldl].
  - split; [auto|]. intros [H|(kv & [] & _)]. exact H.
  - rewrite IH, elem_of_union. cbn [In]. split.
    + intros [[H|H]|(kv' & H1 & H2)]; eauto.
    + intros [H|(kv' & [->|H1] & H2)]; eauto.
Qed.

Lemma In_sorted_set set_order (s : gset string) sn :
  Synthesize.set_order_ok set_order -> In sn (sorted_set set_order s) <-> sn ∈ s.
Proof.
  intros Hok. rewrite <- (CoverageFacts.In_set_order set_order s sn Hok).
  unfold sorted_set. split; apply Permutation_in;
    [|symmetry]; apply PyFacts.sorted_perm.
Qed.

Lemma sorted_set_elements set_order (s : gset string) :
  Synthesize.set_order_ok set_order ->
  sorted_set set_order s = Py.sorted String.ltb (elements s).
Proof. intros Hok. apply PyFacts.sorted_strings_unique, Hok. Qed.

Lemma sorted_set_nil set_order (s : gset string) :
  Synthesize.set_order_ok set_order -> sorted_set set_order s = [] <-> s = ∅.
Proof.
  intros Hok. split.
  - intros H. apply set_eq. intros sn.
    rewrite <- (In_sorted_set set_order s sn Hok), H, elem_of_empty. cbn. tauto.
  - intros ->. rewrite (sorted_set_elements _ _ Hok), elements_empty. reflexivity.
Qed.

Section Report.
Variable set_order : gset string -> list string.
Hypothesis set_order_legal : Synthesize.set_order_ok set_order.
Variable cfg : PipelineConfig.
Variable c : DrawingContext.
Variable self : state.

(** The dict [suites_with] at the end of the loop. *)
Definition final_suites_with : list (string * gset string) :=
  foldl (mark_suites (label_prefix cfg) (set_order (numbers_of (suites c))))
        [] (detections self).

Lemma final_well_formed : well_formed final_suites_with.
Proof.
  apply suites_with_spec. split; constructor.
Qed.

Lemma elem_of_final v sn :
  sn ∈ found_in v final_suites_with
  <-> sn ∈ numbers_of (suites c)
      /\ existsb (counts_for (label_prefix cfg) v sn) (detections self) = true.
Proof.
  unfold final_suites_with.
  destruct (suites_with_spec (label_prefix cfg) (set_order (numbers_of (suites c)))
              (detections self) []) as [_ H]; [split; constructor|].
  rewrite H, (CoverageFacts.In_set_order _ _ _ set_order_legal). cbn [found_in].
  rewrite elem_of_empty. tauto.
Qed.

Lemma final_entry v s :
  In (v, s) final_suites_with <-> s <> ∅ /\ s = found_in v final_suites_with.
Proof.
  destruct final_well_formed as [Hnd Hne]. split.
  - intros Hin. split.
    + rewrite List.Forall_forall in Hne. exact (Hne _ Hin).
    + symmetry. now apply In_found_in.
  - intros [Hs ->]. now apply found_in_key.
Qed.

Lemma no_detections_unmatched :
  numbers_of (suites c) ∖ foldl (fun acc s => acc ∪ s) ∅ (map snd final_suites_with)
  = CoverageFacts.unmatched_suites (detections self) c.
Proof.
  apply set_eq. intros sn. unfold CoverageFacts.unmatched_suites.
  rewrite elem_of_difference, elem_of_filter, elem_of_all_detected, elem_of_empty.
  change (Synthesize.suite_numbers c) with (numbers_of (suites c)).
  split.
  - intros [Hsn Hno]. split; [|exact Hsn].
    destruct (CoverageFacts.suite_matched (detections self) sn) eqn:E; [|reflexivity].
    exfalso. apply Hno. right.
    unfold CoverageFacts.suite_matched in E. apply existsb_exists in E as (d & Hd & Hm).
    set (v := kitchen_variant (label_prefix cfg) d).
    assert (Hin : sn ∈ found_in v final_suites_with).
    { apply elem_of_final. split; [exact Hsn|]. apply existsb_exists. exists d.
      split; [exact Hd|]. unfold counts_for. fold v. now rewrite String.eqb_refl. }
    exists (v, found_in v final_suites_with). split; [|exact Hin].
    apply final_entry. split; [set_solver|reflexivity].
  - intros [Hm Hsn]. split; [exact Hsn|]. intros [[]|([v s] & Hin & Hs)].
    apply final_entry in Hin as [_ ->]. cbn in Hs.
    apply elem_of_final in Hs as [_ Hs]. apply existsb_exists in Hs as (d & Hd & Hc).
    unfold counts_for in Hc. apply andb_true_iff in Hc as [_ Hc].
    assert (CoverageFacts.suite_matched (detections self) sn = true); [|congruence].
    apply existsb_exists. now exists d.
Qed.
End Report.

(** X27: the suite check of the agent and the coverage check of the
    synthesis agree. When the context names suites, the list
    [suites_with_no_detections] of [_validate_suite_kitchen] holds exactly
    the suites that [_check_suite_coverage] warns about for the same
    detections, and the warning is issued exactly when that list is not
    empty; the extra test for the text [suite <number>] changes nothing. *)
Theorem kitchen_check_agrees_with_coverage
    (set_order : gset string -> list string) (cfg : PipelineConfig)
    (c : DrawingContext) (self : state) :
  Synthesize.set_order_ok set_order ->
  suites c <> [] ->
  exists r,
    _validate_suite_kitchen set_order cfg (Some c) self = KitchenChecked r
    /\ Synthesize._check_suite_coverage set_order (detections self) c cfg
       = match suites_with_no_detections r with
         | [] => []
         | l => [CoverageFacts.coverage_warning (label_prefix cfg) l]
         end.
Proof.
  intros Hok Hs. unfold _validate_suite_kitchen.
  destruct (suites c) as [|s0 ss] eqn:Hc; [congruence|]. rewrite <- Hc.
  eexists. split; [reflexivity|]. cbn [suites_with_no_detections].
  fold (final_suites_with set_order cfg c self).
  rewrite (no_detections_unmatched set_order Hok cfg c self).
  rewrite (CoverageFacts.check_suite_coverage_spec _ _ _ _ Hok).
  rewrite (sorted_set_elements _ _ Hok).
  set (U := CoverageFacts.unmatched_suites (detections self) c).
  destruct (bool_decide (U = ∅)) eqn:E.
  - apply bool_decide_eq_true in E. rewrite E, elements_empty. reflexivity.
  - apply bool_decide_eq_false in E.
    destruct (Py.sorted String.ltb (elements U)) as [|a l] eqn:El; [|reflexivity].
    exfalso. apply E. apply (sorted_set_nil set_order U Hok).
    now rewrite (sorted_set_elements _ _ Hok).
Qed.

(** A detection in the kitchen of suite 301. *)
Definition kitchen_det : Detection :=
  {| label := "LT04A"; variant := Some "A"; circuit := None;
     room := Some "Suite 301 kitchen"; x := 400; y := 300;
     confidence := "HIGH"; on_boundary := false; source_cell := Some (1, 0);
     source_phase := 2; notes := EmptyString |}.

Lemma kitchen_check_agrees_with_coverage_witness :
  exists r,
    _validate_suite_kitchen elements GridFacts.default_cfg
      (Some CoverageFacts.three_suites) (init [kitchen_det]) = KitchenChecked r
    /\ Synthesize._check_suite_coverage elements (detections (init [kitchen_det]))
         CoverageFacts.three_suites GridFacts.default_cfg
       = match suites_with_no_detections r with
         | [] => []
         | l => [CoverageFacts.coverage_warning (label_prefix GridFacts.default_cfg) l]
         end.
Proof.
  apply kitchen_check_agrees_with_coverage; [intros s; reflexivity|discriminate].
Defined.

Lemma In_variants_found set_order (sw : list (string * gset string)) v found :
  In (v, found) (map (fun '(k, s) => (k, sorted_set set_order s)) sw)
  <-> exists s, In (v, s) sw /\ found = sorted_set set_order s.
Proof.
  rewrite in_map_iff. split.
  - intros ([k s] & E & Hin). inversion E; subst. eauto.
  - intros (s & Hin & ->). now exists (v, s).
Qed.

Lemma In_missing_of set_order N (sw : list (string * gset string)) v l :
  In (v, l) (missing_of set_order N sw)
  <-> exists s, In (v, s) sw /\ N ∖ s <> ∅ /\ l = sorted_set set_order (N ∖ s).
Proof.
  unfold missing_of. induction sw as [|[k s] sw IH]; cbn [omap list_omap In].
  - split; [intros []|intros (s & [] & _)].
  - unfold omap in IH. cbn. destruct (bool_decide (N ∖ s = ∅)) eqn:E.
    + apply bool_decide_eq_true in E. rewrite IH. split.
      * intros (s' & Hin & H). eauto.
      * intros (s' & [Heq|Hin] & Hne & Hl); [|eauto].
        inversion Heq; subst. contradiction.
    + apply bool_decide_eq_false in E. cbn [In]. rewrite IH. split.
      * intros [Heq|(s' & Hin & H)]; [|eauto].
        inversion Heq; subst. eauto.
      * intros (s' & [Heq|Hin] & Hne & Hl); [|eauto].
        inversion Heq; subst. now left.
Qed.

(** X28: for every variant that [_validate_suite_kitchen] reports as
    found, the suites where it was found and the suites listed as missing
    for it split the suite numbers of the context in two: every suite is
    in one of the two lists and none is in both, the list of suites where
    the variant was found is not empty, and a suite with no detections at
    all is listed as missing for that variant. *)
Theorem kitchen_variants_partition
    (set_order : gset string -> list string) (cfg : PipelineConfig)
    (c : DrawingContext) (self : state) (r : KitchenReport) :
  Synthesize.set_order_ok set_order ->
  _validate_suite_kitchen set_order cfg (Some c) self = KitchenChecked r ->
  forall v found, In (v, found) (variants_found r) ->
    found <> []
    /\ (forall sn, sn ∈ Synthesize.suite_numbers c
                   <-> In sn found \/ exists l, In (v, l) (missing r) /\ In sn l)
    /\ (forall sn l, In sn found -> In (v, l) (missing r) -> ~ In sn l)
    /\ (forall sn, In sn (suites_with_no_detections r) ->
                   exists l, In (v, l) (missing r) /\ In sn l).
Proof.
  intros Hok Hr v found Hv. unfold _validate_suite_kitchen in Hr.
  destruct (suites c) as [|s0 ss] eqn:Hc; [discriminate|]. rewrite <- Hc in Hr.
  fold (final_suites_with set_order cfg c self) in Hr.
  set (sw := final_suites_with set_order cfg c self) in *.
  set (N := numbers_of (suites c)) in *.
  change (Synthesize.suite_numbers c) with N.
  injection Hr as <-. cbn [variants_found missing suites_with_no_detections] in *.
  apply In_variants_found in Hv as (s & Hin & ->).
  pose proof Hin as Hentry.
  apply (final_entry set_order cfg c self) in Hentry as [Hne Hs].
  assert (Hsub : forall sn, sn ∈ s -> sn ∈ N).
  { intros sn H. rewrite Hs in H.
    now apply (elem_of_final set_order Hok cfg c self) in H as [H _]. }
  assert (Hmiss : forall sn, sn ∈ N -> sn ∉ s ->
            exists l, In (v, l) (missing_of set_order N sw) /\ In sn l).
  { intros sn HN Hns. exists (sorted_set set_order (N ∖ s)). split.
    - apply In_missing_of. exists s. repeat split; [exact Hin|set_solver].
    - apply (In_sorted_set _ _ _ Hok). set_solver. }
  assert (Hsame : forall l, In (v, l) (missing_of set_order N sw) ->
            l = sorted_set set_order (N ∖ s)).
  { intros l H. apply In_missing_of in H as (s' & Hin' & _ & ->).
    apply (final_entry set_order cfg c self) in Hin' as [_ Hs'].
    replace s' with s; [reflexivity|].
    etransitivity; [exact Hs|symmetry; exact Hs']. }
  repeat split.
  - intros H. apply Hne. now apply (sorted_set_nil set_order s Hok).
  - intros HN. destruct (decide (sn ∈ s)) as [Hy|Hn].
    + left. now apply (In_sorted_set _ _ _ Hok).
    + right. now apply Hmiss.
  - intros [H|(l & Hl & H)].
    + apply Hsub. now apply (In_sorted_set _ _ _ Hok) in H.
    + rewrite (Hsame l Hl) in H. apply (In_sorted_set _ _ _ Hok) in H.
      apply elem_of_difference in H. tauto.
  - intros sn l H Hl Hin'. rewrite (Hsame l Hl) in Hin'.
    apply (In_sorted_set _ _ _ Hok) in H, Hin'.
    apply elem_of_difference in Hin'. tauto.
  - intros sn H. apply (In_sorted_set _ _ _ Hok) in H.
    apply elem_of_difference in H as [HN Hnot]. apply Hmiss; [exact HN|].
    intros Hy. apply Hnot. apply elem_of_all_detected. right.
    exists (v, s). now split.
Qed.

Lemma kitchen_variants_partition_witness :
  exists r,
    _validate_suite_kitchen elements GridFacts.default_cfg
      (Some CoverageFacts.three_suites) (init [kitchen_det]) = KitchenChecked r
    /\ variants_found r = [("A", ["301"])]
    /\ missing r = [("A", ["302"; "305"])]
    /\ forall sn, In sn (suites_with_no_detections r) ->
                  exists l, In ("A", l) (missing r) /\ In sn l.
Proof.
  eexists. split; [reflexivity|]. split; [vm_compute; reflexivity|].
  split; [vm_compute; reflexivity|].
  refine (proj2 (proj2 (proj2
    (kitchen_variants_partition elements GridFacts.default_cfg
       CoverageFacts.three_suites (init [kitchen_det]) _ (fun s => reflexivity _)
       eq_refl "A" ["301"] _)))).
  vm_compute. now left.
Defined.

End KitchenExtra.

(** ** Image sizes and written reports *)

Module EncodeExtra.
Import Encode.




End EncodeExtra.

Module OutputExtra.
Import Output.

(** X30: in a CSV written from the report that [to_compat_report] builds
    for a sheet, the raw count of every label equals its final count and
    every delta is 0, in the rows of the labels (one per label, in
    ascending order of the label) and in the total row. *)
Theorem csv_of_compat_report_has_no_delta (sheet : SheetResult) :
  write_csv (to_compat_report sheet)
  = [CStr "LT Type"; CStr "Final Count"; CStr "Pass 1 Raw"; CStr "Delta"]
    :: map (fun kv => [CStr kv.1; CInt (Z.of_nat kv.2); CInt (Z.of_nat kv.2); CInt 0])
           (Py.sorted Py.item_ltb
              (map_to_list (default ∅ (sheet_final_counts sheet))))
    ++ [[CStr "TOTAL"; CInt (default 0 (sheet_total sheet));
         CInt (default 0 (sheet_total sheet)); CInt 0]].
Proof.
  unfold write_csv, to_compat_report. cbn [final_counts pass1_counts total pass1_total].
  set (m := default ∅ (sheet_final_counts sheet)).
  f_equal. f_equal.
  - apply map_ext_in. intros [lt count] Hin. cbn.
    apply (Permutation_in _ (PyFacts.sorted_perm _ _)) in Hin.
    apply list_elem_of_In, elem_of_map_to_list in Hin. rewrite Hin. cbn.
    now rewrite Z.sub_diag.
  - now rewrite Z.sub_diag.
Qed.

End OutputExtra.
